(** * Protocol and input core of the compositor

    A shallow embedding of three pieces of the compositor and the
    properties their specification states about them:

    - [Surface]: the wl_surface request handlers (attach, damage, regions,
      frame, commit) and the surface extensions that give a surface a role
      (the shell source, [meta_wayland_surface_commit] and
      [create_surface_extension]);
    - [Pointer]: pointer focus and the default, modal and popup grabs
      (src/wayland/meta-wayland-pointer.c);
    - [SeatNative]: button counting, touch slots and scroll discretisation
      of the native seat (src/backends/native/meta-seat-native.c).

    C pointers are modelled as identifiers ([nat]) or as [option] when the
    code tests them against NULL; calls into collaborators (the surface
    actor, the window manager, the wire protocol) are recorded, in order,
    in a log carried by the state. *)

From Stdlib Require Import ZArith List Bool Lia.
From stdpp Require Import base option list gmap.
Import ListNotations.

(** ** Identifiers shared by the three parts *)

(** A [struct wl_client *]. *)
Definition wl_client := nat.

(** A [struct wl_resource *]: the object id together with the client that
    owns it ([wl_resource_get_client]). *)
Record wl_resource := WlResource {
  resource_id : nat;
  resource_client : wl_client
}.

#[global] Instance wl_resource_eq_dec : EqDecision wl_resource.
Proof. solve_decision. Defined.

(** ** Surface state machine and commit protocol *)
Module Surface.

Local Open Scope Z_scope.

(** *** Regions

    [cairo_region_t] comes from the cairo library. A region is kept as the
    list of the non-empty rectangles whose union it is; cairo's canonical
    banding of that union is not represented. *)

Record cairo_rectangle_int_t := Rect {
  rect_x : Z;
  rect_y : Z;
  rect_width : Z;
  rect_height : Z
}.

#[global] Instance cairo_rectangle_int_t_eq_dec : EqDecision cairo_rectangle_int_t.
Proof. solve_decision. Defined.

Definition cairo_region_t := list cairo_rectangle_int_t.

Definition rect_is_empty (r : cairo_rectangle_int_t) : bool :=
  (rect_width r <=? 0) || (rect_height r <=? 0).

Definition rect_contains (px py : Z) (r : cairo_rectangle_int_t) : bool :=
  (rect_x r <=? px) && (px <? rect_x r + rect_width r) &&
  (rect_y r <=? py) && (py <? rect_y r + rect_height r).

Definition rect_intersect (a b : cairo_rectangle_int_t) : cairo_rectangle_int_t :=
  let x1 := Z.max (rect_x a) (rect_x b) in
  let y1 := Z.max (rect_y a) (rect_y b) in
  let x2 := Z.min (rect_x a + rect_width a) (rect_x b + rect_width b) in
  let y2 := Z.min (rect_y a + rect_height a) (rect_y b + rect_height b) in
  Rect x1 y1 (x2 - x1) (y2 - y1).

Definition cairo_region_create : cairo_region_t := [].

Definition cairo_region_union_rectangle
    (region : cairo_region_t) (rectangle : cairo_rectangle_int_t) : cairo_region_t :=
  if rect_is_empty rectangle then region else region ++ [rectangle].

Definition cairo_region_intersect_rectangle
    (region : cairo_region_t) (rectangle : cairo_rectangle_int_t) : cairo_region_t :=
  List.filter (fun r => negb (rect_is_empty r))
              (List.map (fun r => rect_intersect r rectangle) region).

Definition cairo_region_contains_point (region : cairo_region_t) (px py : Z) : bool :=
  existsb (rect_contains px py) region.

Definition cairo_region_is_empty (region : cairo_region_t) : bool :=
  match region with [] => true | _ :: _ => false end.

(** [empty_region]: intersect with the rectangle { 0, 0, 0, 0 }. *)
Definition empty_region (region : cairo_region_t) : cairo_region_t :=
  cairo_region_intersect_rectangle region (Rect 0 0 0 0).

(** *** Buffers, windows and surfaces *)

(** [MetaWaylandBuffer]: the buffer resource and the size its texture has. *)
Record MetaWaylandBuffer := Buffer {
  buffer_resource : nat;
  buffer_width : Z;
  buffer_height : Z
}.

#[global] Instance MetaWaylandBuffer_eq_dec : EqDecision MetaWaylandBuffer.
Proof. solve_decision. Defined.

Inductive MetaWindowClientType :=
| META_WINDOW_CLIENT_TYPE_WAYLAND
| META_WINDOW_CLIENT_TYPE_X11.

#[global] Instance MetaWindowClientType_eq_dec : EqDecision MetaWindowClientType.
Proof. solve_decision. Defined.

(** The part of a [MetaWindow] the surface code reads. *)
Record MetaWindow := Window {
  window_id : nat;
  client_type : MetaWindowClientType;
  window_rect_width : Z;
  window_rect_height : Z
}.

#[global] Instance MetaWindow_eq_dec : EqDecision MetaWindow.
Proof. solve_decision. Defined.

(** [MetaWaylandDoubleBufferedState]. The destroy listener of the pending
    buffer is linked exactly while [buffer] is not NULL, so it has no field
    of its own. *)
Record MetaWaylandDoubleBufferedState := DoubleBufferedState {
  newly_attached : bool;
  buffer : option MetaWaylandBuffer;
  dx : Z;
  dy : Z;
  damage : cairo_region_t;
  input_region : option cairo_region_t;
  opaque_region : option cairo_region_t;
  frame_callback_list : list nat
}.

(** [MetaWaylandSurfaceExtension]: [None] is a NULL [resource]. *)
Record MetaWaylandSurfaceExtension := SurfaceExtension {
  ext_resource : option nat
}.

#[global] Instance MetaWaylandSurfaceExtension_eq_dec :
  EqDecision MetaWaylandSurfaceExtension.
Proof. solve_decision. Defined.

Record MetaWaylandSurface := MkSurface {
  resource : wl_resource;
  window : option MetaWindow;
  xdg_surface : MetaWaylandSurfaceExtension;
  xdg_popup : MetaWaylandSurfaceExtension;
  gtk_surface : MetaWaylandSurfaceExtension;
  subsurface : MetaWaylandSurfaceExtension;
  buffer_ref : option MetaWaylandBuffer;
  pending : MetaWaylandDoubleBufferedState
}.

Definition set_pending (p : MetaWaylandDoubleBufferedState)
    (s : MetaWaylandSurface) : MetaWaylandSurface :=
  MkSurface (resource s) (window s) (xdg_surface s) (xdg_popup s)
            (gtk_surface s) (subsurface s) (buffer_ref s) p.

Definition set_buffer_ref (b : option MetaWaylandBuffer)
    (s : MetaWaylandSurface) : MetaWaylandSurface :=
  MkSurface (resource s) (window s) (xdg_surface s) (xdg_popup s)
            (gtk_surface s) (subsurface s) b (pending s).

Definition set_window (w : option MetaWindow)
    (s : MetaWaylandSurface) : MetaWaylandSurface :=
  MkSurface (resource s) w (xdg_surface s) (xdg_popup s)
            (gtk_surface s) (subsurface s) (buffer_ref s) (pending s).

(** *** Calls into collaborators and messages to clients *)

Inductive wl_display_error :=
| WL_DISPLAY_ERROR_INVALID_OBJECT
| WL_DISPLAY_ERROR_INVALID_METHOD
| WL_DISPLAY_ERROR_NO_MEMORY.

Inductive role_request :=
| GET_XDG_SURFACE
| GET_XDG_POPUP
| GET_GTK_SURFACE
| GET_SUBSURFACE.

#[global] Instance role_request_eq_dec : EqDecision role_request.
Proof. solve_decision. Defined.

Inductive effect :=
| meta_surface_actor_commit (surface : nat)
| cogl_wayland_texture_2d_new_from_buffer (b : MetaWaylandBuffer)
| meta_wayland_buffer_reference (surface : nat) (b : option MetaWaylandBuffer)
| meta_surface_actor_attach_wayland_buffer (surface : nat) (b : option MetaWaylandBuffer)
| meta_surface_actor_damage_area (surface : nat) (r : cairo_rectangle_int_t)
| meta_surface_actor_set_opaque_region (surface : nat) (r : cairo_region_t)
| meta_surface_actor_set_input_region (surface : nat) (r : cairo_region_t)
| meta_wayland_seat_update_sprite
| meta_window_set_surface_mapped (w : nat) (mapped : bool)
| meta_window_move_resize_wayland (w : nat) (width height dx dy : Z)
| clutter_actor_show (surface : nat)
| clutter_actor_hide (surface : nat)
| clutter_actor_move_by (surface : nat) (dx dy : Z)
| clutter_actor_add_child (parent child : nat)
| meta_window_set_transient_for (w parent : nat)
| meta_wayland_pointer_start_popup_grab (surface : nat)
| wl_resource_post_error (r : wl_resource) (code : wl_display_error) (request : role_request).

(** The compositor: every live surface by the id of its wl_surface
    resource, the surface that is the cursor sprite, the frame callbacks
    waiting for the next frame (a [wl_list], head first), and the
    collaborator calls made so far. *)
Record MetaWaylandCompositor := Compositor {
  surfaces : gmap nat MetaWaylandSurface;
  sprite : option nat;
  frame_callbacks : list nat;
  log : list effect
}.

Definition set_surface (id : nat) (s : MetaWaylandSurface)
    (c : MetaWaylandCompositor) : MetaWaylandCompositor :=
  Compositor (<[id := s]> (surfaces c)) (sprite c) (frame_callbacks c) (log c).

Definition emit (es : list effect) (c : MetaWaylandCompositor) : MetaWaylandCompositor :=
  Compositor (surfaces c) (sprite c) (frame_callbacks c) (log c ++ es).

(** [wl_resource_get_user_data] of a wl_surface resource; [None] is the
    NULL user data of an X11 unmanaged window. *)
Definition wl_resource_get_user_data (c : MetaWaylandCompositor) (id : nat)
  : option MetaWaylandSurface := surfaces c !! id.

(** *** wl_surface requests *)

Definition surface_process_damage (id : nat) (region : cairo_region_t) : list effect :=
  List.map (meta_surface_actor_damage_area id) region.

Definition meta_wayland_surface_attach (id : nat)
    (wayland_buffer_resource : option MetaWaylandBuffer) (dx' dy' : Z)
    (c : MetaWaylandCompositor) : MetaWaylandCompositor :=
  match wl_resource_get_user_data c id with
  | None => c
  | Some surface =>
      let p := pending surface in
      set_surface id
        (set_pending
           (DoubleBufferedState true wayland_buffer_resource dx' dy'
              (damage p) (input_region p) (opaque_region p)
              (frame_callback_list p))
           surface) c
  end.

Definition meta_wayland_surface_damage (id : nat) (x y width height : Z)
    (c : MetaWaylandCompositor) : MetaWaylandCompositor :=
  match wl_resource_get_user_data c id with
  | None => c
  | Some surface =>
      let p := pending surface in
      set_surface id
        (set_pending
           (DoubleBufferedState (newly_attached p) (buffer p) (dx p) (dy p)
              (cairo_region_union_rectangle (damage p) (Rect x y width height))
              (input_region p) (opaque_region p) (frame_callback_list p))
           surface) c
  end.

Definition meta_wayland_surface_frame (id : nat) (callback_id : nat)
    (c : MetaWaylandCompositor) : MetaWaylandCompositor :=
  match wl_resource_get_user_data c id with
  | None => c
  | Some surface =>
      let p := pending surface in
      set_surface id
        (set_pending
           (DoubleBufferedState (newly_attached p) (buffer p) (dx p) (dy p)
              (damage p) (input_region p) (opaque_region p)
              (frame_callback_list p ++ [callback_id]))
           surface) c
  end.

Definition meta_wayland_surface_set_opaque_region (id : nat)
    (region_resource : option cairo_region_t)
    (c : MetaWaylandCompositor) : MetaWaylandCompositor :=
  match wl_resource_get_user_data c id with
  | None => c
  | Some surface =>
      let p := pending surface in
      set_surface id
        (set_pending
           (DoubleBufferedState (newly_attached p) (buffer p) (dx p) (dy p)
              (damage p) (input_region p) region_resource
              (frame_callback_list p))
           surface) c
  end.

Definition meta_wayland_surface_set_input_region (id : nat)
    (region_resource : option cairo_region_t)
    (c : MetaWaylandCompositor) : MetaWaylandCompositor :=
  match wl_resource_get_user_data c id with
  | None => c
  | Some surface =>
      let p := pending surface in
      set_surface id
        (set_pending
           (DoubleBufferedState (newly_attached p) (buffer p) (dx p) (dy p)
              (damage p) region_resource (opaque_region p)
              (frame_callback_list p))
           surface) c
  end.

(** [surface_handle_pending_buffer_destroy]: the listener of every surface
    whose pending buffer is the destroyed one fires. *)
Definition surface_handle_pending_buffer_destroy (b : MetaWaylandBuffer)
    (c : MetaWaylandCompositor) : MetaWaylandCompositor :=
  Compositor
    ((fun surface =>
        let p := pending surface in
        if decide (buffer p = Some b) then
          set_pending
            (DoubleBufferedState (newly_attached p) None (dx p) (dy p)
               (damage p) (input_region p) (opaque_region p)
               (frame_callback_list p))
            surface
        else surface) <$> surfaces c)
    (sprite c) (frame_callbacks c) (log c).

(** *** Commit *)

Definition ensure_buffer_texture (b : option MetaWaylandBuffer) : list effect :=
  match b with
  | None => []
  | Some b => [cogl_wayland_texture_2d_new_from_buffer b]
  end.

Definition cursor_surface_commit (id : nat) (surface : MetaWaylandSurface)
  : MetaWaylandSurface * list effect :=
  let b := buffer (pending surface) in
  if newly_attached (pending surface) && bool_decide (b ≠ buffer_ref surface) then
    (set_buffer_ref b surface,
     ensure_buffer_texture b ++ [meta_wayland_buffer_reference id b]
       ++ [meta_wayland_seat_update_sprite])
  else (surface, [meta_wayland_seat_update_sprite]).

Definition actor_surface_commit (id : nat) (surface : MetaWaylandSurface)
  : MetaWaylandSurface * list effect * bool :=
  let b := buffer (pending surface) in
  let '(surface', attach, changed) :=
    if newly_attached (pending surface) && bool_decide (b ≠ buffer_ref surface) then
      (set_buffer_ref b surface,
       ensure_buffer_texture b
         ++ [meta_wayland_buffer_reference id b;
             meta_surface_actor_attach_wayland_buffer id b],
       true)
    else (surface, [], false) in
  let opaque :=
    match opaque_region (pending surface) with
    | Some r => [meta_surface_actor_set_opaque_region id r]
    | None => []
    end in
  let input :=
    match input_region (pending surface) with
    | Some r => [meta_surface_actor_set_input_region id r]
    | None => []
    end in
  (surface',
   attach ++ surface_process_damage id (damage (pending surface)) ++ opaque ++ input,
   changed).

Definition toplevel_surface_commit (id : nat) (w : MetaWindow)
    (surface : MetaWaylandSurface) : MetaWaylandSurface * list effect :=
  let '(surface', es, changed) := actor_surface_commit id surface in
  if changed then
    let b := buffer (pending surface') in
    let mapped :=
      [meta_window_set_surface_mapped (window_id w)
         (match b with Some _ => true | None => false end)] in
    match b, buffer_ref surface' with
    | Some _, Some ref =>
        if bool_decide (client_type w = META_WINDOW_CLIENT_TYPE_WAYLAND) then
          let new_width := buffer_width ref in
          let new_height := buffer_height ref in
          if negb (new_width =? window_rect_width w)
             || negb (new_height =? window_rect_height w)
             || negb (dx (pending surface') =? 0)
             || negb (dy (pending surface') =? 0)
          then
            (surface',
             es ++ mapped
               ++ [meta_window_move_resize_wayland (window_id w) new_width new_height
                     (dx (pending surface')) (dy (pending surface'))])
          else (surface', es ++ mapped)
        else (surface', es ++ mapped)
    | _, _ => (surface', es ++ mapped)
    end
  else (surface', es).

Definition subsurface_surface_commit (id : nat) (surface : MetaWaylandSurface)
  : MetaWaylandSurface * list effect :=
  let '(surface', es, changed) := actor_surface_commit id surface in
  if changed then
    let show :=
      match buffer (pending surface') with
      | Some _ => clutter_actor_show id
      | None => clutter_actor_hide id
      end in
    (surface',
     es ++ [show; clutter_actor_move_by id (dx (pending surface')) (dy (pending surface'))])
  else (surface', es).

Definition meta_wayland_surface_commit (id : nat)
    (c : MetaWaylandCompositor) : MetaWaylandCompositor :=
  match wl_resource_get_user_data c id with
  | None => c
  | Some surface =>
      let '(surface1, es) :=
        if bool_decide (sprite c = Some id) then cursor_surface_commit id surface
        else match window surface with
             | Some w => toplevel_surface_commit id w surface
             | None =>
                 match ext_resource (subsurface surface) with
                 | Some _ => subsurface_surface_commit id surface
                 | None => (surface, [])
                 end
             end in
      let p := pending surface1 in
      let surface2 :=
        set_pending
          (DoubleBufferedState false None 0 0 (empty_region (damage p)) None None [])
          surface1 in
      Compositor (<[id := surface2]> (surfaces c)) (sprite c)
                 (frame_callback_list p ++ frame_callbacks c)
                 (log c ++ meta_surface_actor_commit id :: es)
  end.

(** [meta_wayland_surface_create]: a zeroed surface with an empty pending
    damage region. *)
Definition meta_wayland_surface_create (wayland_client : wl_client) (id : nat)
    (c : MetaWaylandCompositor) : MetaWaylandCompositor :=
  set_surface id
    (MkSurface (WlResource id wayland_client) None
       (SurfaceExtension None) (SurfaceExtension None)
       (SurfaceExtension None) (SurfaceExtension None) None
       (DoubleBufferedState false None 0 0 cairo_region_create None None []))
    c.

(** Requests a client can send on a wl_surface, and the destruction of a
    buffer, which reaches the surface through its listener. *)
Inductive request :=
| Attach (id : nat) (b : option MetaWaylandBuffer) (dx dy : Z)
| Damage (id : nat) (x y width height : Z)
| Frame (id : nat) (callback_id : nat)
| SetOpaqueRegion (id : nat) (r : option cairo_region_t)
| SetInputRegion (id : nat) (r : option cairo_region_t)
| Commit (id : nat)
| BufferDestroy (b : MetaWaylandBuffer).

Definition handle (r : request) (c : MetaWaylandCompositor) : MetaWaylandCompositor :=
  match r with
  | Attach id b dx' dy' => meta_wayland_surface_attach id b dx' dy' c
  | Damage id x y w h => meta_wayland_surface_damage id x y w h c
  | Frame id cb => meta_wayland_surface_frame id cb c
  | SetOpaqueRegion id r => meta_wayland_surface_set_opaque_region id r c
  | SetInputRegion id r => meta_wayland_surface_set_input_region id r c
  | Commit id => meta_wayland_surface_commit id c
  | BufferDestroy b => surface_handle_pending_buffer_destroy b c
  end.

(** Requests are handled one at a time, in order. *)
Definition dispatch (rs : list request) (c : MetaWaylandCompositor)
  : MetaWaylandCompositor := fold_left (fun c r => handle r c) rs c.

(** *** Surface extensions: the roles of a surface *)

Definition set_xdg_surface (e : MetaWaylandSurfaceExtension)
    (s : MetaWaylandSurface) : MetaWaylandSurface :=
  MkSurface (resource s) (window s) e (xdg_popup s)
            (gtk_surface s) (subsurface s) (buffer_ref s) (pending s).

Definition set_xdg_popup (e : MetaWaylandSurfaceExtension)
    (s : MetaWaylandSurface) : MetaWaylandSurface :=
  MkSurface (resource s) (window s) (xdg_surface s) e
            (gtk_surface s) (subsurface s) (buffer_ref s) (pending s).

Definition set_gtk_surface (e : MetaWaylandSurfaceExtension)
    (s : MetaWaylandSurface) : MetaWaylandSurface :=
  MkSurface (resource s) (window s) (xdg_surface s) (xdg_popup s)
            e (subsurface s) (buffer_ref s) (pending s).

Definition set_subsurface (e : MetaWaylandSurfaceExtension)
    (s : MetaWaylandSurface) : MetaWaylandSurface :=
  MkSurface (resource s) (window s) (xdg_surface s) (xdg_popup s)
            (gtk_surface s) e (buffer_ref s) (pending s).

(** [create_surface_extension]: the gboolean it returns and the extension
    as it leaves it. *)
Definition create_surface_extension (extension : MetaWaylandSurfaceExtension)
    (id : nat) : bool * MetaWaylandSurfaceExtension :=
  match ext_resource extension with
  | Some _ => (false, extension)
  | None => (true, SurfaceExtension (Some id))
  end.

Section Shell.

(** [meta_window_new_for_wayland], the window manager's constructor, by
    the id of the surface the window is made for. *)
Variable meta_window_new_for_wayland : nat -> MetaWindow.

(** The handlers below dereference the surface without a NULL test: the
    result is [None] where the C code would read through a NULL pointer. *)

Definition get_xdg_surface (id : nat) (surface_resource : nat)
    (c : MetaWaylandCompositor) : option MetaWaylandCompositor :=
  match wl_resource_get_user_data c surface_resource with
  | None => None
  | Some surface =>
      match create_surface_extension (xdg_surface surface) id with
      | (false, _) =>
          Some (emit [wl_resource_post_error (resource surface)
                        WL_DISPLAY_ERROR_INVALID_OBJECT GET_XDG_SURFACE] c)
      | (true, e) =>
          Some (set_surface surface_resource
                  (set_window (Some (meta_window_new_for_wayland surface_resource))
                     (set_xdg_surface e surface)) c)
      end
  end.

Definition get_xdg_popup (id : nat) (surface_resource parent_resource : nat)
    (x y : Z) (c : MetaWaylandCompositor) : option MetaWaylandCompositor :=
  match wl_resource_get_user_data c parent_resource with
  | None => Some c
  | Some parent_surf =>
      match window parent_surf with
      | None => Some c
      | Some parent_window =>
          match wl_resource_get_user_data c surface_resource with
          | None => None
          | Some surface =>
              match create_surface_extension (xdg_popup surface) id with
              | (false, _) =>
                  Some (emit [wl_resource_post_error (resource surface)
                                WL_DISPLAY_ERROR_INVALID_OBJECT GET_XDG_POPUP] c)
              | (true, e) =>
                  let w := meta_window_new_for_wayland surface_resource in
                  Some (emit [meta_window_set_transient_for (window_id w)
                                (window_id parent_window);
                              meta_wayland_pointer_start_popup_grab surface_resource]
                          (set_surface surface_resource
                             (set_window (Some w) (set_xdg_popup e surface)) c))
              end
          end
      end
  end.

Definition get_gtk_surface (id : nat) (surface_resource : nat)
    (c : MetaWaylandCompositor) : option MetaWaylandCompositor :=
  match wl_resource_get_user_data c surface_resource with
  | None => None
  | Some surface =>
      match create_surface_extension (gtk_surface surface) id with
      | (false, _) =>
          Some (emit [wl_resource_post_error (resource surface)
                        WL_DISPLAY_ERROR_INVALID_OBJECT GET_GTK_SURFACE] c)
      | (true, e) =>
          Some (set_surface surface_resource (set_gtk_surface e surface) c)
      end
  end.

Definition wl_subcompositor_get_subsurface (id : nat)
    (surface_resource parent_resource : nat)
    (c : MetaWaylandCompositor) : option MetaWaylandCompositor :=
  match wl_resource_get_user_data c surface_resource with
  | None => None
  | Some surface =>
      match create_surface_extension (subsurface surface) id with
      | (false, _) =>
          Some (emit [wl_resource_post_error (resource surface)
                        WL_DISPLAY_ERROR_INVALID_OBJECT GET_SUBSURFACE] c)
      | (true, e) =>
          match wl_resource_get_user_data c parent_resource with
          | None => None
          | Some _ =>
              Some (emit [clutter_actor_add_child parent_resource surface_resource]
                      (set_surface surface_resource (set_subsurface e surface) c))
          end
      end
  end.

(** The three requests that give a surface one of the roles toplevel,
    popup and subsurface. *)
Inductive role_assignment :=
| AssignToplevel (id : nat)
| AssignPopup (id : nat) (parent_resource : nat) (x y : Z)
| AssignSubsurface (id : nat) (parent_resource : nat).

Definition role_kind (r : role_assignment) : role_request :=
  match r with
  | AssignToplevel _ => GET_XDG_SURFACE
  | AssignPopup _ _ _ _ => GET_XDG_POPUP
  | AssignSubsurface _ _ => GET_SUBSURFACE
  end.

Definition assign_role (r : role_assignment) (surface_resource : nat)
    (c : MetaWaylandCompositor) : option MetaWaylandCompositor :=
  match r with
  | AssignToplevel id => get_xdg_surface id surface_resource c
  | AssignPopup id parent x y => get_xdg_popup id surface_resource parent x y c
  | AssignSubsurface id parent =>
      wl_subcompositor_get_subsurface id surface_resource parent c
  end.

End Shell.

(** The extension a role request of each kind binds. *)
Definition role_extension (k : role_request) (s : MetaWaylandSurface)
  : MetaWaylandSurfaceExtension :=
  match k with
  | GET_XDG_SURFACE => xdg_surface s
  | GET_XDG_POPUP => xdg_popup s
  | GET_GTK_SURFACE => gtk_surface s
  | GET_SUBSURFACE => subsurface s
  end.

Definition is_bound (e : MetaWaylandSurfaceExtension) : bool :=
  match ext_resource e with Some _ => true | None => false end.

(** A surface has a role when one of its toplevel, popup or subsurface
    extensions is bound. *)
Definition has_role (s : MetaWaylandSurface) : bool :=
  is_bound (xdg_surface s) || is_bound (xdg_popup s) || is_bound (subsurface s).

Definition is_post_error (e : effect) : bool :=
  match e with wl_resource_post_error _ _ _ => true | _ => false end.

(** *** Destruction of role extensions *)

(** Calls the destructors make into the scene graph and the window
    manager. *)
Inductive teardown_call :=
| clutter_actor_remove_child (surface : nat)
| meta_window_unmanage (w : nat).

(** [destroy_surface_extension]: the extension without its resource. *)
Definition destroy_surface_extension (extension : MetaWaylandSurfaceExtension)
  : MetaWaylandSurfaceExtension := SurfaceExtension None.

(** [unparent_actor]. *)
Definition unparent_actor (id : nat) : list teardown_call :=
  [clutter_actor_remove_child id].

(** [destroy_window]: [None] where [g_assert (surface->window != NULL)]
    fails. *)
Definition destroy_window (id : nat) (surface : MetaWaylandSurface)
  : option (MetaWaylandSurface * list teardown_call) :=
  match window surface with
  | None => None
  | Some w =>
      Some (set_window None surface,
            unparent_actor id ++ [meta_window_unmanage (window_id w)])
  end.

(** The destructors of the extension resources, by the id of the surface
    that contains the extension. *)
Definition xdg_surface_destructor (id : nat) (c : MetaWaylandCompositor)
  : option (MetaWaylandCompositor * list teardown_call) :=
  surface ← wl_resource_get_user_data c id;
  '(surface', calls) ← destroy_window id surface;
  Some (set_surface id
          (set_xdg_surface (destroy_surface_extension (xdg_surface surface')) surface')
          c,
        calls).

Definition xdg_popup_destructor (id : nat) (c : MetaWaylandCompositor)
  : option (MetaWaylandCompositor * list teardown_call) :=
  surface ← wl_resource_get_user_data c id;
  '(surface', calls) ← destroy_window id surface;
  Some (set_surface id
          (set_xdg_popup (destroy_surface_extension (xdg_popup surface')) surface')
          c,
        calls).

Definition gtk_surface_destructor (id : nat) (c : MetaWaylandCompositor)
  : option (MetaWaylandCompositor * list teardown_call) :=
  surface ← wl_resource_get_user_data c id;
  Some (set_surface id
          (set_gtk_surface (destroy_surface_extension (gtk_surface surface)) surface)
          c,
        []).

Definition wl_subsurface_destructor (id : nat) (c : MetaWaylandCompositor)
  : option (MetaWaylandCompositor * list teardown_call) :=
  surface ← wl_resource_get_user_data c id;
  Some (set_surface id
          (set_subsurface (destroy_surface_extension (subsurface surface)) surface)
          c,
        unparent_actor id).

(** *** Interactive move and resize *)

Inductive MetaGrabOp :=
| META_GRAB_OP_NONE
| META_GRAB_OP_MOVING
| META_GRAB_OP_RESIZING_SE
| META_GRAB_OP_RESIZING_S
| META_GRAB_OP_RESIZING_SW
| META_GRAB_OP_RESIZING_N
| META_GRAB_OP_RESIZING_NE
| META_GRAB_OP_RESIZING_NW
| META_GRAB_OP_RESIZING_W
| META_GRAB_OP_RESIZING_E.

#[global] Instance MetaGrabOp_eq_dec : EqDecision MetaGrabOp.
Proof. solve_decision. Defined.

(** The resize edges of the xdg-shell protocol. *)
Definition XDG_SURFACE_RESIZE_EDGE_NONE : Z := 0.
Definition XDG_SURFACE_RESIZE_EDGE_TOP : Z := 1.
Definition XDG_SURFACE_RESIZE_EDGE_BOTTOM : Z := 2.
Definition XDG_SURFACE_RESIZE_EDGE_LEFT : Z := 4.
Definition XDG_SURFACE_RESIZE_EDGE_TOP_LEFT : Z := 5.
Definition XDG_SURFACE_RESIZE_EDGE_BOTTOM_LEFT : Z := 6.
Definition XDG_SURFACE_RESIZE_EDGE_RIGHT : Z := 8.
Definition XDG_SURFACE_RESIZE_EDGE_TOP_RIGHT : Z := 9.
Definition XDG_SURFACE_RESIZE_EDGE_BOTTOM_RIGHT : Z := 10.

Definition grab_op_for_edge (edge : Z) : MetaGrabOp :=
  if edge =? XDG_SURFACE_RESIZE_EDGE_TOP_LEFT then META_GRAB_OP_RESIZING_NW
  else if edge =? XDG_SURFACE_RESIZE_EDGE_TOP then META_GRAB_OP_RESIZING_N
  else if edge =? XDG_SURFACE_RESIZE_EDGE_TOP_RIGHT then META_GRAB_OP_RESIZING_NE
  else if edge =? XDG_SURFACE_RESIZE_EDGE_RIGHT then META_GRAB_OP_RESIZING_E
  else if edge =? XDG_SURFACE_RESIZE_EDGE_BOTTOM_RIGHT then META_GRAB_OP_RESIZING_SE
  else if edge =? XDG_SURFACE_RESIZE_EDGE_BOTTOM then META_GRAB_OP_RESIZING_S
  else if edge =? XDG_SURFACE_RESIZE_EDGE_BOTTOM_LEFT then META_GRAB_OP_RESIZING_SW
  else if edge =? XDG_SURFACE_RESIZE_EDGE_LEFT then META_GRAB_OP_RESIZING_W
  else META_GRAB_OP_NONE.

(** What [xdg_surface_move] and [xdg_surface_resize] read of the pointer
    of the seat: the button count, the serial of the grab and the focus. *)
Record pointer_grab_state := PointerGrabState {
  pointer_button_count : Z;
  pointer_grab_serial : Z;
  pointer_focus : option nat
}.

(** A call of [meta_display_begin_grab_op] on the window of the surface. *)
Record grab_op_call := meta_display_begin_grab_op {
  grab_window : MetaWindow;
  grab_op : MetaGrabOp
}.

(** [begin_grab_op_on_surface]. The outer [None] is the read through
    [surface->window] when it is NULL; [Some None] is the return without a
    call, and [Some (Some call)] the call that is made. *)
Definition begin_grab_op_on_surface (surface : MetaWaylandSurface)
    (grab_op : MetaGrabOp) : option (option grab_op_call) :=
  if bool_decide (grab_op = META_GRAB_OP_NONE) then Some None
  else
    w ← window surface;
    Some (Some (meta_display_begin_grab_op w grab_op)).

(** [xdg_surface_move] and [xdg_surface_resize], by the id of the surface
    that contains the xdg_surface extension. *)
Definition xdg_surface_move (c : MetaWaylandCompositor) (id : nat)
    (seat : pointer_grab_state) (serial : Z) : option (option grab_op_call) :=
  surface ← wl_resource_get_user_data c id;
  if (pointer_button_count seat =? 0)
     || negb (pointer_grab_serial seat =? serial)
     || bool_decide (pointer_focus seat ≠ Some id)
  then Some None
  else begin_grab_op_on_surface surface META_GRAB_OP_MOVING.

Definition xdg_surface_resize (c : MetaWaylandCompositor) (id : nat)
    (seat : pointer_grab_state) (serial : Z) (edges : Z)
  : option (option grab_op_call) :=
  surface ← wl_resource_get_user_data c id;
  if (pointer_button_count seat =? 0)
     || negb (pointer_grab_serial seat =? serial)
     || bool_decide (pointer_focus seat ≠ Some id)
  then Some None
  else begin_grab_op_on_surface surface (grab_op_for_edge edges).

End Surface.

(** ** Pointer focus and grab routing *)
Module Pointer.

Local Open Scope Z_scope.

(** A [MetaWaylandSurface *] is identified by the wl_surface resource of
    the surface it points to; [surface->resource] is that resource. *)
Definition surface_ref := wl_resource.

Inductive ClutterEventType :=
| CLUTTER_MOTION
| CLUTTER_BUTTON_PRESS
| CLUTTER_BUTTON_RELEASE.

#[global] Instance ClutterEventType_eq_dec : EqDecision ClutterEventType.
Proof. solve_decision. Defined.

Record ClutterEvent := Event {
  clutter_event_type : ClutterEventType;
  clutter_event_get_time : Z;
  clutter_event_get_button : Z
}.

(** Messages sent to clients. *)
Inductive message :=
| wl_pointer_send_leave (resource : wl_resource) (serial : Z) (surface : surface_ref)
| wl_pointer_send_enter (resource : wl_resource) (serial : Z) (surface : surface_ref)
    (sx sy : Z)
| wl_pointer_send_motion (resource : wl_resource) (time : Z) (sx sy : Z)
| wl_pointer_send_button (resource : wl_resource) (serial : Z) (time : Z)
    (button : Z) (state : Z)
| wl_keyboard_send_modifiers (resource : wl_resource) (serial : Z)
    (mods_depressed mods_latched mods_locked group : Z)
| wl_shell_surface_send_popup_done (surface : surface_ref).

#[global] Instance message_eq_dec : EqDecision message.
Proof. solve_decision. Defined.

(** The active grab. [default_grab] is the grab embedded in the pointer,
    [modal_grab] a grab whose interface is the modal one, and [popup_grab]
    a [MetaWaylandPopupGrab] with its client and its list of popups, head
    first. *)
Inductive MetaWaylandPointerGrab :=
| default_grab
| modal_grab
| popup_grab (grab_client : wl_client) (all_popups : list surface_ref).

#[global] Instance MetaWaylandPointerGrab_eq_dec : EqDecision MetaWaylandPointerGrab.
Proof. solve_decision. Defined.

Record MetaWaylandPointer := MkPointer {
  resource_list : list wl_resource;
  focus : option surface_ref;
  focus_resource : option wl_resource;
  focus_serial : Z;
  current : option surface_ref;
  button_count : Z;
  grab : MetaWaylandPointerGrab;
  x : Z;
  y : Z
}.

Record MetaWaylandKeyboard := MkKeyboard {
  kbd_resource_list : list wl_resource;
  mods_depressed : Z;
  mods_latched : Z;
  mods_locked : Z;
  group : Z
}.

(** The seat with its pointer and keyboard, the serial counter of the
    display and the messages sent so far. *)
Record MetaWaylandSeat := MkSeat {
  pointer : MetaWaylandPointer;
  keyboard : MetaWaylandKeyboard;
  display_serial : Z;
  wire : list message
}.

Definition set_pointer (p : MetaWaylandPointer) (seat : MetaWaylandSeat) : MetaWaylandSeat :=
  MkSeat p (keyboard seat) (display_serial seat) (wire seat).

Definition set_grab (g : MetaWaylandPointerGrab) (seat : MetaWaylandSeat) : MetaWaylandSeat :=
  let p := pointer seat in
  set_pointer
    (MkPointer (resource_list p) (focus p) (focus_resource p) (focus_serial p)
               (current p) (button_count p) g (x p) (y p))
    seat.

Definition set_focus_fields (surface : option surface_ref)
    (resource : option wl_resource) (serial : Z)
    (seat : MetaWaylandSeat) : MetaWaylandSeat :=
  let p := pointer seat in
  set_pointer
    (MkPointer (resource_list p) surface resource serial
               (current p) (button_count p) (grab p) (x p) (y p))
    seat.

Definition set_current_field (surface : option surface_ref)
    (seat : MetaWaylandSeat) : MetaWaylandSeat :=
  let p := pointer seat in
  set_pointer
    (MkPointer (resource_list p) (focus p) (focus_resource p) (focus_serial p)
               surface (button_count p) (grab p) (x p) (y p))
    seat.

Definition set_button_count (n : Z) (seat : MetaWaylandSeat) : MetaWaylandSeat :=
  let p := pointer seat in
  set_pointer
    (MkPointer (resource_list p) (focus p) (focus_resource p) (focus_serial p)
               (current p) n (grab p) (x p) (y p))
    seat.

Definition set_resource_list (l : list wl_resource) (seat : MetaWaylandSeat) : MetaWaylandSeat :=
  let p := pointer seat in
  set_pointer
    (MkPointer l (focus p) (focus_resource p) (focus_serial p)
               (current p) (button_count p) (grab p) (x p) (y p))
    seat.

Definition send (m : message) (seat : MetaWaylandSeat) : MetaWaylandSeat :=
  MkSeat (pointer seat) (keyboard seat) (display_serial seat) (wire seat ++ [m]).

(** [wl_display_next_serial]: the uint32 counter of the display is
    incremented and its new value returned. *)
Definition wl_display_next_serial (seat : MetaWaylandSeat) : Z * MetaWaylandSeat :=
  let serial := (display_serial seat + 1) mod 2^32 in
  (serial, MkSeat (pointer seat) (keyboard seat) serial (wire seat)).

(** [wl_resource_find_for_client]: the first resource of the list that
    belongs to the client. *)
Definition wl_resource_find_for_client (l : list wl_resource) (client : wl_client)
  : option wl_resource :=
  List.find (fun r => bool_decide (resource_client r = client)) l.

Definition find_resource_for_surface (l : list wl_resource)
    (surface : option surface_ref) : option wl_resource :=
  match surface with
  | None => None
  | Some s => wl_resource_find_for_client l (resource_client s)
  end.

Definition BTN_LEFT : Z := 0x110.
Definition BTN_RIGHT : Z := 0x111.
Definition BTN_MIDDLE : Z := 0x112.

Section Grabs.

(** [meta_wayland_pointer_get_relative_coordinates]: the pointer position
    in the coordinates of the surface, computed by the scene graph. *)
Variable meta_wayland_pointer_get_relative_coordinates :
  MetaWaylandPointer -> surface_ref -> Z * Z.

(** The functions below return [None] where the C code reads through a
    NULL pointer or fails a [g_assert]. *)

Definition lose_pointer_focus (seat : MetaWaylandSeat) : MetaWaylandSeat :=
  set_focus_fields None None (focus_serial (pointer seat)) seat.

Definition meta_wayland_pointer_set_focus (surface : option surface_ref)
    (seat : MetaWaylandSeat) : option MetaWaylandSeat :=
  let p := pointer seat in
  seat1 ←
    match focus_resource p with
    | Some resource =>
        if bool_decide (focus p ≠ surface) then
          old ← focus p;
          let '(serial, seat') := wl_display_next_serial seat in
          Some (send (wl_pointer_send_leave resource serial old) seat')
        else Some seat
    | None => Some seat
    end;
  let resource := find_resource_for_surface (resource_list p) surface in
  match resource, surface with
  | Some r, Some s =>
      if bool_decide (focus p ≠ surface) || bool_decide (focus_resource p ≠ resource)
      then
        let '(serial, seat2) := wl_display_next_serial seat1 in
        let kbd := keyboard seat2 in
        let seat3 :=
          match find_resource_for_surface (kbd_resource_list kbd) surface with
          | Some kr =>
              send (wl_keyboard_send_modifiers kr serial (mods_depressed kbd)
                      (mods_latched kbd) (mods_locked kbd) (group kbd)) seat2
          | None => seat2
          end in
        let '(sx, sy) := meta_wayland_pointer_get_relative_coordinates p s in
        Some (set_focus_fields surface resource serial
                (send (wl_pointer_send_enter r serial s sx sy) seat3))
      else Some (set_focus_fields surface resource (focus_serial p) seat1)
  | _, _ => Some (set_focus_fields surface resource (focus_serial p) seat1)
  end.

Definition default_grab_focus (surface : option surface_ref)
    (seat : MetaWaylandSeat) : option MetaWaylandSeat :=
  if button_count (pointer seat) >? 0 then Some seat
  else meta_wayland_pointer_set_focus surface seat.

Definition default_grab_motion (event : ClutterEvent)
    (seat : MetaWaylandSeat) : option MetaWaylandSeat :=
  match focus_resource (pointer seat) with
  | Some resource =>
      s ← focus (pointer seat);
      let '(sx, sy) := meta_wayland_pointer_get_relative_coordinates (pointer seat) s in
      Some (send (wl_pointer_send_motion resource (clutter_event_get_time event) sx sy)
              seat)
  | None => Some seat
  end.

(** The evdev code of a Clutter button number, in uint32 arithmetic. *)
Definition evdev_button (button : Z) : Z :=
  if button =? 2 then BTN_MIDDLE
  else if button =? 3 then BTN_RIGHT
  else (button + BTN_LEFT - 1) mod 2^32.

Definition default_grab_button (event : ClutterEvent)
    (seat : MetaWaylandSeat) : option MetaWaylandSeat :=
  let event_type := clutter_event_type event in
  let seat1 :=
    match focus_resource (pointer seat) with
    | Some resource =>
        let button := evdev_button (clutter_event_get_button event) in
        let '(serial, seat') := wl_display_next_serial seat in
        send (wl_pointer_send_button resource serial (clutter_event_get_time event)
                button
                (if bool_decide (event_type = CLUTTER_BUTTON_PRESS) then 1 else 0))
             seat'
    | None => seat
    end in
  if (button_count (pointer seat1) =? 0)
     && bool_decide (event_type = CLUTTER_BUTTON_RELEASE)
  then meta_wayland_pointer_set_focus (current (pointer seat1)) seat1
  else Some seat1.

Definition meta_wayland_pointer_end_grab (seat : MetaWaylandSeat)
  : option MetaWaylandSeat :=
  let seat1 := set_grab default_grab seat in
  default_grab_focus (current (pointer seat1)) seat1.

Definition meta_wayland_pointer_set_current (surface : option surface_ref)
    (seat : MetaWaylandSeat) : MetaWaylandSeat :=
  set_current_field surface seat.

Definition current_surface_destroy (seat : MetaWaylandSeat) : MetaWaylandSeat :=
  set_current_field None seat.

Definition modal_focus (surface : option surface_ref)
    (seat : MetaWaylandSeat) : option MetaWaylandSeat := Some seat.

Definition modal_motion (event : ClutterEvent)
    (seat : MetaWaylandSeat) : option MetaWaylandSeat := Some seat.

Definition modal_button (event : ClutterEvent)
    (seat : MetaWaylandSeat) : option MetaWaylandSeat := Some seat.

Definition popup_grab_focus (grab_client : wl_client) (surface : option surface_ref)
    (seat : MetaWaylandSeat) : option MetaWaylandSeat :=
  s ← surface;
  if bool_decide (resource_client s = grab_client)
  then default_grab_focus surface seat
  else meta_wayland_pointer_set_focus None seat.

Definition popup_grab_motion (event : ClutterEvent)
    (seat : MetaWaylandSeat) : option MetaWaylandSeat :=
  default_grab_motion event seat.

Definition meta_wayland_pointer_end_popup_grab (seat : MetaWaylandSeat)
  : option MetaWaylandSeat :=
  match grab (pointer seat) with
  | popup_grab grab_client all_popups =>
      let seat1 :=
        fold_left (fun st popup => send (wl_shell_surface_send_popup_done popup) st)
                  all_popups (set_grab (popup_grab grab_client []) seat) in
      meta_wayland_pointer_end_grab seat1
  | _ => None
  end.

Definition popup_grab_button (grab_client : wl_client) (event : ClutterEvent)
    (seat : MetaWaylandSeat) : option MetaWaylandSeat :=
  match focus_resource (pointer seat) with
  | Some resource =>
      if bool_decide (resource_client resource = grab_client)
      then default_grab_button event seat
      else None
  | None =>
      if bool_decide (clutter_event_type event = CLUTTER_BUTTON_RELEASE)
         && (button_count (pointer seat) =? 0)
      then meta_wayland_pointer_end_popup_grab seat
      else Some seat
  end.

(** Dispatch through [pointer->grab->interface]. *)
Definition interface_focus (surface : option surface_ref)
    (seat : MetaWaylandSeat) : option MetaWaylandSeat :=
  match grab (pointer seat) with
  | default_grab => default_grab_focus surface seat
  | modal_grab => modal_focus surface seat
  | popup_grab c _ => popup_grab_focus c surface seat
  end.

Definition interface_motion (event : ClutterEvent)
    (seat : MetaWaylandSeat) : option MetaWaylandSeat :=
  match grab (pointer seat) with
  | default_grab => default_grab_motion event seat
  | modal_grab => modal_motion event seat
  | popup_grab _ _ => popup_grab_motion event seat
  end.

Definition interface_button (event : ClutterEvent)
    (seat : MetaWaylandSeat) : option MetaWaylandSeat :=
  match grab (pointer seat) with
  | default_grab => default_grab_button event seat
  | modal_grab => modal_button event seat
  | popup_grab c _ => popup_grab_button c event seat
  end.

Definition meta_wayland_pointer_start_grab (g : MetaWaylandPointerGrab)
    (seat : MetaWaylandSeat) : option MetaWaylandSeat :=
  let seat1 := set_grab g seat in
  match current (pointer seat1) with
  | Some s => interface_focus (Some s) seat1
  | None => Some seat1
  end.

Definition meta_wayland_pointer_begin_modal (seat : MetaWaylandSeat)
  : option (bool * MetaWaylandSeat) :=
  if bool_decide (grab (pointer seat) ≠ default_grab) then Some (false, seat)
  else
    seat1 ← meta_wayland_pointer_set_focus None seat;
    seat2 ← meta_wayland_pointer_start_grab modal_grab seat1;
    Some (true, seat2).

Definition meta_wayland_pointer_end_modal (seat : MetaWaylandSeat)
  : option MetaWaylandSeat :=
  match grab (pointer seat) with
  | modal_grab => meta_wayland_pointer_end_grab seat
  | _ => None
  end.

Definition meta_wayland_pointer_destroy_focus (seat : MetaWaylandSeat)
  : option MetaWaylandSeat :=
  if bool_decide (grab (pointer seat) = default_grab) then
    if button_count (pointer seat) >? 0
    then meta_wayland_pointer_set_focus None seat
    else None
  else Some seat.

(** [wl_list_remove] of the popup whose surface is [s]. *)
Fixpoint remove_popup (s : surface_ref) (l : list surface_ref) : list surface_ref :=
  match l with
  | [] => []
  | p :: l' => if bool_decide (p = s) then l' else p :: remove_popup s l'
  end.

(** [on_popup_surface_destroy]: the listener of a popup of the active
    popup grab; it is registered only while the popup is in the list. *)
Definition on_popup_surface_destroy (s : surface_ref)
    (seat : MetaWaylandSeat) : option MetaWaylandSeat :=
  match grab (pointer seat) with
  | popup_grab grab_client all_popups =>
      if bool_decide (s ∈ all_popups) then
        let rest := remove_popup s all_popups in
        let seat1 := set_grab (popup_grab grab_client rest) seat in
        match rest with
        | [] => meta_wayland_pointer_end_popup_grab seat1
        | _ :: _ => Some seat1
        end
      else None
  | _ => None
  end.

(** [wl_list_insert] at the head of the popup list of the grab that is
    installed. *)
Definition insert_popup (s : surface_ref) (seat : MetaWaylandSeat) : MetaWaylandSeat :=
  match grab (pointer seat) with
  | popup_grab c all_popups => set_grab (popup_grab c (s :: all_popups)) seat
  | _ => seat
  end.

Definition meta_wayland_pointer_start_popup_grab (surface : surface_ref)
    (seat : MetaWaylandSeat) : option (bool * MetaWaylandSeat) :=
  if bool_decide (grab (pointer seat) ≠ default_grab) then
    match grab (pointer seat) with
    | popup_grab grab_client _ =>
        if bool_decide (resource_client surface ≠ grab_client)
        then Some (false, seat)
        else Some (false, seat)
    | _ => Some (false, seat)
    end
  else
    seat1 ←
      (if bool_decide (grab (pointer seat) = default_grab) then
         meta_wayland_pointer_start_grab
           (popup_grab (resource_client surface) []) seat
       else Some seat);
    Some (true, insert_popup surface seat1).

(** What reaches the pointer: seat code setting the surface under the
    pointer, the button count and the bound resources, events dispatched
    through the grab, the grab requests, and destruction listeners. *)
Inductive op :=
| SetCurrent (surface : option surface_ref)
| SetButtonCount (n : Z)
| BindPointer (r : wl_resource)
| GrabFocus (surface : option surface_ref)
| GrabMotion (event : ClutterEvent)
| GrabButton (event : ClutterEvent)
| BeginModal
| EndModal
| StartPopupGrab (surface : surface_ref)
| PopupSurfaceDestroy (surface : surface_ref)
| FocusResourceDestroy
| CurrentSurfaceDestroy
| DestroyFocus.

Definition step (o : op) (seat : MetaWaylandSeat) : option MetaWaylandSeat :=
  match o with
  | SetCurrent s => Some (meta_wayland_pointer_set_current s seat)
  | SetButtonCount n => Some (set_button_count n seat)
  | BindPointer r => Some (set_resource_list (r :: resource_list (pointer seat)) seat)
  | GrabFocus s => interface_focus s seat
  | GrabMotion e => interface_motion e seat
  | GrabButton e => interface_button e seat
  | BeginModal => snd <$> meta_wayland_pointer_begin_modal seat
  | EndModal => meta_wayland_pointer_end_modal seat
  | StartPopupGrab s => snd <$> meta_wayland_pointer_start_popup_grab s seat
  | PopupSurfaceDestroy s => on_popup_surface_destroy s seat
  | FocusResourceDestroy => Some (lose_pointer_focus seat)
  | CurrentSurfaceDestroy => Some (current_surface_destroy seat)
  | DestroyFocus => meta_wayland_pointer_destroy_focus seat
  end.

Fixpoint run (os : list op) (seat : MetaWaylandSeat) : option MetaWaylandSeat :=
  match os with
  | [] => Some seat
  | o :: os' => seat' ← step o seat; run os' seat'
  end.

End Grabs.

(** [meta_wayland_pointer_init] on a zeroed seat. *)
Definition meta_wayland_pointer_init (x0 y0 : Z) : MetaWaylandSeat :=
  MkSeat (MkPointer [] None None 0 None 0 default_grab x0 y0)
         (MkKeyboard [] 0 0 0 0) 0 [].

Definition is_popup_grab (g : MetaWaylandPointerGrab) : bool :=
  match g with popup_grab _ _ => true | _ => false end.

Definition is_modal_grab (g : MetaWaylandPointerGrab) : bool :=
  match g with modal_grab => true | _ => false end.

Definition is_default_grab (g : MetaWaylandPointerGrab) : bool :=
  match g with default_grab => true | _ => false end.

(** *** Pointer constraining *)

Record MetaRectangle := MkRectangle {
  rect_x : Z;
  rect_y : Z;
  rect_width : Z;
  rect_height : Z
}.

Record MetaMonitorInfo := MonitorInfo { rect : MetaRectangle }.

(** Pointer positions are floats; a position is given here in units of
    1 / [scale] of a pixel, so that the int [n] compared with or stored in
    a float is [n * scale]. Monitor coordinates are taken small enough for
    the int sums not to overflow and for their conversion to float to be
    exact. *)
Section Constrain.

Variable scale : Z.

Definition of_int (n : Z) : Z := n * scale.

(** The test both loops make on a monitor; [bottom] is computed from
    [left], as in the source. *)
Definition in_monitor_box (monitor : MetaMonitorInfo) (px py : Z) : bool :=
  let left := rect_x (rect monitor) in
  let right := left + rect_width (rect monitor) in
  let top := rect_y (rect monitor) in
  let bottom := left + rect_height (rect monitor) in
  (px >=? of_int left) && (px <? of_int right)
  && (py >=? of_int top) && (py <? of_int bottom).

Fixpoint check_all_screen_monitors (monitors : list MetaMonitorInfo) (px py : Z)
  : bool :=
  match monitors with
  | [] => false
  | monitor :: rest =>
      if in_monitor_box monitor px py then true
      else check_all_screen_monitors rest px py
  end.

Fixpoint constrain_all_screen_monitors (monitors : list MetaMonitorInfo)
    (current_x current_y : Z) (px py : Z) : Z * Z :=
  match monitors with
  | [] => (px, py)
  | monitor :: rest =>
      let left := rect_x (rect monitor) in
      let right := left + rect_width (rect monitor) in
      let top := rect_y (rect monitor) in
      let bottom := left + rect_height (rect monitor) in
      if in_monitor_box monitor current_x current_y then
        let px1 := if px <? of_int left then of_int left else px in
        let px2 := if px1 >=? of_int right then of_int (right - 1) else px1 in
        let py1 := if py <? of_int top then of_int top else py in
        let py2 := if py1 >=? of_int bottom then of_int (bottom - 1) else py1 in
        (px2, py2)
      else constrain_all_screen_monitors rest current_x current_y px py
  end.

(** [pointer_constrain_callback], from the position that
    [meta_barrier_manager_constrain_cursor] leaves in [new_x], [new_y]. *)
Definition pointer_constrain_callback (monitors : list MetaMonitorInfo)
    (current_x current_y : Z) (new_x new_y : Z) : Z * Z :=
  if check_all_screen_monitors monitors new_x new_y then (new_x, new_y)
  else constrain_all_screen_monitors monitors current_x current_y new_x new_y.

End Constrain.

End Pointer.

(** ** Native input event translator *)
Module SeatNative.

Local Open Scope Z_scope.

(** Button codes of linux/input.h and button numbers of Clutter. *)
Definition BTN_LEFT : Z := 0x110.
Definition BTN_RIGHT : Z := 0x111.
Definition BTN_MIDDLE : Z := 0x112.
Definition BTN_TOOL_PEN : Z := 0x140.
Definition BTN_STYLUS3 : Z := 0x149.
Definition BTN_TOUCH : Z := 0x14a.
Definition BTN_STYLUS : Z := 0x14b.
Definition BTN_STYLUS2 : Z := 0x14c.

Definition CLUTTER_BUTTON_PRIMARY : Z := 1.
Definition CLUTTER_BUTTON_MIDDLE : Z := 2.
Definition CLUTTER_BUTTON_SECONDARY : Z := 3.

Definition CLUTTER_BUTTON1_MASK : Z := Z.shiftl 1 8.
Definition CLUTTER_BUTTON2_MASK : Z := Z.shiftl 1 9.
Definition CLUTTER_BUTTON3_MASK : Z := Z.shiftl 1 10.
Definition CLUTTER_BUTTON4_MASK : Z := Z.shiftl 1 11.
Definition CLUTTER_BUTTON5_MASK : Z := Z.shiftl 1 12.

Definition CLUTTER_SCROLL_FINISHED_NONE : Z := 0.
Definition CLUTTER_SCROLL_FINISHED_HORIZONTAL : Z := Z.shiftl 1 0.
Definition CLUTTER_SCROLL_FINISHED_VERTICAL : Z := Z.shiftl 1 1.

Inductive ClutterInputDeviceType :=
| CLUTTER_POINTER_DEVICE
| CLUTTER_KEYBOARD_DEVICE
| CLUTTER_TOUCHPAD_DEVICE
| CLUTTER_TOUCHSCREEN_DEVICE
| CLUTTER_TABLET_DEVICE.

#[global] Instance ClutterInputDeviceType_eq_dec : EqDecision ClutterInputDeviceType.
Proof. solve_decision. Defined.

(** The part of an input device the seat reads: its type, the stage it is
    associated with (NULL before the association), the button mapping of
    its last tool, and its own coordinates. *)
Record ClutterInputDevice := Device {
  device_id : nat;
  device_type : ClutterInputDeviceType;
  device_stage : option nat;
  last_tool : option (Z -> Z);
  device_x : Z;
  device_y : Z
}.

Inductive ClutterScrollDirection :=
| CLUTTER_SCROLL_UP
| CLUTTER_SCROLL_DOWN
| CLUTTER_SCROLL_LEFT
| CLUTTER_SCROLL_RIGHT
| CLUTTER_SCROLL_SMOOTH.

#[global] Instance ClutterScrollDirection_eq_dec : EqDecision ClutterScrollDirection.
Proof. solve_decision. Defined.

Inductive ClutterEventType :=
| CLUTTER_BUTTON_PRESS
| CLUTTER_BUTTON_RELEASE.

#[global] Instance ClutterEventType_eq_dec : EqDecision ClutterEventType.
Proof. solve_decision. Defined.

(** Events pushed on the Clutter queue. A smooth scroll event records the
    deltas it was given in native units; the event carries them scaled by
    1 / DISCRETE_SCROLL_STEP. *)
Inductive ClutterEvent :=
| button_event (type : ClutterEventType) (time_us : Z) (stage : nat)
    (modifier_state : Z) (button : Z) (x y : Z)
    (device : option nat) (source_device : nat) (event_code : Z)
| scroll_event (direction : ClutterScrollDirection) (time_us : Z) (stage : nat)
    (modifier_state : Z) (dx dy : Z) (x y : Z) (source_device : nat)
    (scroll_source : Z) (finish_flags : Z) (emulated : bool).

Record MetaTouchState := TouchState {
  seat_slot : nat;
  device_slot : Z
}.

#[global] Instance MetaTouchState_eq_dec : EqDecision MetaTouchState.
Proof. solve_decision. Defined.

(** [MetaSeatNative]. [button_counts] is the zero-initialised array of
    counters, read with [button_count]; [touch_states] is the slot table, whose
    length is [n_alloc_touch_states]; [events] is the Clutter event queue
    in the order of [queue_event]. *)
Record MetaSeatNative := Seat {
  button_counts : gmap Z Z;
  button_state : Z;
  touch_states : list (option MetaTouchState);
  accum_scroll_dx : Z;
  accum_scroll_dy : Z;
  pointer_x : Z;
  pointer_y : Z;
  events : list ClutterEvent
}.

(** [seat->button_count[button]]; an entry that was never written is 0. *)
Definition button_count (seat : MetaSeatNative) (button : Z) : Z :=
  default 0 (button_counts seat !! button).

Definition n_alloc_touch_states (seat : MetaSeatNative) : nat :=
  length (touch_states seat).

Definition set_button_count (m : gmap Z Z) (seat : MetaSeatNative) : MetaSeatNative :=
  Seat m (button_state seat) (touch_states seat) (accum_scroll_dx seat)
       (accum_scroll_dy seat) (pointer_x seat) (pointer_y seat) (events seat).

Definition set_button_state (s : Z) (seat : MetaSeatNative) : MetaSeatNative :=
  Seat (button_counts seat) s (touch_states seat) (accum_scroll_dx seat)
       (accum_scroll_dy seat) (pointer_x seat) (pointer_y seat) (events seat).

Definition set_touch_states (l : list (option MetaTouchState))
    (seat : MetaSeatNative) : MetaSeatNative :=
  Seat (button_counts seat) (button_state seat) l (accum_scroll_dx seat)
       (accum_scroll_dy seat) (pointer_x seat) (pointer_y seat) (events seat).

Definition set_accum_scroll (ax ay : Z) (seat : MetaSeatNative) : MetaSeatNative :=
  Seat (button_counts seat) (button_state seat) (touch_states seat) ax ay
       (pointer_x seat) (pointer_y seat) (events seat).

Definition queue_event (e : ClutterEvent) (seat : MetaSeatNative) : MetaSeatNative :=
  Seat (button_counts seat) (button_state seat) (touch_states seat)
       (accum_scroll_dx seat) (accum_scroll_dy seat)
       (pointer_x seat) (pointer_y seat) (events seat ++ [e]).

(** [meta_seat_native_new]: a zeroed seat with the pointer at its initial
    position. *)
Definition meta_seat_native_new : MetaSeatNative :=
  Seat ∅ 0 [] 0 0 16 16 [].

(** *** Touch slots *)

(** The scan of [meta_seat_native_acquire_touch_state]: the first index
    whose entry is NULL, or the length of the table. *)
Fixpoint first_free_slot (l : list (option MetaTouchState)) : nat :=
  match l with
  | [] => 0%nat
  | None :: _ => 0%nat
  | Some _ :: l' => S (first_free_slot l')
  end.

Definition ensure_seat_slot_allocated (seat : MetaSeatNative) (slot : nat)
  : MetaSeatNative :=
  if (n_alloc_touch_states seat <=? slot)%nat then
    let size_increase := 5%nat in
    set_touch_states (touch_states seat ++ replicate size_increase None) seat
  else seat.

Definition meta_seat_native_acquire_touch_state (seat : MetaSeatNative)
    (device_slot : Z) : MetaTouchState * MetaSeatNative :=
  let slot := first_free_slot (touch_states seat) in
  let seat1 := ensure_seat_slot_allocated seat slot in
  let touch_state := TouchState slot device_slot in
  (touch_state,
   set_touch_states (<[slot := Some touch_state]> (touch_states seat1)) seat1).

Definition meta_seat_native_release_touch_state (seat : MetaSeatNative)
    (touch_state : MetaTouchState) : MetaSeatNative :=
  set_touch_states (<[seat_slot touch_state := None]> (touch_states seat)) seat.

(** The seat together with the touches its devices hold: those acquired
    and not released since. A release is given one of them; releasing any
    other pointer is outside what the code defines, and is [None]. *)
Inductive touch_op :=
| Acquire (device_slot : Z)
| Release (touch_state : MetaTouchState).

Definition touch_step (o : touch_op) (st : MetaSeatNative * list MetaTouchState)
  : option (MetaSeatNative * list MetaTouchState) :=
  let '(seat, held) := st in
  match o with
  | Acquire d =>
      let '(touch_state, seat') := meta_seat_native_acquire_touch_state seat d in
      Some (seat', touch_state :: held)
  | Release touch_state =>
      if bool_decide (touch_state ∈ held) then
        Some (meta_seat_native_release_touch_state seat touch_state,
              filter (fun t => t ≠ touch_state) held)
      else None
  end.

Fixpoint touch_run (os : list touch_op) (st : MetaSeatNative * list MetaTouchState)
  : option (MetaSeatNative * list MetaTouchState) :=
  match os with
  | [] => Some st
  | o :: os' => st' ← touch_step o st; touch_run os' st'
  end.

(** *** Button counting *)

(** The value returned and the seat as the call leaves it. *)
Definition update_button_count (seat : MetaSeatNative) (button : Z) (state : Z)
  : Z * MetaSeatNative :=
  let count := button_count seat button in
  if negb (state =? 0) then
    (count + 1, set_button_count (<[button := count + 1]> (button_counts seat)) seat)
  else if count =? 0 then (0, seat)
  else (count - 1, set_button_count (<[button := count - 1]> (button_counts seat)) seat).

Definition int_of_uint32 (z : Z) : Z :=
  let w := z mod 2^32 in if w <? 2^31 then w else w - 2^32.

Definition maskmap : list Z :=
  [CLUTTER_BUTTON1_MASK; CLUTTER_BUTTON3_MASK; CLUTTER_BUTTON2_MASK;
   CLUTTER_BUTTON4_MASK; CLUTTER_BUTTON5_MASK; 0; 0; 0].

(** The switch on the button code. *)
Definition button_number (input_device : ClutterInputDevice) (button : Z) : Z :=
  if (button =? BTN_LEFT) || (button =? BTN_TOUCH) then CLUTTER_BUTTON_PRIMARY
  else if (button =? BTN_RIGHT) || (button =? BTN_STYLUS) then CLUTTER_BUTTON_SECONDARY
  else if (button =? BTN_MIDDLE) || (button =? BTN_STYLUS2) then CLUTTER_BUTTON_MIDDLE
  else if button =? 0x149 then 8
  else if bool_decide (device_type input_device = CLUTTER_TABLET_DEVICE)
       then int_of_uint32 (button - BTN_TOOL_PEN + 4)
       else int_of_uint32 (button - (BTN_LEFT - 1) + 4).

Definition meta_seat_native_notify_button (seat : MetaSeatNative)
    (input_device : ClutterInputDevice) (time_us : Z) (button : Z) (state : Z)
  : MetaSeatNative :=
  let '(count, seat1) := update_button_count seat button state in
  if negb (state =? 0) && (count >? 1) then seat1
  else if (state =? 0) && negb (count =? 0) then seat1
  else
    match device_stage input_device with
    | None => seat1
    | Some stage =>
        let button_nr := button_number input_device button in
        if (button_nr <? 1) || (button_nr >? 12) then seat1
        else
          let type :=
            if negb (state =? 0) then CLUTTER_BUTTON_PRESS
            else CLUTTER_BUTTON_RELEASE in
          let seat2 :=
            if button_nr <? 8 then
              let mask := nth (Z.to_nat (button_nr - 1)) maskmap 0 in
              if negb (state =? 0)
              then set_button_state (Z.lor (button_state seat1) mask) seat1
              else set_button_state (Z.land (button_state seat1) (Z.lnot mask)) seat1
            else seat1 in
          let tablet :=
            bool_decide (device_type input_device = CLUTTER_TABLET_DEVICE) in
          let ex := if tablet then device_x input_device else pointer_x seat2 in
          let ey := if tablet then device_y input_device else pointer_y seat2 in
          let code :=
            match last_tool input_device with
            | Some tool =>
                let mapped_button := tool button_nr in
                if mapped_button =? 0 then button else mapped_button
            | None => button
            end in
          queue_event
            (button_event type time_us stage (button_state seat2) button_nr ex ey
               (if tablet then Some (device_id input_device) else None)
               (device_id input_device) code)
            seat2
    end.

(** A raw report of one button: the device it comes from and its time. *)
Definition report := (ClutterInputDevice * Z)%type.

Definition notify_buttons (button state : Z) (reports : list report)
    (seat : MetaSeatNative) : MetaSeatNative :=
  fold_left
    (fun seat r => meta_seat_native_notify_button seat (fst r) (snd r) button state)
    reports seat.

(** *** Scroll

    The accumulators are floats and the deltas doubles. Scroll amounts are
    counted here in steps of 1/[scale] of a native unit, for a power of two
    [scale]: the float with value a/[scale] is the integer a. On such
    values up to 24 bits the operations of the source are exact: the sum,
    [floor (fabs (a) / 10.0)], which is the quotient of |a| by the step, and
    [fmodf (a, 10.0)], which is the remainder with the sign of a. Deltas
    that make the float sum round are not covered. *)

Section Scroll.

Variable scale : Z.

Definition DISCRETE_SCROLL_STEP : Z := 10 * scale.

Definition notify_scroll (seat : MetaSeatNative) (input_device : ClutterInputDevice)
    (time_us : Z) (dx dy : Z) (scroll_source : Z) (flags : Z) (emulated : bool)
  : MetaSeatNative :=
  match device_stage input_device with
  | None => seat
  | Some stage =>
      queue_event
        (scroll_event CLUTTER_SCROLL_SMOOTH time_us stage (button_state seat)
           dx dy (pointer_x seat) (pointer_y seat) (device_id input_device)
           scroll_source flags emulated)
        seat
  end.

Definition notify_discrete_scroll (seat : MetaSeatNative)
    (input_device : ClutterInputDevice) (time_us : Z)
    (direction : ClutterScrollDirection) (scroll_source : Z) (emulated : bool)
  : MetaSeatNative :=
  if bool_decide (direction = CLUTTER_SCROLL_SMOOTH) then seat
  else
    match device_stage input_device with
    | None => seat
    | Some stage =>
        queue_event
          (scroll_event direction time_us stage (button_state seat)
             0 0 (pointer_x seat) (pointer_y seat) (device_id input_device)
             scroll_source CLUTTER_SCROLL_FINISHED_NONE emulated)
          seat
    end.

(** The body of a [for (i = 0; i < n; i++)] loop run [n] times. *)
Fixpoint repeat_call (n : nat) (f : MetaSeatNative -> MetaSeatNative)
    (seat : MetaSeatNative) : MetaSeatNative :=
  match n with
  | O => seat
  | S n' => repeat_call n' f (f seat)
  end.

Definition check_notify_discrete_scroll (seat : MetaSeatNative)
    (device : ClutterInputDevice) (time_us : Z) (scroll_source : Z)
  : MetaSeatNative :=
  let n_xscrolls := Z.abs (accum_scroll_dx seat) / DISCRETE_SCROLL_STEP in
  let n_yscrolls := Z.abs (accum_scroll_dy seat) / DISCRETE_SCROLL_STEP in
  let seat1 :=
    repeat_call (Z.to_nat n_xscrolls)
      (fun s =>
         notify_discrete_scroll s device time_us
           (if accum_scroll_dx s >? 0 then CLUTTER_SCROLL_RIGHT else CLUTTER_SCROLL_LEFT)
           scroll_source true)
      seat in
  let seat2 :=
    repeat_call (Z.to_nat n_yscrolls)
      (fun s =>
         notify_discrete_scroll s device time_us
           (if accum_scroll_dy s >? 0 then CLUTTER_SCROLL_DOWN else CLUTTER_SCROLL_UP)
           scroll_source true)
      seat1 in
  set_accum_scroll (Z.rem (accum_scroll_dx seat2) DISCRETE_SCROLL_STEP)
                   (Z.rem (accum_scroll_dy seat2) DISCRETE_SCROLL_STEP) seat2.

Definition meta_seat_native_notify_scroll_continuous (seat : MetaSeatNative)
    (input_device : ClutterInputDevice) (time_us : Z) (dx dy : Z)
    (scroll_source : Z) (finish_flags : Z) : MetaSeatNative :=
  let ax :=
    if negb (Z.land finish_flags CLUTTER_SCROLL_FINISHED_HORIZONTAL =? 0) then 0
    else accum_scroll_dx seat + dx in
  let ay :=
    if negb (Z.land finish_flags CLUTTER_SCROLL_FINISHED_VERTICAL =? 0) then 0
    else accum_scroll_dy seat + dy in
  let seat1 := set_accum_scroll ax ay seat in
  let seat2 := notify_scroll seat1 input_device time_us dx dy scroll_source
                 finish_flags false in
  check_notify_discrete_scroll seat2 input_device time_us scroll_source.

(** One continuous scroll report. *)
Record scroll_report := ScrollReport {
  scroll_time_us : Z;
  scroll_dx : Z;
  scroll_dy : Z;
  scroll_source : Z;
  scroll_finish_flags : Z
}.

Definition notify_scrolls (input_device : ClutterInputDevice)
    (reports : list scroll_report) (seat : MetaSeatNative) : MetaSeatNative :=
  fold_left
    (fun seat r =>
       meta_seat_native_notify_scroll_continuous seat input_device
         (scroll_time_us r) (scroll_dx r) (scroll_dy r) (scroll_source r)
         (scroll_finish_flags r))
    reports seat.

End Scroll.

Definition event_direction (e : ClutterEvent) : option ClutterScrollDirection :=
  match e with
  | scroll_event d _ _ _ _ _ _ _ _ _ _ _ => Some d
  | _ => None
  end.

Definition is_horizontal (d : ClutterScrollDirection) : bool :=
  match d with
  | CLUTTER_SCROLL_LEFT | CLUTTER_SCROLL_RIGHT => true
  | _ => false
  end.

Definition is_vertical (d : ClutterScrollDirection) : bool :=
  match d with
  | CLUTTER_SCROLL_UP | CLUTTER_SCROLL_DOWN => true
  | _ => false
  end.

(** The directions of the discrete scroll events of one axis in a queue,
    in queue order. *)
Definition discrete_directions (axis : ClutterScrollDirection -> bool)
    (queue : list ClutterEvent) : list ClutterScrollDirection :=
  List.filter axis (omap event_direction queue).


(** *** Discrete scroll reports *)

(** [discrete_to_direction]; [None] where the code reaches
    [g_assert_not_reached]. *)
Definition discrete_to_direction (discrete_dx discrete_dy : Z)
  : option ClutterScrollDirection :=
  if discrete_dx >? 0 then Some CLUTTER_SCROLL_RIGHT
  else if discrete_dx <? 0 then Some CLUTTER_SCROLL_LEFT
  else if discrete_dy >? 0 then Some CLUTTER_SCROLL_DOWN
  else if discrete_dy <? 0 then Some CLUTTER_SCROLL_UP
  else None.

(** [meta_seat_native_notify_discrete_scroll]. The numbers of clicks are
    in the unit of the scroll amounts; their product with
    DISCRETE_SCROLL_STEP, 10.0, is taken to be exact. The arguments of the
    second call are evaluated after the first call has returned. *)
Definition meta_seat_native_notify_discrete_scroll (seat : MetaSeatNative)
    (input_device : ClutterInputDevice) (time_us : Z)
    (discrete_dx discrete_dy : Z) (scroll_source : Z) : option MetaSeatNative :=
  let seat1 :=
    notify_scroll seat input_device time_us
      (discrete_dx * 10) (discrete_dy * 10)
      scroll_source CLUTTER_SCROLL_FINISHED_NONE true in
  direction ← discrete_to_direction discrete_dx discrete_dy;
  Some (notify_discrete_scroll seat1 input_device time_us direction
          scroll_source false).

(** *** Keys and their repetition *)

Definition AUTOREPEAT_VALUE : Z := 2.
Definition XKB_STATE_LEDS : Z := Z.shiftl 1 8.

(** A key event pushed on the Clutter queue; [key_time] is in
    milliseconds. *)
Record ClutterKeyEvent := key_event {
  key_time : Z;
  key_stage : nat;
  key_code : Z;
  key_state : Z;
  key_modifier_state : Z;
  key_repeated : bool;
  key_source_device : nat
}.

(** What follows a change of the LEDs. *)
Inductive key_effect :=
| keymap_state_changed
| meta_seat_native_sync_leds
| a11y_maybe_notify_toggle_keys.

Section Keys.

(** The xkb state of the seat, with the two functions of xkbcommon the
    seat calls on it; the hardware keycode they are given is the one
    [meta_key_event_new_from_evdev] derives from the key. *)
Variable xkb_state : Type.
Variable xkb_state_update_key : xkb_state -> Z -> bool -> xkb_state * Z.
Variable xkb_keymap_key_repeats : xkb_state -> Z -> bool.

(** [us2ms], the conversion of a time in microseconds to milliseconds that
    the seat includes. *)
Variable us2ms : Z -> Z.

(** The fields of [MetaSeatNative] that key reports read and write, around
    the ones above. [repeat_timer] is the interval of the timeout source
    when there is one, and [None] for the handle 0; [key_events] are the
    key events pushed on the queue, in order. [repeat_count], declared in
    meta-seat-native.h, is incremented as a uint32. *)
Record MetaSeatNativeKeys := SeatKeys {
  keys_seat : MetaSeatNative;
  xkb : xkb_state;
  repeat : bool;
  repeat_delay : Z;
  repeat_interval : Z;
  repeat_count : Z;
  repeat_key : Z;
  repeat_timer : option Z;
  repeat_device : option ClutterInputDevice;
  key_events : list ClutterKeyEvent;
  key_effects : list key_effect
}.

Definition set_keys_seat (s : MetaSeatNative) (k : MetaSeatNativeKeys)
  : MetaSeatNativeKeys :=
  SeatKeys s (xkb k) (repeat k) (repeat_delay k) (repeat_interval k)
           (repeat_count k) (repeat_key k) (repeat_timer k) (repeat_device k)
           (key_events k) (key_effects k).

Definition set_xkb (x : xkb_state) (k : MetaSeatNativeKeys) : MetaSeatNativeKeys :=
  SeatKeys (keys_seat k) x (repeat k) (repeat_delay k) (repeat_interval k)
           (repeat_count k) (repeat_key k) (repeat_timer k) (repeat_device k)
           (key_events k) (key_effects k).

Definition queue_key_event (e : ClutterKeyEvent) (k : MetaSeatNativeKeys)
  : MetaSeatNativeKeys :=
  SeatKeys (keys_seat k) (xkb k) (repeat k) (repeat_delay k) (repeat_interval k)
           (repeat_count k) (repeat_key k) (repeat_timer k) (repeat_device k)
           (key_events k ++ [e]) (key_effects k).

Definition add_key_effects (l : list key_effect) (k : MetaSeatNativeKeys)
  : MetaSeatNativeKeys :=
  SeatKeys (keys_seat k) (xkb k) (repeat k) (repeat_delay k) (repeat_interval k)
           (repeat_count k) (repeat_key k) (repeat_timer k) (repeat_device k)
           (key_events k) (key_effects k ++ l).

Definition set_repeat_count_key (count key : Z) (k : MetaSeatNativeKeys)
  : MetaSeatNativeKeys :=
  SeatKeys (keys_seat k) (xkb k) (repeat k) (repeat_delay k) (repeat_interval k)
           count key (repeat_timer k) (repeat_device k)
           (key_events k) (key_effects k).

Definition set_repeat_timer (timer : option Z) (device : option ClutterInputDevice)
    (k : MetaSeatNativeKeys) : MetaSeatNativeKeys :=
  SeatKeys (keys_seat k) (xkb k) (repeat k) (repeat_delay k) (repeat_interval k)
           (repeat_count k) (repeat_key k) timer device
           (key_events k) (key_effects k).

Definition meta_seat_native_clear_repeat_timer (k : MetaSeatNativeKeys)
  : MetaSeatNativeKeys :=
  match repeat_timer k with
  | Some _ => set_repeat_timer None None k
  | None => k
  end.

Definition meta_seat_native_notify_key (k : MetaSeatNativeKeys)
    (device : ClutterInputDevice) (time_us : Z) (key : Z) (state : Z)
    (update_keys : bool) : MetaSeatNativeKeys :=
  let '(held_back, seat1) :=
    if negb (state =? AUTOREPEAT_VALUE) then
      let '(count, seat1) := update_button_count (keys_seat k) key state in
      ((negb (state =? 0) && (count >? 1)) || ((state =? 0) && negb (count =? 0)),
       seat1)
    else (false, keys_seat k) in
  let k1 := set_keys_seat seat1 k in
  if held_back then k1
  else
    match device_stage device with
    | None => meta_seat_native_clear_repeat_timer k1
    | Some stage =>
        let '(xkb1, changed_state, repeated) :=
          if negb (state =? AUTOREPEAT_VALUE) then
            let '(x, c) := xkb_state_update_key (xkb k1) key (negb (state =? 0)) in
            (x, c, false)
          else (xkb k1, 0, true) in
        let event :=
          key_event (us2ms time_us) stage key state (button_state seat1) repeated
                    (device_id device) in
        let k2 := queue_key_event event (set_xkb xkb1 k1) in
        let k3 :=
          if update_keys && negb (Z.land changed_state XKB_STATE_LEDS =? 0)
          then add_key_effects [keymap_state_changed; meta_seat_native_sync_leds;
                                a11y_maybe_notify_toggle_keys] k2
          else k2 in
        if (state =? 0) || negb (repeat k3)
           || negb (xkb_keymap_key_repeats (xkb k3) key)
        then meta_seat_native_clear_repeat_timer k3
        else
          let count0 := if state =? 1 then 0 else repeat_count k3 in
          let count := (count0 + 1) mod 2^32 in
          let k4 := set_repeat_count_key count key k3 in
          if (count =? 1) || (count =? 2) then
            let k5 := meta_seat_native_clear_repeat_timer k4 in
            let interval :=
              if count =? 1 then repeat_delay k5 else repeat_interval k5 in
            set_repeat_timer (Some interval) (Some device) k5
          else k4
    end.

(** [keyboard_repeat], the callback of the timer, from the state that
    [meta_device_manager_native_dispatch] leaves; [time_us] is the time of
    the source. The boolean is G_SOURCE_CONTINUE. *)
Definition keyboard_repeat (k : MetaSeatNativeKeys) (time_us : Z)
  : bool * MetaSeatNativeKeys :=
  match repeat_timer k with
  | None => (false, k)
  | Some _ =>
      match repeat_device k with
      | None => (false, k)
      | Some device =>
          (true,
           meta_seat_native_notify_key k device time_us (repeat_key k)
             AUTOREPEAT_VALUE false)
      end
  end.

(** The timer firing at each time of a list. *)
Definition keyboard_repeats (times : list Z) (k : MetaSeatNativeKeys)
  : MetaSeatNativeKeys :=
  fold_left (fun k t => snd (keyboard_repeat k t)) times k.

End Keys.

Arguments SeatKeys {xkb_state}.
Arguments keys_seat {xkb_state}.
Arguments xkb {xkb_state}.
Arguments repeat {xkb_state}.
Arguments repeat_delay {xkb_state}.
Arguments repeat_interval {xkb_state}.
Arguments repeat_count {xkb_state}.
Arguments repeat_key {xkb_state}.
Arguments repeat_timer {xkb_state}.
Arguments repeat_device {xkb_state}.
Arguments key_events {xkb_state}.
Arguments key_effects {xkb_state}.

End SeatNative.

(** * Properties *)

(** ** Commit and pending state *)
Module SurfaceFacts.
Import Surface.

Local Open Scope Z_scope.

Lemma rect_intersect_zero_empty (r : cairo_rectangle_int_t) :
  rect_is_empty (rect_intersect r (Rect 0 0 0 0)) = true.
Proof.
  unfold rect_is_empty, rect_intersect; simpl.
  apply orb_true_iff; left. apply Z.leb_le. lia.
Qed.

Lemma empty_region_nil (region : cairo_region_t) : empty_region region = [].
Proof.
  unfold empty_region, cairo_region_intersect_rectangle.
  induction region as [|r region IH]; simpl; [reflexivity|].
  rewrite rect_intersect_zero_empty; simpl. exact IH.
Qed.

Lemma dispatch_app (rs1 rs2 : list request) (c : MetaWaylandCompositor) :
  dispatch (rs1 ++ rs2) c = dispatch rs2 (dispatch rs1 c).
Proof. unfold dispatch. apply fold_left_app. Qed.

(** What a commit leaves in the pending state of the surface it is sent
    to: everything is reset except that the frame callbacks move to the
    compositor. *)
Lemma commit_pending (c : MetaWaylandCompositor) (id : nat) (s0 : MetaWaylandSurface) :
  surfaces c !! id = Some s0 ->
  exists s, surfaces (meta_wayland_surface_commit id c) !! id = Some s
    /\ pending s = DoubleBufferedState false None 0 0 [] None None [].
Proof.
  intros Hs. unfold meta_wayland_surface_commit, wl_resource_get_user_data.
  rewrite Hs.
  destruct (if bool_decide (sprite c = Some id) then _ else _) as [s1 es] eqn:E.
  simpl. rewrite lookup_insert_eq. eexists; split; [reflexivity|].
  simpl. now rewrite empty_region_nil.
Qed.

(** Requests that write the pending regions of surface [id]. *)
Definition writes_regions (id : nat) (r : request) : bool :=
  match r with
  | SetOpaqueRegion id' _ | SetInputRegion id' _ | Commit id' => bool_decide (id' = id)
  | _ => false
  end.

Lemma handle_keeps_regions (r : request) (c : MetaWaylandCompositor) (id : nat)
    (s : MetaWaylandSurface) :
  writes_regions id r = false ->
  surfaces c !! id = Some s ->
  exists s', surfaces (handle r c) !! id = Some s'
    /\ opaque_region (pending s') = opaque_region (pending s)
    /\ input_region (pending s') = input_region (pending s).
Proof.
  intros Hw Hs.
  destruct r as [id' b dx' dy'|id' x y w h|id' cb|id' r|id' r|id'|b]; simpl in *;
    try (apply bool_decide_eq_false in Hw).
  - unfold meta_wayland_surface_attach, wl_resource_get_user_data.
    destruct (surfaces c !! id') as [s0|] eqn:E; [|eauto].
    destruct (decide (id' = id)) as [->|Hne].
    + simpl. rewrite lookup_insert_eq. rewrite Hs in E. inversion E; subst. eauto.
    + simpl. rewrite lookup_insert_ne by done. eauto.
  - unfold meta_wayland_surface_damage, wl_resource_get_user_data.
    destruct (surfaces c !! id') as [s0|] eqn:E; [|eauto].
    destruct (decide (id' = id)) as [->|Hne].
    + simpl. rewrite lookup_insert_eq. rewrite Hs in E. inversion E; subst. eauto.
    + simpl. rewrite lookup_insert_ne by done. eauto.
  - unfold meta_wayland_surface_frame, wl_resource_get_user_data.
    destruct (surfaces c !! id') as [s0|] eqn:E; [|eauto].
    destruct (decide (id' = id)) as [->|Hne].
    + simpl. rewrite lookup_insert_eq. rewrite Hs in E. inversion E; subst. eauto.
    + simpl. rewrite lookup_insert_ne by done. eauto.
  - unfold meta_wayland_surface_set_opaque_region, wl_resource_get_user_data.
    destruct (surfaces c !! id') as [s0|] eqn:E; [|eauto].
    simpl. rewrite lookup_insert_ne by done. eauto.
  - unfold meta_wayland_surface_set_input_region, wl_resource_get_user_data.
    destruct (surfaces c !! id') as [s0|] eqn:E; [|eauto].
    simpl. rewrite lookup_insert_ne by done. eauto.
  - unfold meta_wayland_surface_commit, wl_resource_get_user_data.
    destruct (surfaces c !! id') as [s0|] eqn:E; [|eauto].
    destruct (if bool_decide (sprite c = Some id') then _ else _) as [s1 es].
    simpl. rewrite lookup_insert_ne by done. eauto.
  - unfold surface_handle_pending_buffer_destroy; simpl.
    rewrite lookup_fmap, Hs; simpl.
    eexists; split; [reflexivity|].
    destruct (decide (buffer (pending s) = Some b)); simpl; auto.
Qed.

(** A compositor with one surface, of client 7, and a 64x64 buffer. *)
Definition one_surface : MetaWaylandCompositor :=
  meta_wayland_surface_create 7%nat 1%nat (Compositor ∅ None [] []).

Definition buffer_A : MetaWaylandBuffer := Buffer 3 64 64.

(** C1. For every sequence of requests (attach, damage and the others)
    followed by a commit on a surface, right after the commit the pending
    damage region of the surface is empty, its pending buffer-attach flag
    is false, its pending buffer is cleared and its pending attach offset
    is (0, 0). *)
Theorem commit_resets_attach_and_damage (c : MetaWaylandCompositor)
    (rs : list request) (id : nat) :
  is_Some (surfaces (dispatch rs c) !! id) ->
  exists s, surfaces (dispatch (rs ++ [Commit id]) c) !! id = Some s
    /\ cairo_region_is_empty (damage (pending s)) = true
    /\ (forall px py, cairo_region_contains_point (damage (pending s)) px py = false)
    /\ newly_attached (pending s) = false
    /\ buffer (pending s) = None
    /\ dx (pending s) = 0
    /\ dy (pending s) = 0.
Proof.
  intros [s0 Hs0]. rewrite dispatch_app. simpl.
  destruct (commit_pending _ _ _ Hs0) as (s & Hs & Hp).
  exists s. rewrite Hp. simpl. repeat split; auto.
Qed.

Lemma commit_resets_attach_and_damage_witness :
  exists s,
    surfaces (dispatch ([Attach 1 (Some buffer_A) 2 3; Damage 1 0 0 64 64]
                          ++ [Commit 1%nat]) one_surface) !! 1%nat = Some s
    /\ cairo_region_is_empty (damage (pending s)) = true
    /\ (forall px py, cairo_region_contains_point (damage (pending s)) px py = false)
    /\ newly_attached (pending s) = false
    /\ buffer (pending s) = None
    /\ dx (pending s) = 0
    /\ dy (pending s) = 0.
Proof.
  apply (commit_resets_attach_and_damage one_surface
           [Attach 1 (Some buffer_A) 2 3; Damage 1 0 0 64 64] 1%nat).
  vm_compute. eexists. reflexivity.
Defined.

(** The pending state the two requests of the witness build, before the
    commit. *)
Example attach_damage_pending :
  pending <$> surfaces (dispatch [Attach 1 (Some buffer_A) 2 3; Damage 1 0 0 64 64]
                          one_surface) !! 1%nat
  = Some (DoubleBufferedState true (Some buffer_A) 2 3 [Rect 0 0 64 64] None None []).
Proof. vm_compute. reflexivity. Qed.

(** C2, as stated, fails: a commit clears the pending opaque region and
    the pending input region that [set_opaque_region] and
    [set_input_region] stored before it. *)
Lemma commit_keeps_regions_counterexample :
  let r := [Rect 0 0 10 10] in
  let before := dispatch [SetOpaqueRegion 1 (Some r); SetInputRegion 1 (Some r)]
                  one_surface in
  let after := dispatch [Commit 1%nat] before in
  (opaque_region ∘ pending <$> surfaces before !! 1%nat) = Some (Some r)
  /\ (input_region ∘ pending <$> surfaces before !! 1%nat) = Some (Some r)
  /\ (opaque_region ∘ pending <$> surfaces after !! 1%nat) = Some None
  /\ (input_region ∘ pending <$> surfaces after !! 1%nat) = Some None.
Proof. vm_compute. repeat split; reflexivity. Qed.

(** C2, amended. A commit resets the pending opaque region and the pending
    input region to absent, as it resets damage and the attach state. A
    pending region stays as it is under every request other than a commit
    or a region request on the same surface. *)
Theorem commit_resets_regions (c : MetaWaylandCompositor) (id : nat)
    (s0 : MetaWaylandSurface) :
  surfaces c !! id = Some s0 ->
  (exists s, surfaces (meta_wayland_surface_commit id c) !! id = Some s
     /\ opaque_region (pending s) = None
     /\ input_region (pending s) = None)
  /\ (forall r, writes_regions id r = false ->
        exists s, surfaces (handle r c) !! id = Some s
          /\ opaque_region (pending s) = opaque_region (pending s0)
          /\ input_region (pending s) = input_region (pending s0)).
Proof.
  intros Hs. split.
  - destruct (commit_pending _ _ _ Hs) as (s & Hl & Hp).
    exists s. rewrite Hp. auto.
  - intros r Hr. exact (handle_keeps_regions r c id s0 Hr Hs).
Qed.

Lemma commit_resets_regions_witness :
  let c := dispatch [SetOpaqueRegion 1 (Some [Rect 0 0 10 10])] one_surface in
  exists s0, surfaces c !! 1%nat = Some s0
  /\ (exists s, surfaces (meta_wayland_surface_commit 1 c) !! 1%nat = Some s
        /\ opaque_region (pending s) = None
        /\ input_region (pending s) = None)
  /\ (forall r, writes_regions 1 r = false ->
        exists s, surfaces (handle r c) !! 1%nat = Some s
          /\ opaque_region (pending s) = opaque_region (pending s0)
          /\ input_region (pending s) = input_region (pending s0)).
Proof.
  intros c.
  destruct (surfaces c !! 1%nat) as [s0|] eqn:E; [|vm_compute in E; discriminate].
  exists s0. split; [reflexivity|].
  exact (commit_resets_regions c 1%nat s0 E).
Defined.

(** *** Roles *)

(** A window manager that makes a Wayland window of no size for a
    surface. *)
Definition new_window (surface : nat) : MetaWindow :=
  Window surface META_WINDOW_CLIENT_TYPE_WAYLAND 0 0.

(** Two surfaces of client 7; surface 2 is a toplevel. *)
Definition two_surfaces : option MetaWaylandCompositor :=
  get_xdg_surface new_window 20 2
    (meta_wayland_surface_create 7%nat 2%nat one_surface).

(** C3, as stated, fails: a surface that is a toplevel (its xdg_surface
    is bound) is given the subsurface role, and likewise the popup role,
    by a later request; no error is posted and the surface then has both
    extensions bound. *)
Lemma second_role_counterexample :
  exists c0 c1 c2 c3 s1 s2 s3,
    two_surfaces = Some c0
    /\ get_xdg_surface new_window 10 1 c0 = Some c1
    /\ surfaces c1 !! 1%nat = Some s1 /\ has_role s1 = true
    /\ wl_subcompositor_get_subsurface 11 1 2 c1 = Some c2
    /\ List.filter is_post_error (log c2) = []
    /\ surfaces c2 !! 1%nat = Some s2
    /\ is_bound (xdg_surface s2) = true /\ is_bound (subsurface s2) = true
    /\ get_xdg_popup new_window 12 1 2 5 5 c1 = Some c3
    /\ List.filter is_post_error (log c3) = []
    /\ surfaces c3 !! 1%nat = Some s3
    /\ is_bound (xdg_surface s3) = true /\ is_bound (xdg_popup s3) = true.
Proof.
  destruct two_surfaces as [c0|] eqn:E0; [|vm_compute in E0; discriminate].
  destruct (get_xdg_surface new_window 10 1 c0) as [c1|] eqn:E1;
    [|vm_compute in E0; inversion E0; subst; vm_compute in E1; discriminate].
  destruct (wl_subcompositor_get_subsurface 11 1 2 c1) as [c2|] eqn:E2;
    [|vm_compute in E0; inversion E0; subst; vm_compute in E1; inversion E1; subst;
      vm_compute in E2; discriminate].
  destruct (get_xdg_popup new_window 12 1 2 5 5 c1) as [c3|] eqn:E3;
    [|vm_compute in E0; inversion E0; subst; vm_compute in E1; inversion E1; subst;
      vm_compute in E3; discriminate].
  vm_compute in E0; inversion E0; subst.
  vm_compute in E1; inversion E1; subst.
  vm_compute in E2; inversion E2; subst.
  vm_compute in E3; inversion E3; subst.
  do 7 eexists. vm_compute. repeat split; reflexivity.
Qed.

(** Whether the parent named by a popup request has a window. *)
Definition parent_has_window (c : MetaWaylandCompositor) (r : role_assignment) : bool :=
  match r with
  | AssignPopup _ parent _ _ =>
      match surfaces c !! parent with
      | Some p => match window p with Some _ => true | None => false end
      | None => false
      end
  | _ => true
  end.

(** C3, amended. A role request of a kind whose extension the surface
    already has bound is rejected: it returns normally, leaves every
    surface as it is, and posts WL_DISPLAY_ERROR_INVALID_OBJECT on the
    resource of the surface; a popup request whose parent has no window is
    dropped before that, without an error. *)
Theorem role_of_one_kind_assigned_once (window_new : nat -> MetaWindow)
    (c : MetaWaylandCompositor) (surface_resource : nat)
    (s : MetaWaylandSurface) (r : role_assignment) :
  surfaces c !! surface_resource = Some s ->
  is_bound (role_extension (role_kind r) s) = true ->
  exists c', assign_role window_new r surface_resource c = Some c'
    /\ surfaces c' = surfaces c
    /\ sprite c' = sprite c
    /\ frame_callbacks c' = frame_callbacks c
    /\ log c' = log c ++
         (if parent_has_window c r
          then [wl_resource_post_error (resource s) WL_DISPLAY_ERROR_INVALID_OBJECT
                  (role_kind r)]
          else []).
Proof.
  intros Hs Hb. unfold is_bound in Hb.
  destruct r as [id|id parent x y|id parent]; simpl in *.
  - unfold get_xdg_surface, wl_resource_get_user_data, create_surface_extension.
    rewrite Hs. destruct (ext_resource (xdg_surface s)); [|discriminate].
    eexists; repeat split; reflexivity.
  - unfold get_xdg_popup, wl_resource_get_user_data, create_surface_extension.
    destruct (surfaces c !! parent) as [p|].
    + destruct (window p).
      * rewrite Hs. destruct (ext_resource (xdg_popup s)); [|discriminate].
        eexists; repeat split; reflexivity.
      * exists c. rewrite app_nil_r. repeat split; reflexivity.
    + exists c. rewrite app_nil_r. repeat split; reflexivity.
  - unfold wl_subcompositor_get_subsurface, wl_resource_get_user_data,
      create_surface_extension.
    rewrite Hs. destruct (ext_resource (subsurface s)); [|discriminate].
    eexists; repeat split; reflexivity.
Qed.

(** The toplevel of the example: surface 1 after its first
    [get_xdg_surface]. *)
Definition toplevel_1 : MetaWaylandSurface :=
  MkSurface (WlResource 1 7%nat) (Some (new_window 1))
    (SurfaceExtension (Some 10%nat)) (SurfaceExtension None)
    (SurfaceExtension None) (SurfaceExtension None) None
    (DoubleBufferedState false None 0 0 [] None None []).

Definition toplevel_compositor : MetaWaylandCompositor :=
  Compositor {[ 1%nat := toplevel_1 ]} None [] [].

Example toplevel_compositor_reached :
  get_xdg_surface new_window 10 1 one_surface = Some toplevel_compositor.
Proof. vm_compute. reflexivity. Qed.

Lemma role_of_one_kind_assigned_once_witness :
  exists c', assign_role new_window (AssignToplevel 30) 1 toplevel_compositor = Some c'
    /\ surfaces c' = surfaces toplevel_compositor
    /\ sprite c' = sprite toplevel_compositor
    /\ frame_callbacks c' = frame_callbacks toplevel_compositor
    /\ log c' = log toplevel_compositor ++
         (if parent_has_window toplevel_compositor (AssignToplevel 30)
          then [wl_resource_post_error (resource toplevel_1)
                  WL_DISPLAY_ERROR_INVALID_OBJECT (role_kind (AssignToplevel 30))]
          else []).
Proof.
  apply (role_of_one_kind_assigned_once new_window toplevel_compositor 1%nat
           toplevel_1 (AssignToplevel 30)).
  - vm_compute. reflexivity.
  - reflexivity.
Defined.


(** ** Further properties of the surface requests *)

(** X1. Of two attach requests with no commit between them the second one
    wins and the first leaves no trace, whatever the buffers and offsets. *)
Theorem attach_twice_keeps_last (c : MetaWaylandCompositor) (id : nat)
    (b1 b2 : option MetaWaylandBuffer) (dx1 dy1 dx2 dy2 : Z) :
  meta_wayland_surface_attach id b2 dx2 dy2
    (meta_wayland_surface_attach id b1 dx1 dy1 c)
  = meta_wayland_surface_attach id b2 dx2 dy2 c.
Proof.
  unfold meta_wayland_surface_attach, wl_resource_get_user_data.
  destruct (surfaces c !! id) as [s|] eqn:E.
  - unfold set_surface; simpl. rewrite lookup_insert_eq. simpl.
    rewrite insert_insert_eq. reflexivity.
  - rewrite E. reflexivity.
Qed.

(** Requests that leave the bound buffer, the roles and the log alone. *)
Definition is_state_request (r : request) : bool :=
  match r with
  | Commit _ => false
  | _ => true
  end.

Lemma state_request_frame (r : request) (c : MetaWaylandCompositor) (id : nat)
    (s : MetaWaylandSurface) :
  is_state_request r = true ->
  surfaces c !! id = Some s ->
  log (handle r c) = log c
  /\ sprite (handle r c) = sprite c
  /\ frame_callbacks (handle r c) = frame_callbacks c
  /\ exists s', surfaces (handle r c) !! id = Some s'
       /\ window s' = window s /\ subsurface s' = subsurface s
       /\ xdg_surface s' = xdg_surface s /\ xdg_popup s' = xdg_popup s
       /\ buffer_ref s' = buffer_ref s /\ resource s' = resource s.
Proof.
  intros Hr Hs.
  destruct r as [id' b dx' dy'|id' x y w h|id' cb|id' r|id' r|id'|b];
    try discriminate; cbn [handle];
    try (match goal with
         | |- context [?f id' _ _ _ c] => unfold f
         | |- context [?f id' _ _ _ _ c] => unfold f
         | |- context [?f id' _ c] => unfold f
         end;
         unfold wl_resource_get_user_data;
         destruct (surfaces c !! id') as [s0|] eqn:E; [|repeat split; eauto 10];
         cbn [set_surface log sprite frame_callbacks surfaces];
         repeat split;
         destruct (decide (id' = id)) as [->|Hne];
         [rewrite lookup_insert_eq; rewrite Hs in E; inversion E; subst;
          eexists; split; [reflexivity|]; repeat split
         |rewrite lookup_insert_ne by done; eauto 10]).
  unfold surface_handle_pending_buffer_destroy.
  cbn [log sprite frame_callbacks surfaces]. repeat split.
  rewrite lookup_fmap, Hs. cbn.
  eexists; split; [reflexivity|].
  destruct (decide (buffer (pending s) = Some b)); repeat split.
Qed.

Definition has_no_role (c : MetaWaylandCompositor) (id : nat)
    (s : MetaWaylandSurface) : Prop :=
  sprite c <> Some id /\ window s = None /\ ext_resource (subsurface s) = None.

(** X2. What is attached to and damaged on a surface that has no role
    (not the cursor sprite, no window, no subsurface) is lost at the
    commit: whatever state requests precede it, the commit calls the
    renderer with [meta_surface_actor_commit] only, and the buffer bound to
    the surface stays what it was. *)
Theorem commit_without_role_discards (c : MetaWaylandCompositor) (id : nat)
    (s : MetaWaylandSurface) (rs : list request) :
  surfaces c !! id = Some s ->
  has_no_role c id s ->
  forallb is_state_request rs = true ->
  log (dispatch (rs ++ [Commit id]) c) = log c ++ [meta_surface_actor_commit id]
  /\ exists s', surfaces (dispatch (rs ++ [Commit id]) c) !! id = Some s'
       /\ buffer_ref s' = buffer_ref s.
Proof.
  intros Hs Hrole Hrs. rewrite dispatch_app.
  assert (Hpre : log (dispatch rs c) = log c
                 /\ sprite (dispatch rs c) = sprite c
                 /\ exists s1, surfaces (dispatch rs c) !! id = Some s1
                      /\ window s1 = window s /\ subsurface s1 = subsurface s
                      /\ buffer_ref s1 = buffer_ref s).
  { clear Hrole. revert c s Hs.
    induction rs as [|r rs IH]; intros c s Hs; cbn.
    - eauto 10.
    - cbn in Hrs. apply andb_true_iff in Hrs. destruct Hrs as [Hr Hrs].
      destruct (state_request_frame r c id s Hr Hs)
        as (L & S & _ & s1 & H1 & W & Sub & _ & _ & B & _).
      destruct (IH Hrs (handle r c) s1 H1) as (L' & S' & s2 & H2 & W' & Sub' & B').
      fold (dispatch rs (handle r c)).
      repeat split; try congruence. exists s2. repeat split; congruence. }
  destruct Hpre as (L & S & s1 & H1 & W & Sub & B).
  destruct Hrole as (Hsp & Hw & Hsub).
  cbn [dispatch fold_left handle].
  unfold meta_wayland_surface_commit, wl_resource_get_user_data.
  rewrite H1, S, bool_decide_eq_false_2 by exact Hsp.
  rewrite W, Hw, Sub, Hsub. cbn.
  rewrite L, lookup_insert_eq. split; [reflexivity|].
  eexists; split; [reflexivity|]. exact B.
Qed.

Lemma commit_without_role_discards_witness :
  log (dispatch ([Attach 1 (Some buffer_A) 0 0; Damage 1 0 0 64 64] ++ [Commit 1%nat])
         one_surface)
    = log one_surface ++ [meta_surface_actor_commit 1]
  /\ exists s', surfaces (dispatch ([Attach 1 (Some buffer_A) 0 0; Damage 1 0 0 64 64]
                                      ++ [Commit 1%nat]) one_surface) !! 1%nat = Some s'
       /\ buffer_ref s' = None.
Proof.
  apply (commit_without_role_discards one_surface 1%nat
           (MkSurface (WlResource 1 7%nat) None (SurfaceExtension None)
              (SurfaceExtension None) (SurfaceExtension None) (SurfaceExtension None)
              None (DoubleBufferedState false None 0 0 [] None None []))
           [Attach 1 (Some buffer_A) 0 0; Damage 1 0 0 64 64]).
  - vm_compute. reflexivity.
  - repeat split. discriminate.
  - reflexivity.
Defined.

(** A commit reads and writes the entry of its surface only. *)
Lemma commit_local (c1 c2 : MetaWaylandCompositor) (id : nat) :
  surfaces c1 !! id = surfaces c2 !! id ->
  log c1 = log c2 ->
  frame_callbacks c1 = frame_callbacks c2 ->
  sprite c1 = sprite c2 ->
  surfaces (meta_wayland_surface_commit id c1) !! id
    = surfaces (meta_wayland_surface_commit id c2) !! id
  /\ log (meta_wayland_surface_commit id c1) = log (meta_wayland_surface_commit id c2)
  /\ frame_callbacks (meta_wayland_surface_commit id c1)
     = frame_callbacks (meta_wayland_surface_commit id c2)
  /\ sprite (meta_wayland_surface_commit id c1)
     = sprite (meta_wayland_surface_commit id c2).
Proof.
  intros Hs Hl Hf Hp.
  unfold meta_wayland_surface_commit, wl_resource_get_user_data.
  rewrite Hs, Hp.
  destruct (surfaces c2 !! id) as [s|] eqn:E; [|rewrite Hs, E; auto].
  destruct (if bool_decide (sprite c2 = Some id) then _ else _) as [s1 es].
  cbn. rewrite !lookup_insert_eq, Hl, Hf. auto.
Qed.

(** X3. A pending buffer that is destroyed before the commit is committed
    as a detach: attach b, destruction of b, commit leave the surface, the
    log and the waiting frame callbacks as attach NULL, commit do. *)
Theorem destroyed_pending_buffer_commits_as_detach (c : MetaWaylandCompositor)
    (id : nat) (s : MetaWaylandSurface) (b : MetaWaylandBuffer) (dx' dy' : Z) :
  surfaces c !! id = Some s ->
  let c1 := dispatch [Attach id (Some b) dx' dy'; BufferDestroy b; Commit id] c in
  let c2 := dispatch [Attach id None dx' dy'; Commit id] c in
  surfaces c1 !! id = surfaces c2 !! id
  /\ log c1 = log c2
  /\ frame_callbacks c1 = frame_callbacks c2
  /\ sprite c1 = sprite c2.
Proof.
  intros Hs c1 c2. subst c1 c2. cbn [dispatch fold_left handle].
  apply commit_local.
  - unfold meta_wayland_surface_attach, wl_resource_get_user_data. rewrite Hs.
    unfold surface_handle_pending_buffer_destroy.
    cbn [surfaces set_surface]. rewrite lookup_fmap, !lookup_insert_eq.
    cbn. rewrite decide_True by reflexivity. reflexivity.
  - unfold meta_wayland_surface_attach, wl_resource_get_user_data. rewrite Hs.
    reflexivity.
  - unfold meta_wayland_surface_attach, wl_resource_get_user_data. rewrite Hs.
    reflexivity.
  - unfold meta_wayland_surface_attach, wl_resource_get_user_data. rewrite Hs.
    reflexivity.
Qed.

Lemma destroyed_pending_buffer_commits_as_detach_witness :
  let c1 := dispatch [Attach 1 (Some buffer_A) 0 0; BufferDestroy buffer_A; Commit 1%nat]
              toplevel_compositor in
  let c2 := dispatch [Attach 1 None 0 0; Commit 1%nat] toplevel_compositor in
  surfaces c1 !! 1%nat = surfaces c2 !! 1%nat
  /\ log c1 = log c2
  /\ frame_callbacks c1 = frame_callbacks c2
  /\ sprite c1 = sprite c2.
Proof.
  apply (destroyed_pending_buffer_commits_as_detach toplevel_compositor 1%nat
           toplevel_1 buffer_A 0 0).
  vm_compute. reflexivity.
Defined.

Definition is_move_resize (e : effect) : bool :=
  match e with meta_window_move_resize_wayland _ _ _ _ _ => true | _ => false end.

Definition is_damage_area (e : effect) : bool :=
  match e with meta_surface_actor_damage_area _ _ => true | _ => false end.

(** When the commit of a toplevel asks the window manager for a move or
    resize: a buffer was attached since the last commit, it is not NULL and
    not the bound one, the window is a Wayland window, and the size of the
    buffer differs from that of the window or the attach offset is not
    (0, 0). *)
Definition resize_due (s : MetaWaylandSurface) (w : MetaWindow) : bool :=
  newly_attached (pending s)
  && match buffer (pending s) with
     | Some b =>
         bool_decide (Some b ≠ buffer_ref s)
         && bool_decide (client_type w = META_WINDOW_CLIENT_TYPE_WAYLAND)
         && (negb (buffer_width b =? window_rect_width w)
             || negb (buffer_height b =? window_rect_height w)
             || negb (dx (pending s) =? 0)
             || negb (dy (pending s) =? 0))
     | None => false
     end.

Lemma process_damage_calls (id : nat) (region : cairo_region_t) :
  existsb is_move_resize (surface_process_damage id region) = false
  /\ List.filter is_damage_area (surface_process_damage id region)
     = surface_process_damage id region.
Proof.
  unfold surface_process_damage.
  induction region as [|r region [IH1 IH2]]; cbn; [auto|].
  rewrite IH1, IH2. auto.
Qed.

Lemma actor_surface_commit_calls (id : nat) (s : MetaWaylandSurface) :
  let '(s', es, changed) := actor_surface_commit id s in
  existsb is_move_resize es = false
  /\ List.filter is_damage_area es = surface_process_damage id (damage (pending s))
  /\ pending s' = pending s
  /\ changed = newly_attached (pending s)
               && bool_decide (buffer (pending s) ≠ buffer_ref s)
  /\ (changed = true -> buffer_ref s' = buffer (pending s)).
Proof.
  unfold actor_surface_commit.
  destruct (process_damage_calls id (damage (pending s))) as [D1 D2].
  destruct (newly_attached (pending s) && bool_decide (buffer (pending s) ≠ buffer_ref s));
    cbn [fst snd];
    rewrite !existsb_app, !List.filter_app, D1, D2;
    destruct (buffer (pending s)); destruct (opaque_region (pending s));
    destruct (input_region (pending s)); cbn; rewrite ?app_nil_r;
    repeat split; try discriminate.
Qed.

(** X4. The commit of a surface with a window forwards the pending
    damage to the renderer one rectangle at a time, in order, and asks the
    window manager for a move or resize exactly when [resize_due] holds: a
    buffer was attached since the last commit, it is not NULL and not the
    buffer already bound, the window is a Wayland window (not an X11 one),
    and the size of the buffer differs from that of the window or the
    attach offset is not (0, 0). *)
Theorem toplevel_commit_damage_and_resize (c : MetaWaylandCompositor) (id : nat)
    (s : MetaWaylandSurface) (w : MetaWindow) :
  surfaces c !! id = Some s ->
  sprite c <> Some id ->
  window s = Some w ->
  exists es,
    log (meta_wayland_surface_commit id c) = log c ++ es
    /\ List.filter is_damage_area es
       = List.map (meta_surface_actor_damage_area id) (damage (pending s))
    /\ existsb is_move_resize es = resize_due s w.
Proof.
  intros Hs Hsp Hw.
  unfold meta_wayland_surface_commit, wl_resource_get_user_data.
  rewrite Hs, bool_decide_eq_false_2 by exact Hsp. rewrite Hw.
  unfold toplevel_surface_commit.
  pose proof (actor_surface_commit_calls id s) as H.
  destruct (actor_surface_commit id s) as [[s' es] changed].
  destruct H as (M & D & P & C & B).
  unfold resize_due. rewrite P.
  destruct changed.
  - specialize (B eq_refl). rewrite B.
    symmetry in C. apply andb_true_iff in C. destruct C as [Cn Cb].
    rewrite Cn. apply bool_decide_eq_true in Cb.
    destruct (buffer (pending s)) as [b|] eqn:Eb.
    + rewrite (bool_decide_eq_true_2 _ Cb).
      destruct (bool_decide (client_type w = META_WINDOW_CLIENT_TYPE_WAYLAND));
        [destruct (negb (buffer_width b =? window_rect_width w)
                   || negb (buffer_height b =? window_rect_height w)
                   || negb (dx (pending s) =? 0) || negb (dy (pending s) =? 0))|];
        cbn; eexists; (split; [reflexivity|]);
        cbn [List.filter is_damage_area existsb is_move_resize];
        rewrite ?List.filter_app, ?existsb_app, M, D; cbn;
        rewrite ?app_nil_r; auto.
    + cbn. eexists. split; [reflexivity|].
      cbn [List.filter is_damage_area existsb is_move_resize].
      rewrite ?List.filter_app, ?existsb_app, M, D. cbn.
      rewrite ?app_nil_r. auto.
  - cbn. eexists. split; [reflexivity|].
    cbn [List.filter is_damage_area existsb is_move_resize].
    rewrite M, D. split; [reflexivity|].
    symmetry in C. rewrite andb_false_iff in C.
    destruct C as [C|C]; [now rewrite C|].
    destruct (newly_attached (pending s)); [|reflexivity]. cbn.
    destruct (buffer (pending s)) as [b|]; [|reflexivity].
    rewrite C. reflexivity.
Qed.

(** A toplevel of 0x0 with buffer A of 64x64 attached and all of it
    damaged. *)
Definition toplevel_with_A : MetaWaylandCompositor :=
  dispatch [Attach 1 (Some buffer_A) 0 0; Damage 1 0 0 64 64] toplevel_compositor.

Lemma toplevel_commit_damage_and_resize_witness :
  exists es,
    log (meta_wayland_surface_commit 1 toplevel_with_A) = log toplevel_with_A ++ es
    /\ List.filter is_damage_area es
       = [meta_surface_actor_damage_area 1 (Rect 0 0 64 64)]
    /\ existsb is_move_resize es = true.
Proof.
  apply (toplevel_commit_damage_and_resize toplevel_with_A 1%nat
           (MkSurface (WlResource 1 7%nat) (Some (new_window 1))
              (SurfaceExtension (Some 10%nat)) (SurfaceExtension None)
              (SurfaceExtension None) (SurfaceExtension None) None
              (DoubleBufferedState true (Some buffer_A) 0 0 [Rect 0 0 64 64]
                 None None []))
           (new_window 1)).
  - vm_compute. reflexivity.
  - discriminate.
  - reflexivity.
Defined.

(** The calls of that commit, in order. *)
Example toplevel_commit_calls :
  log (meta_wayland_surface_commit 1 toplevel_with_A)
  = [meta_surface_actor_commit 1;
     cogl_wayland_texture_2d_new_from_buffer buffer_A;
     meta_wayland_buffer_reference 1 (Some buffer_A);
     meta_surface_actor_attach_wayland_buffer 1 (Some buffer_A);
     meta_surface_actor_damage_area 1 (Rect 0 0 64 64);
     meta_window_set_surface_mapped 1 true;
     meta_window_move_resize_wayland 1 64 64 0 0].
Proof. vm_compute. reflexivity. Qed.

Lemma frames_pending (cbs : list nat) (c : MetaWaylandCompositor) (id : nat)
    (s : MetaWaylandSurface) :
  surfaces c !! id = Some s ->
  exists s', surfaces (dispatch (List.map (Frame id) cbs) c) !! id = Some s'
    /\ frame_callback_list (pending s') = frame_callback_list (pending s) ++ cbs
    /\ frame_callbacks (dispatch (List.map (Frame id) cbs) c) = frame_callbacks c.
Proof.
  revert c s. induction cbs as [|cb cbs IH]; intros c s Hs; cbn.
  - exists s. rewrite app_nil_r. auto.
  - fold (dispatch (List.map (Frame id) cbs) (meta_wayland_surface_frame id cb c)).
    destruct (IH (meta_wayland_surface_frame id cb c)
                (set_pending
                   (DoubleBufferedState (newly_attached (pending s)) (buffer (pending s))
                      (dx (pending s)) (dy (pending s)) (damage (pending s))
                      (input_region (pending s)) (opaque_region (pending s))
                      (frame_callback_list (pending s) ++ [cb])) s))
      as (s' & H1 & H2 & H3).
    + unfold meta_wayland_surface_frame, wl_resource_get_user_data. rewrite Hs.
      cbn. apply lookup_insert_eq.
    + exists s'. split; [exact H1|]. split.
      * rewrite H2. cbn. now rewrite <- app_assoc.
      * rewrite H3. unfold meta_wayland_surface_frame, wl_resource_get_user_data.
        rewrite Hs. reflexivity.
Qed.

(** X5. The frame callbacks requested on a surface are handed to the
    compositor by the next commit of the surface, in request order and
    ahead of the callbacks already waiting, and they are handed over once:
    a second commit adds none. *)
Theorem frame_callbacks_handed_over_once (c : MetaWaylandCompositor) (id : nat)
    (s : MetaWaylandSurface) (cbs : list nat) :
  surfaces c !! id = Some s ->
  frame_callbacks (dispatch (List.map (Frame id) cbs ++ [Commit id]) c)
    = (frame_callback_list (pending s) ++ cbs) ++ frame_callbacks c
  /\ frame_callbacks (dispatch (List.map (Frame id) cbs ++ [Commit id; Commit id]) c)
     = (frame_callback_list (pending s) ++ cbs) ++ frame_callbacks c.
Proof.
  intros Hs.
  destruct (frames_pending cbs c id s Hs) as (s' & H1 & H2 & H3).
  assert (Hc : frame_callbacks
                 (meta_wayland_surface_commit id (dispatch (List.map (Frame id) cbs) c))
               = (frame_callback_list (pending s) ++ cbs) ++ frame_callbacks c).
  { unfold meta_wayland_surface_commit at 1, wl_resource_get_user_data. rewrite H1.
    destruct (if bool_decide _ then _ else _) as [s1 es] eqn:E.
    cbn. rewrite H3, <- H2. f_equal.
    assert (Hp : pending s1 = pending s'); [|now rewrite Hp].
    revert E. unfold cursor_surface_commit, toplevel_surface_commit,
      subsurface_surface_commit.
    pose proof (actor_surface_commit_calls id s') as HA.
    destruct (actor_surface_commit id s') as [[sa ea] ch].
    destruct HA as (_ & _ & HP & _).
    repeat (match goal with
            | |- context [if ?b then _ else _] => destruct b
            | |- context [match ?o with Some _ => _ | None => _ end] => destruct o
            end);
      intros E; inversion E; subst; auto. }
  rewrite !dispatch_app. cbn [dispatch fold_left handle]. split; [exact Hc|].
  destruct (commit_pending _ id s' H1) as (s2 & Hs2 & Hp2).
  unfold meta_wayland_surface_commit at 1, wl_resource_get_user_data. rewrite Hs2.
  destruct (if bool_decide _ then _ else _) as [s3 es3] eqn:E.
  cbn.
  assert (Hp : pending s3 = pending s2).
  { revert E. unfold cursor_surface_commit, toplevel_surface_commit,
      subsurface_surface_commit.
    pose proof (actor_surface_commit_calls id s2) as HA.
    destruct (actor_surface_commit id s2) as [[sa ea] ch].
    destruct HA as (_ & _ & HP & _).
    repeat (match goal with
            | |- context [if ?b then _ else _] => destruct b
            | |- context [match ?o with Some _ => _ | None => _ end] => destruct o
            end);
      intros E; inversion E; subst; auto. }
  rewrite Hp, Hp2. cbn. exact Hc.
Qed.

Lemma frame_callbacks_handed_over_once_witness :
  frame_callbacks (dispatch (List.map (Frame 1) [41; 42]%nat ++ [Commit 1%nat])
                     toplevel_compositor)
    = (frame_callback_list (pending toplevel_1) ++ [41; 42]%nat)
      ++ frame_callbacks toplevel_compositor
  /\ frame_callbacks
       (dispatch (List.map (Frame 1) [41; 42]%nat ++ [Commit 1%nat; Commit 1%nat])
          toplevel_compositor)
     = (frame_callback_list (pending toplevel_1) ++ [41; 42]%nat)
       ++ frame_callbacks toplevel_compositor.
Proof.
  apply (frame_callbacks_handed_over_once toplevel_compositor 1%nat toplevel_1
           [41; 42]%nat).
  vm_compute. reflexivity.
Defined.

(** X6. Once the xdg_surface resource of a toplevel is destroyed, its
    window is unmanaged and the role can be requested again: the destructor
    returns, and a following [get_xdg_surface] binds the new resource and
    makes a new window without posting an error. *)
Theorem toplevel_role_requested_again (window_new : nat -> MetaWindow)
    (c : MetaWaylandCompositor) (id new_id : nat) (s : MetaWaylandSurface)
    (w : MetaWindow) :
  surfaces c !! id = Some s ->
  window s = Some w ->
  exists c1 c2 s2,
    xdg_surface_destructor id c
      = Some (c1, [clutter_actor_remove_child id; meta_window_unmanage (window_id w)])
    /\ get_xdg_surface window_new new_id id c1 = Some c2
    /\ log c2 = log c
    /\ surfaces c2 !! id = Some s2
    /\ xdg_surface s2 = SurfaceExtension (Some new_id)
    /\ window s2 = Some (window_new id).
Proof.
  intros Hs Hw.
  unfold xdg_surface_destructor, wl_resource_get_user_data, destroy_window.
  rewrite Hs. simpl. rewrite Hw. simpl.
  eexists; eexists; eexists. split; [reflexivity|].
  unfold get_xdg_surface, wl_resource_get_user_data. simpl.
  rewrite lookup_insert_eq. simpl.
  split; [reflexivity|]. split; [reflexivity|].
  simpl. rewrite lookup_insert_eq. split; [reflexivity|]. split; reflexivity.
Qed.

Lemma toplevel_role_requested_again_witness :
  exists c1 c2 s2,
    xdg_surface_destructor 1 toplevel_compositor
      = Some (c1, [clutter_actor_remove_child 1;
                   meta_window_unmanage (window_id (new_window 1))])
    /\ get_xdg_surface new_window 31 1 c1 = Some c2
    /\ log c2 = log toplevel_compositor
    /\ surfaces c2 !! 1%nat = Some s2
    /\ xdg_surface s2 = SurfaceExtension (Some 31%nat)
    /\ window s2 = Some (new_window 1).
Proof.
  apply (toplevel_role_requested_again new_window toplevel_compositor 1%nat 31%nat
           toplevel_1 (new_window 1)).
  - vm_compute. reflexivity.
  - reflexivity.
Defined.

(** X7. The destructors of the two extensions that own the window, the
    xdg_surface and the xdg_popup, cannot both run on one surface: the
    first unmanages the window and clears it, and the second then fails the
    assertion of [destroy_window] that the surface has a window. *)
Theorem second_window_destructor_aborts (c : MetaWaylandCompositor) (id : nat)
    (s : MetaWaylandSurface) (w : MetaWindow) :
  surfaces c !! id = Some s ->
  window s = Some w ->
  (exists c1 calls, xdg_surface_destructor id c = Some (c1, calls)
     /\ xdg_popup_destructor id c1 = None
     /\ xdg_surface_destructor id c1 = None)
  /\ (exists c1 calls, xdg_popup_destructor id c = Some (c1, calls)
        /\ xdg_surface_destructor id c1 = None
        /\ xdg_popup_destructor id c1 = None).
Proof.
  intros Hs Hw.
  unfold xdg_surface_destructor, xdg_popup_destructor, wl_resource_get_user_data,
    destroy_window.
  rewrite Hs. simpl. rewrite Hw. simpl.
  split; eexists; eexists; (split; [reflexivity|]);
    simpl; rewrite !lookup_insert_eq; simpl; auto.
Qed.

(** Surface 1 after [get_xdg_surface] and [get_xdg_popup], as in the
    counterexample to the exclusion of roles. *)
Definition toplevel_and_popup : option MetaWaylandCompositor :=
  c0 ← two_surfaces;
  c1 ← get_xdg_surface new_window 10 1 c0;
  get_xdg_popup new_window 12 1 2 5 5 c1.

Definition both_roles_1 : MetaWaylandSurface :=
  MkSurface (WlResource 1 7%nat) (Some (new_window 1))
    (SurfaceExtension (Some 10%nat)) (SurfaceExtension (Some 12%nat))
    (SurfaceExtension None) (SurfaceExtension None) None
    (DoubleBufferedState false None 0 0 [] None None []).

Example both_roles_reached :
  (c ← toplevel_and_popup; surfaces c !! 1%nat) = Some both_roles_1.
Proof. vm_compute. reflexivity. Qed.

Lemma second_window_destructor_aborts_witness :
  let c := Compositor {[ 1%nat := both_roles_1 ]} None [] [] in
  exists c1 calls, xdg_surface_destructor 1 c = Some (c1, calls)
    /\ xdg_popup_destructor 1 c1 = None
    /\ xdg_surface_destructor 1 c1 = None.
Proof.
  intros c.
  apply (second_window_destructor_aborts c 1%nat both_roles_1 (new_window 1)).
  - vm_compute. reflexivity.
  - reflexivity.
Defined.

Lemma grab_op_for_edge_none (edge : Z) :
  edge <> 1 -> edge <> 2 -> edge <> 4 -> edge <> 5 -> edge <> 6 ->
  edge <> 8 -> edge <> 9 -> edge <> 10 ->
  grab_op_for_edge edge = META_GRAB_OP_NONE.
Proof.
  intros. unfold grab_op_for_edge,
    XDG_SURFACE_RESIZE_EDGE_TOP_LEFT, XDG_SURFACE_RESIZE_EDGE_TOP,
    XDG_SURFACE_RESIZE_EDGE_TOP_RIGHT, XDG_SURFACE_RESIZE_EDGE_RIGHT,
    XDG_SURFACE_RESIZE_EDGE_BOTTOM_RIGHT, XDG_SURFACE_RESIZE_EDGE_BOTTOM,
    XDG_SURFACE_RESIZE_EDGE_BOTTOM_LEFT, XDG_SURFACE_RESIZE_EDGE_LEFT.
  repeat (match goal with
          | |- context [?a =? ?b] => destruct (Z.eqb_spec a b); [lia|]
          end).
  reflexivity.
Qed.

(** When [xdg_surface_resize] goes on to a grab operation: a button is
    held, the serial is that of the grab, the surface has the pointer
    focus, and the edge value names one side or one corner, that is, it is
    from 1 to 15 and has neither both the top and the bottom bit nor both
    the left and the right bit. *)
Definition resize_requested (id : nat) (seat : pointer_grab_state)
    (serial edges : Z) : Prop :=
  pointer_button_count seat <> 0
  /\ pointer_grab_serial seat = serial
  /\ pointer_focus seat = Some id
  /\ 1 <= edges <= 15
  /\ Z.land edges 3 <> 3 /\ Z.land edges 12 <> 12.

Lemma grab_op_for_edge_resize (edges : Z) :
  (1 <= edges <= 15 /\ Z.land edges 3 <> 3 /\ Z.land edges 12 <> 12)
  <-> grab_op_for_edge edges <> META_GRAB_OP_NONE.
Proof.
  split.
  - intros (Hr & H3 & H12).
    assert (edges = 1 \/ edges = 2 \/ edges = 3 \/ edges = 4 \/ edges = 5
            \/ edges = 6 \/ edges = 7 \/ edges = 8 \/ edges = 9 \/ edges = 10
            \/ edges = 11 \/ edges = 12 \/ edges = 13 \/ edges = 14 \/ edges = 15)
      as Hc by lia.
    repeat (destruct Hc as [->|Hc]; [try discriminate; exfalso;
                                     (now apply H3) || (now apply H12)|]).
    subst. exfalso. now apply H12.
  - intros Hop.
    destruct (decide (edges = 1 \/ edges = 2 \/ edges = 4 \/ edges = 5
                      \/ edges = 6 \/ edges = 8 \/ edges = 9 \/ edges = 10))
      as [Hc|Hc].
    + repeat (destruct Hc as [->|Hc]; [repeat split; (lia || discriminate)|]).
      subst. repeat split; (lia || discriminate).
    + exfalso. apply Hop. apply grab_op_for_edge_none; lia.
Qed.

Lemma grab_op_for_edge_not_moving (edges : Z) :
  grab_op_for_edge edges <> META_GRAB_OP_MOVING.
Proof.
  unfold grab_op_for_edge.
  repeat (match goal with
          | |- context [?a =? ?b] => destruct (a =? b); [discriminate|]
          end).
  discriminate.
Qed.

(** X8. On a surface that has a window, an interactive resize begins
    exactly when a button is held, the serial is that of the grab, the
    surface has the pointer focus, and the edge value names one side or one
    corner; the operation begun on the window is then a resize, never a
    move or none, and otherwise the request returns without a call. On a
    surface whose window is NULL the same request reads through the NULL
    window. *)
Theorem resize_begins_for_a_side_or_corner (c : MetaWaylandCompositor) (id : nat)
    (s : MetaWaylandSurface) (seat : pointer_grab_state) (serial edges : Z) :
  surfaces c !! id = Some s ->
  (resize_requested id seat serial edges ->
     grab_op_for_edge edges <> META_GRAB_OP_NONE
     /\ grab_op_for_edge edges <> META_GRAB_OP_MOVING
     /\ xdg_surface_resize c id seat serial edges
        = match window s with
          | Some w =>
              Some (Some (meta_display_begin_grab_op w (grab_op_for_edge edges)))
          | None => None
          end)
  /\ (~ resize_requested id seat serial edges ->
        xdg_surface_resize c id seat serial edges = Some None).
Proof.
  intros Hs.
  unfold xdg_surface_resize, wl_resource_get_user_data, begin_grab_op_on_surface,
    resize_requested.
  rewrite Hs. cbn.
  destruct (Z.eqb_spec (pointer_button_count seat) 0) as [Hb|Hb]; cbn.
  { split; [intros (H & _); lia|reflexivity]. }
  destruct (Z.eqb_spec (pointer_grab_serial seat) serial) as [Hg|Hg]; cbn.
  2:{ split; [intros (_ & H & _); lia|reflexivity]. }
  destruct (decide (pointer_focus seat = Some id)) as [Hf|Hf].
  2:{ rewrite bool_decide_eq_true_2 by exact Hf.
      split; [intros (_ & _ & H & _); contradiction|reflexivity]. }
  rewrite bool_decide_eq_false_2 by (intros Hn; now apply Hn).
  split.
  - intros (_ & _ & _ & Hr & H3 & H12).
    assert (Hv : grab_op_for_edge edges <> META_GRAB_OP_NONE)
      by (apply grab_op_for_edge_resize; auto).
    split; [exact Hv|]. split; [apply grab_op_for_edge_not_moving|].
    rewrite bool_decide_eq_false_2 by exact Hv.
    destruct (window s); reflexivity.
  - intros Hn.
    destruct (decide (grab_op_for_edge edges = META_GRAB_OP_NONE)) as [E|E].
    + rewrite bool_decide_eq_true_2 by exact E. reflexivity.
    + exfalso. apply Hn. apply grab_op_for_edge_resize in E.
      destruct E as (Hr & H3 & H12). repeat split; auto; lia.
Qed.

(** The seat while button 1 is held on surface 1 with grab serial 77. *)
Definition grab_on_1 : pointer_grab_state := PointerGrabState 1 77 (Some 1%nat).

Lemma resize_begins_for_a_side_or_corner_witness :
  xdg_surface_resize toplevel_compositor 1 grab_on_1 77
    XDG_SURFACE_RESIZE_EDGE_TOP_LEFT
  = Some (Some (meta_display_begin_grab_op (new_window 1) META_GRAB_OP_RESIZING_NW))
  /\ xdg_surface_resize toplevel_compositor 1 grab_on_1 77 3 = Some None.
Proof.
  destruct (resize_begins_for_a_side_or_corner toplevel_compositor 1 toplevel_1
              grab_on_1 77 XDG_SURFACE_RESIZE_EDGE_TOP_LEFT eq_refl) as [Hyes _].
  destruct (resize_begins_for_a_side_or_corner toplevel_compositor 1 toplevel_1
              grab_on_1 77 3 eq_refl) as [_ Hno].
  split.
  - apply Hyes. repeat split; (discriminate || reflexivity || (vm_compute; discriminate)).
  - apply Hno. intros (_ & _ & _ & _ & H3 & _). apply H3. reflexivity.
Defined.

(** The surface with both roles once its xdg_popup resource is destroyed:
    the xdg_surface extension is bound and the window is NULL, and a resize
    request reads through the NULL window. *)
Example resize_without_window :
  (c ← toplevel_and_popup;
   '(c1, _) ← xdg_popup_destructor 1 c;
   s ← surfaces c1 !! 1%nat;
   Some (xdg_surface s, window s,
         xdg_surface_resize c1 1 grab_on_1 77 XDG_SURFACE_RESIZE_EDGE_TOP_LEFT))
  = Some (SurfaceExtension (Some 10%nat), None, None).
Proof. vm_compute. reflexivity. Qed.

End SurfaceFacts.

(** ** Pointer focus and grabs *)
Module PointerFacts.
Import Pointer.

Local Open Scope Z_scope.

(** Split on the tests the code under [H] makes next. *)
Ltac branches H :=
  repeat (match type of H with
          | context [if ?b then _ else _] => destruct b eqn:?; simpl in H
          | context [match ?o with Some _ => _ | None => _ end] =>
              destruct o eqn:?; simpl in H
          | context [let '(_, _) := ?p in _] => destruct p eqn:?; simpl in H
          end).

Section WithCoordinates.

Variable relative : MetaWaylandPointer -> surface_ref -> Z * Z.

Abbreviation set_focus := (meta_wayland_pointer_set_focus relative).

(** What [meta_wayland_pointer_set_focus] leaves alone: the grab, the
    surface under the pointer, the button count and the bound resources;
    the messages sent before it stay, in order, at the front of the wire. *)
Definition focus_frame (seat seat' : MetaWaylandSeat) : Prop :=
  grab (pointer seat') = grab (pointer seat)
  /\ current (pointer seat') = current (pointer seat)
  /\ button_count (pointer seat') = button_count (pointer seat)
  /\ resource_list (pointer seat') = resource_list (pointer seat)
  /\ exists tail, wire seat' = wire seat ++ tail.

Lemma focus_frame_refl (seat : MetaWaylandSeat) : focus_frame seat seat.
Proof. repeat split. exists []. now rewrite app_nil_r. Qed.

Lemma focus_frame_trans (s1 s2 s3 : MetaWaylandSeat) :
  focus_frame s1 s2 -> focus_frame s2 s3 -> focus_frame s1 s3.
Proof.
  intros (G1 & C1 & B1 & R1 & t1 & W1) (G2 & C2 & B2 & R2 & t2 & W2).
  repeat split; try congruence.
  exists (t1 ++ t2). rewrite W2, W1. now rewrite app_assoc.
Qed.

Lemma set_focus_frame (surface : option surface_ref) (seat seat' : MetaWaylandSeat) :
  set_focus surface seat = Some seat' -> focus_frame seat seat'.
Proof.
  unfold meta_wayland_pointer_set_focus, focus_frame.
  destruct seat as [[rl f fr fs cur bc g px py] kbd serial w]; simpl.
  intros H.
  destruct fr as [r0|]; simpl in H;
    [destruct (bool_decide (f ≠ surface)); simpl in H;
       [destruct f as [old|]; simpl in H; [|discriminate]|]|];
    destruct (find_resource_for_surface rl surface) as [r|];
    destruct surface as [s|]; simpl in H;
    branches H;
    inversion H; subst; simpl; repeat split; eauto;
    try (eexists; rewrite <- ?app_assoc; reflexivity);
    try (exists []; now rewrite app_nil_r).
Qed.

(** C10. Setting the pointer focus to the surface that already is the
    focus, while the pointer resource of its client already is the focus
    resource, changes nothing: no leave, enter or modifiers message is
    sent, and focus surface, focus resource and focus serial stay. *)
Theorem set_focus_idempotent (seat : MetaWaylandSeat) (surface : option surface_ref) :
  focus (pointer seat) = surface ->
  focus_resource (pointer seat)
    = find_resource_for_surface (resource_list (pointer seat)) surface ->
  set_focus surface seat = Some seat.
Proof.
  destruct seat as [[rl f fr fs cur bc g px py] kbd serial w]; simpl.
  intros -> ->.
  unfold meta_wayland_pointer_set_focus; simpl.
  destruct (find_resource_for_surface rl surface) as [r|] eqn:E; simpl.
  - rewrite bool_decide_eq_false_2 by (intros Hne; now apply Hne).
    simpl.
    destruct surface as [s|]; [|discriminate E].
    rewrite !bool_decide_eq_false_2 by (intros Hne; now apply Hne).
    reflexivity.
  - destruct surface; reflexivity.
Qed.

Lemma set_focus_total (surface : option surface_ref) (seat : MetaWaylandSeat) :
  (focus_resource (pointer seat) <> None -> focus (pointer seat) <> None) ->
  exists seat', set_focus surface seat = Some seat'.
Proof.
  destruct seat as [[rl f fr fs cur bc g px py] kbd serial w]; simpl.
  intros Hc. unfold meta_wayland_pointer_set_focus; simpl.
  destruct fr as [r0|]; simpl.
  - destruct f as [old|]; [|exfalso; now apply Hc].
    destruct (bool_decide (Some old ≠ surface)); simpl;
      destruct (find_resource_for_surface rl surface);
      destruct surface; simpl;
      repeat (match goal with
              | |- context [if ?b then _ else _] => destruct b; simpl
              | |- context [match ?o with Some _ => _ | None => _ end] =>
                  destruct o; simpl
              | |- context [let '(_, _) := ?p in _] => destruct p; simpl
              end); eauto.
  - destruct (find_resource_for_surface rl surface);
      destruct surface; simpl;
      repeat (match goal with
              | |- context [if ?b then _ else _] => destruct b; simpl
              | |- context [match ?o with Some _ => _ | None => _ end] =>
                  destruct o; simpl
              | |- context [let '(_, _) := ?p in _] => destruct p; simpl
              end); eauto.
Qed.

Lemma set_focus_none_total (seat : MetaWaylandSeat) :
  exists seat', set_focus None seat = Some seat'.
Proof.
  destruct seat as [[rl f fr fs cur bc g px py] kbd serial w].
  unfold meta_wayland_pointer_set_focus; simpl.
  destruct fr as [r0|]; simpl; [|eauto].
  destruct f as [old|]; simpl; eauto.
Qed.

Lemma default_grab_focus_frame (surface : option surface_ref)
    (seat seat' : MetaWaylandSeat) :
  default_grab_focus relative surface seat = Some seat' -> focus_frame seat seat'.
Proof.
  unfold default_grab_focus.
  destruct (button_count (pointer seat) >? 0).
  - intros H; inversion H; subst. apply focus_frame_refl.
  - apply set_focus_frame.
Qed.

Lemma send_frame (m : message) (seat : MetaWaylandSeat) : focus_frame seat (send m seat).
Proof. repeat split. simpl. eauto. Qed.

Lemma next_serial_frame (seat : MetaWaylandSeat) :
  focus_frame seat (snd (wl_display_next_serial seat)).
Proof. repeat split. simpl. exists []. now rewrite app_nil_r. Qed.

Lemma default_grab_button_frame (event : ClutterEvent) (seat seat' : MetaWaylandSeat) :
  default_grab_button relative event seat = Some seat' -> focus_frame seat seat'.
Proof.
  unfold default_grab_button.
  set (seat1 := match focus_resource (pointer seat) with
                | Some _ => _ | None => seat end).
  assert (F1 : focus_frame seat seat1).
  { subst seat1. destruct (focus_resource (pointer seat)).
    - simpl. eapply focus_frame_trans; [apply next_serial_frame|apply send_frame].
    - apply focus_frame_refl. }
  destruct (_ && _).
  - intros H. eapply focus_frame_trans; [exact F1|]. eapply set_focus_frame, H.
  - intros H; inversion H; subst. exact F1.
Qed.

Lemma default_grab_motion_frame (event : ClutterEvent) (seat seat' : MetaWaylandSeat) :
  default_grab_motion relative event seat = Some seat' -> focus_frame seat seat'.
Proof.
  unfold default_grab_motion. intros H.
  destruct (focus_resource (pointer seat)); simpl in H.
  - destruct (focus (pointer seat)); simpl in H; [|discriminate].
    destruct (relative _ _). inversion H; subst. apply send_frame.
  - inversion H; subst. apply focus_frame_refl.
Qed.

Lemma end_grab_default (seat seat' : MetaWaylandSeat) :
  meta_wayland_pointer_end_grab relative seat = Some seat' ->
  grab (pointer seat') = default_grab
  /\ exists tail, wire seat' = wire seat ++ tail.
Proof.
  unfold meta_wayland_pointer_end_grab. intros H.
  apply default_grab_focus_frame in H.
  destruct H as (G & _ & _ & _ & T). split; [rewrite G; reflexivity|exact T].
Qed.

Lemma send_popup_done_all (popups : list surface_ref) (seat : MetaWaylandSeat) :
  let seat' :=
    fold_left (fun st popup => send (wl_shell_surface_send_popup_done popup) st)
              popups seat in
  pointer seat' = pointer seat
  /\ wire seat' = wire seat ++ List.map wl_shell_surface_send_popup_done popups.
Proof.
  revert seat. induction popups as [|p popups IH]; intros seat; simpl.
  - now rewrite app_nil_r.
  - destruct (IH (send (wl_shell_surface_send_popup_done p) seat)) as [Hp Hw].
    split; [rewrite Hp; reflexivity|].
    rewrite Hw. simpl. now rewrite <- app_assoc.
Qed.

Lemma end_popup_grab_default (seat seat' : MetaWaylandSeat) (c : wl_client)
    (popups : list surface_ref) :
  grab (pointer seat) = popup_grab c popups ->
  meta_wayland_pointer_end_popup_grab relative seat = Some seat' ->
  grab (pointer seat') = default_grab
  /\ forall s, s ∈ popups -> wl_shell_surface_send_popup_done s ∈ wire seat'.
Proof.
  intros Hg. unfold meta_wayland_pointer_end_popup_grab. rewrite Hg. intros H.
  apply end_grab_default in H. destruct H as (G & tail & W).
  split; [exact G|].
  intros s Hs. rewrite W.
  destruct (send_popup_done_all popups (set_grab (popup_grab c []) seat)) as [_ Hw].
  simpl in Hw. rewrite Hw.
  apply elem_of_app; left. apply elem_of_app; right.
  apply list_elem_of_In, in_map, list_elem_of_In, Hs.
Qed.

Lemma end_popup_grab_total (seat : MetaWaylandSeat) (c : wl_client)
    (popups : list surface_ref) :
  grab (pointer seat) = popup_grab c popups ->
  (focus_resource (pointer seat) <> None -> focus (pointer seat) <> None) ->
  exists seat', meta_wayland_pointer_end_popup_grab relative seat = Some seat'.
Proof.
  intros Hg Hc. unfold meta_wayland_pointer_end_popup_grab. rewrite Hg.
  unfold meta_wayland_pointer_end_grab, default_grab_focus.
  destruct (send_popup_done_all popups (set_grab (popup_grab c []) seat)) as [Hp _].
  simpl in Hp.
  match goal with
  | |- context [if ?b then _ else _] => destruct b; [eauto|]
  end.
  apply set_focus_total. simpl. rewrite Hp. simpl. exact Hc.
Qed.

(** C4. While a popup grab is active, a request to start a popup grab
    returns FALSE and leaves the seat as it is, whichever client the
    surface belongs to: also for a surface of the client that owns the
    grab, which is not added to the popups of the grab. *)
Theorem start_popup_grab_under_popup_grab (seat : MetaWaylandSeat) (c : wl_client)
    (popups : list surface_ref) (surface : surface_ref) :
  meta_wayland_pointer_start_popup_grab relative surface
    (set_grab (popup_grab c popups) seat)
  = Some (false, set_grab (popup_grab c popups) seat).
Proof.
  unfold meta_wayland_pointer_start_popup_grab. simpl.
  destruct (bool_decide (resource_client surface ≠ c)); reflexivity.
Qed.

(** C8. The active grab is one of default, modal and popup, and only one.
    [begin_modal] under a grab that is not the default one returns FALSE
    and leaves the whole seat, so the grab, the focus and the focus
    resource, as it is; under the default grab it returns TRUE and the
    modal grab is the active one. *)
Theorem begin_modal_exclusive (seat : MetaWaylandSeat) :
  (is_default_grab (grab (pointer seat)) = true
     /\ is_modal_grab (grab (pointer seat)) = false
     /\ is_popup_grab (grab (pointer seat)) = false
   \/ is_default_grab (grab (pointer seat)) = false
     /\ is_modal_grab (grab (pointer seat)) = true
     /\ is_popup_grab (grab (pointer seat)) = false
   \/ is_default_grab (grab (pointer seat)) = false
     /\ is_modal_grab (grab (pointer seat)) = false
     /\ is_popup_grab (grab (pointer seat)) = true)
  /\ (grab (pointer seat) <> default_grab ->
        meta_wayland_pointer_begin_modal relative seat = Some (false, seat))
  /\ (grab (pointer seat) = default_grab ->
        exists seat', meta_wayland_pointer_begin_modal relative seat = Some (true, seat')
          /\ grab (pointer seat') = modal_grab).
Proof.
  split; [destruct (grab (pointer seat)); simpl; auto|].
  unfold meta_wayland_pointer_begin_modal. split.
  - intros Hne. now rewrite bool_decide_eq_true_2.
  - intros He. rewrite bool_decide_eq_false_2 by (intros Hne; now apply Hne).
    destruct (set_focus_none_total seat) as [seat1 H1]. rewrite H1. simpl.
    unfold meta_wayland_pointer_start_grab.
    destruct (current (pointer (set_grab modal_grab seat1))); simpl;
      eexists; split; reflexivity.
Qed.

(** The two situations in which the code ends a popup grab: a button
    release with no button held while the focus resource is NULL, and the
    destruction of the surface of the last popup of the grab. *)
Definition ends_popup_grab (o : op) (seat : MetaWaylandSeat) : Prop :=
  match o, grab (pointer seat) with
  | GrabButton event, popup_grab _ _ =>
      clutter_event_type event = CLUTTER_BUTTON_RELEASE
      /\ button_count (pointer seat) = 0
      /\ focus_resource (pointer seat) = None
  | PopupSurfaceDestroy s, popup_grab _ popups =>
      s ∈ popups /\ remove_popup s popups = []
  | _, _ => False
  end.

(** The popups the grab tracks once [o] has removed the popup of a
    destroyed surface. *)
Definition popups_after (o : op) (popups : list surface_ref) : list surface_ref :=
  match o with
  | PopupSurfaceDestroy s => remove_popup s popups
  | _ => popups
  end.

Lemma popup_grab_continues (seat seat' : MetaWaylandSeat) (c : wl_client)
    (popups : list surface_ref) (o : op) :
  grab (pointer seat) = popup_grab c popups ->
  step relative o seat = Some seat' ->
  ~ ends_popup_grab o seat ->
  grab (pointer seat') = popup_grab c (popups_after o popups).
Proof.
  intros Hg Hs Hn. unfold ends_popup_grab in Hn. rewrite Hg in Hn.
  destruct o as [s|n|r|s|e|e| | |s|s| | |]; simpl in Hs; simpl.
  - inversion Hs; subst. exact Hg.
  - inversion Hs; subst. exact Hg.
  - inversion Hs; subst. exact Hg.
  - unfold interface_focus in Hs. rewrite Hg in Hs.
    unfold popup_grab_focus in Hs.
    destruct s as [s|]; simpl in Hs; [|discriminate].
    destruct (bool_decide (resource_client s = c)).
    + apply default_grab_focus_frame in Hs. destruct Hs as (G & _). congruence.
    + apply set_focus_frame in Hs. destruct Hs as (G & _). congruence.
  - unfold interface_motion in Hs. rewrite Hg in Hs.
    apply default_grab_motion_frame in Hs. destruct Hs as (G & _). congruence.
  - unfold interface_button in Hs. rewrite Hg in Hs.
    unfold popup_grab_button in Hs.
    destruct (focus_resource (pointer seat)) as [r|] eqn:Hr.
    + destruct (bool_decide (resource_client r = c)); [|discriminate].
      apply default_grab_button_frame in Hs. destruct Hs as (G & _). congruence.
    + destruct (bool_decide (clutter_event_type e = CLUTTER_BUTTON_RELEASE)) eqn:Ht;
        destruct (button_count (pointer seat) =? 0) eqn:Hb; simpl in Hs;
        try (inversion Hs; subst; exact Hg).
      exfalso. apply Hn. apply bool_decide_eq_true in Ht. apply Z.eqb_eq in Hb. auto.
  - unfold meta_wayland_pointer_begin_modal in Hs.
    rewrite bool_decide_eq_true_2 in Hs by (rewrite Hg; discriminate).
    inversion Hs; subst. exact Hg.
  - unfold meta_wayland_pointer_end_modal in Hs. rewrite Hg in Hs. discriminate.
  - unfold meta_wayland_pointer_start_popup_grab in Hs.
    rewrite bool_decide_eq_true_2 in Hs by (rewrite Hg; discriminate).
    rewrite Hg in Hs.
    destruct (bool_decide (resource_client s ≠ c)); inversion Hs; subst; exact Hg.
  - unfold on_popup_surface_destroy in Hs. rewrite Hg in Hs.
    destruct (bool_decide (s ∈ popups)) eqn:Hin; [|discriminate].
    apply bool_decide_eq_true in Hin.
    destruct (remove_popup s popups) as [|p rest] eqn:Hrm.
    + exfalso. apply Hn. auto.
    + inversion Hs; subst. reflexivity.
  - inversion Hs; subst. exact Hg.
  - inversion Hs; subst. exact Hg.
  - unfold meta_wayland_pointer_destroy_focus in Hs.
    rewrite bool_decide_eq_false_2 in Hs by (rewrite Hg; discriminate).
    inversion Hs; subst. exact Hg.
Qed.

Lemma popup_grab_dismissed (seat : MetaWaylandSeat) (c : wl_client)
    (popups : list surface_ref) (o : op) :
  grab (pointer seat) = popup_grab c popups ->
  (focus_resource (pointer seat) <> None -> focus (pointer seat) <> None) ->
  ends_popup_grab o seat ->
  exists seat', step relative o seat = Some seat'
    /\ grab (pointer seat') = default_grab
    /\ forall s, s ∈ popups_after o popups ->
         wl_shell_surface_send_popup_done s ∈ wire seat'.
Proof.
  intros Hg Hc He. unfold ends_popup_grab in He. rewrite Hg in He.
  destruct o as [s|n|r|s|e|e| | |s|s| | |]; try contradiction.
  - destruct He as (Ht & Hb & Hr). simpl.
    unfold interface_button. rewrite Hg. unfold popup_grab_button.
    rewrite Hr, Hb, bool_decide_eq_true_2 by exact Ht. simpl.
    destruct (end_popup_grab_total seat c popups Hg Hc) as [seat' Hs].
    exists seat'. split; [exact Hs|].
    exact (end_popup_grab_default seat seat' c popups Hg Hs).
  - destruct He as (Hin & Hrm). simpl.
    unfold on_popup_surface_destroy. rewrite Hg.
    rewrite bool_decide_eq_true_2 by exact Hin. rewrite Hrm.
    assert (Hg1 : grab (pointer (set_grab (popup_grab c []) seat)) = popup_grab c [])
      by reflexivity.
    destruct (end_popup_grab_total _ c [] Hg1 Hc) as [seat' Hs].
    exists seat'. split; [exact Hs|].
    exact (end_popup_grab_default _ seat' c [] Hg1 Hs).
Qed.

(** C7, amended. A popup grab ends in two situations: a button release
    with no button held while the focus resource of the pointer is NULL
    (the focus surface may be NULL or a surface whose client has no pointer
    resource), or the destruction of the surface of its last popup. When it
    ends, every popup it still tracks is sent popup_done and the default
    grab is the active one; under every other operation that returns, the
    same popup grab stays active. *)
Theorem popup_grab_ends (seat : MetaWaylandSeat) (c : wl_client)
    (popups : list surface_ref) (o : op) :
  grab (pointer seat) = popup_grab c popups ->
  (focus_resource (pointer seat) <> None -> focus (pointer seat) <> None) ->
  (ends_popup_grab o seat ->
     exists seat', step relative o seat = Some seat'
       /\ grab (pointer seat') = default_grab
       /\ forall s, s ∈ popups_after o popups ->
            wl_shell_surface_send_popup_done s ∈ wire seat')
  /\ (~ ends_popup_grab o seat ->
      forall seat', step relative o seat = Some seat' ->
        grab (pointer seat') = popup_grab c (popups_after o popups)).
Proof.
  intros Hg Hc. split.
  - intros He. exact (popup_grab_dismissed seat c popups o Hg Hc He).
  - intros Hn seat' Hs. exact (popup_grab_continues seat seat' c popups o Hg Hs Hn).
Qed.

(** *** Further properties of focus and grabs *)

(** What [meta_wayland_pointer_set_focus] leaves in the focus fields. *)
Lemma set_focus_post (surface : option surface_ref) (seat seat' : MetaWaylandSeat) :
  set_focus surface seat = Some seat' ->
  focus (pointer seat') = surface
  /\ focus_resource (pointer seat')
     = find_resource_for_surface (resource_list (pointer seat)) surface.
Proof.
  unfold meta_wayland_pointer_set_focus.
  destruct seat as [[rl f fr fs cur bc g px py] kbd serial w]; simpl.
  intros H.
  destruct fr as [r0|]; simpl in H;
    [destruct (bool_decide (f ≠ surface)); simpl in H;
       [destruct f as [old|]; simpl in H; [|discriminate]|]|];
    destruct (find_resource_for_surface rl surface) as [r|];
    destruct surface as [s|]; simpl in H;
    branches H;
    inversion H; subst; simpl; auto.
Qed.

(** The focus resource, when there is one, belongs to the client of the
    focus surface. *)
Definition focus_consistent (seat : MetaWaylandSeat) : Prop :=
  forall r, focus_resource (pointer seat) = Some r ->
    exists s, focus (pointer seat) = Some s /\ resource_client r = resource_client s.

Lemma find_for_client_client (l : list wl_resource) (client : wl_client)
    (r : wl_resource) :
  wl_resource_find_for_client l client = Some r -> resource_client r = client.
Proof.
  unfold wl_resource_find_for_client. intros H.
  apply List.find_some in H. destruct H as [_ H].
  now apply bool_decide_eq_true in H.
Qed.

Lemma set_focus_consistent (surface : option surface_ref)
    (seat seat' : MetaWaylandSeat) :
  set_focus surface seat = Some seat' -> focus_consistent seat'.
Proof.
  intros H. apply set_focus_post in H. destruct H as [Hf Hr].
  intros r Hfr. rewrite Hr in Hfr.
  destruct surface as [s|]; [|discriminate].
  exists s. split; [exact Hf|]. now apply find_for_client_client in Hfr.
Qed.

Lemma focus_consistent_fields (seat seat' : MetaWaylandSeat) :
  focus (pointer seat') = focus (pointer seat) ->
  focus_resource (pointer seat') = focus_resource (pointer seat) ->
  focus_consistent seat -> focus_consistent seat'.
Proof. intros Hf Hr H r. rewrite Hr, Hf. apply H. Qed.

Lemma focus_consistent_total (surface : option surface_ref) (seat : MetaWaylandSeat) :
  focus_consistent seat -> exists seat', set_focus surface seat = Some seat'.
Proof.
  intros H. apply set_focus_total. intros Hne.
  destruct (focus_resource (pointer seat)) as [r|] eqn:E; [|congruence].
  destruct (H r E) as (s & Hs & _). congruence.
Qed.

Lemma default_grab_focus_consistent (surface : option surface_ref)
    (seat seat' : MetaWaylandSeat) :
  focus_consistent seat ->
  default_grab_focus relative surface seat = Some seat' -> focus_consistent seat'.
Proof.
  unfold default_grab_focus. intros Hc.
  destruct (button_count (pointer seat) >? 0).
  - intros H; inversion H; subst. exact Hc.
  - apply set_focus_consistent.
Qed.

Lemma default_grab_button_consistent (event : ClutterEvent)
    (seat seat' : MetaWaylandSeat) :
  focus_consistent seat ->
  default_grab_button relative event seat = Some seat' -> focus_consistent seat'.
Proof.
  unfold default_grab_button. intros Hc.
  set (seat1 := match focus_resource (pointer seat) with
                | Some _ => _ | None => seat end).
  assert (H1 : focus_consistent seat1).
  { subst seat1. destruct (focus_resource (pointer seat)) eqn:E; [|exact Hc].
    apply (focus_consistent_fields seat); [reflexivity|simpl; now rewrite E|exact Hc]. }
  destruct (_ && _).
  - apply set_focus_consistent.
  - intros H; inversion H; subst. exact H1.
Qed.

Lemma end_grab_consistent (seat seat' : MetaWaylandSeat) :
  focus_consistent seat ->
  meta_wayland_pointer_end_grab relative seat = Some seat' -> focus_consistent seat'.
Proof.
  unfold meta_wayland_pointer_end_grab. intros Hc.
  apply default_grab_focus_consistent.
  apply (focus_consistent_fields seat); [reflexivity|reflexivity|exact Hc].
Qed.

Lemma end_popup_grab_consistent (seat seat' : MetaWaylandSeat) :
  focus_consistent seat ->
  meta_wayland_pointer_end_popup_grab relative seat = Some seat' ->
  focus_consistent seat'.
Proof.
  unfold meta_wayland_pointer_end_popup_grab. intros Hc.
  destruct (grab (pointer seat)) as [| |c popups] eqn:Eg; try discriminate.
  apply end_grab_consistent.
  destruct (send_popup_done_all popups (set_grab (popup_grab c []) seat)) as [Hp _].
  simpl in Hp.
  apply (focus_consistent_fields seat); [now rewrite Hp|now rewrite Hp|exact Hc].
Qed.

Lemma interface_focus_consistent (surface : option surface_ref)
    (seat seat' : MetaWaylandSeat) :
  focus_consistent seat ->
  interface_focus relative surface seat = Some seat' -> focus_consistent seat'.
Proof.
  unfold interface_focus, modal_focus, popup_grab_focus. intros Hc H.
  destruct (grab (pointer seat)) as [| |c popups].
  - exact (default_grab_focus_consistent surface seat seat' Hc H).
  - inversion H; subst. exact Hc.
  - destruct surface as [s|]; simpl in H; [|discriminate].
    destruct (bool_decide (resource_client s = c)).
    + exact (default_grab_focus_consistent (Some s) seat seat' Hc H).
    + exact (set_focus_consistent None seat seat' H).
Qed.

Lemma start_grab_consistent (g : MetaWaylandPointerGrab) (seat seat' : MetaWaylandSeat) :
  focus_consistent seat ->
  meta_wayland_pointer_start_grab relative g seat = Some seat' ->
  focus_consistent seat'.
Proof.
  unfold meta_wayland_pointer_start_grab. intros Hc.
  assert (H1 : focus_consistent (set_grab g seat))
    by (apply (focus_consistent_fields seat); [reflexivity|reflexivity|exact Hc]).
  destruct (current (pointer (set_grab g seat))).
  - apply interface_focus_consistent. exact H1.
  - intros H; inversion H; subst. exact H1.
Qed.

Lemma step_consistent (o : op) (seat seat' : MetaWaylandSeat) :
  focus_consistent seat -> step relative o seat = Some seat' -> focus_consistent seat'.
Proof.
  intros Hc H.
  destruct o as [s|n|r|s|e|e| | |s|s| | |]; simpl in H.
  - inversion H; subst.
    apply (focus_consistent_fields seat); [reflexivity|reflexivity|exact Hc].
  - inversion H; subst.
    apply (focus_consistent_fields seat); [reflexivity|reflexivity|exact Hc].
  - inversion H; subst.
    apply (focus_consistent_fields seat); [reflexivity|reflexivity|exact Hc].
  - exact (interface_focus_consistent s seat seat' Hc H).
  - unfold interface_motion, modal_motion, popup_grab_motion in H.
    assert (Hm : default_grab_motion relative e seat = Some seat' ->
                 focus_consistent seat').
    { unfold default_grab_motion. intros Hd.
      destruct (focus_resource (pointer seat)) eqn:E; simpl in Hd.
      - destruct (focus (pointer seat)) eqn:Ef; simpl in Hd; [|discriminate].
        destruct (relative _ _). inversion Hd; subst.
        apply (focus_consistent_fields seat); simpl; [reflexivity|reflexivity|exact Hc].
      - inversion Hd; subst. exact Hc. }
    destruct (grab (pointer seat)); auto. inversion H; subst. exact Hc.
  - unfold interface_button, modal_button, popup_grab_button in H.
    destruct (grab (pointer seat)) as [| |c popups].
    + exact (default_grab_button_consistent e seat seat' Hc H).
    + inversion H; subst. exact Hc.
    + destruct (focus_resource (pointer seat)) as [r|].
      * destruct (bool_decide (resource_client r = c)); [|discriminate].
        exact (default_grab_button_consistent e seat seat' Hc H).
      * destruct (_ && _).
        -- exact (end_popup_grab_consistent seat seat' Hc H).
        -- inversion H; subst. exact Hc.
  - unfold meta_wayland_pointer_begin_modal in H.
    destruct (bool_decide (grab (pointer seat) ≠ default_grab)); simpl in H.
    + inversion H; subst. exact Hc.
    + destruct (set_focus None seat) as [seat1|] eqn:E1; simpl in H; [|discriminate].
      destruct (meta_wayland_pointer_start_grab relative modal_grab seat1)
        as [seat2|] eqn:E2; simpl in H; [|discriminate].
      inversion H; subst.
      apply (start_grab_consistent modal_grab seat1 seat'); [|exact E2].
      exact (set_focus_consistent None seat seat1 E1).
  - unfold meta_wayland_pointer_end_modal in H.
    destruct (grab (pointer seat)); try discriminate.
    exact (end_grab_consistent seat seat' Hc H).
  - unfold meta_wayland_pointer_start_popup_grab in H.
    destruct (bool_decide (grab (pointer seat) ≠ default_grab)); simpl in H.
    + destruct (grab (pointer seat)) as [| |c popups];
        try (inversion H; subst; exact Hc).
      destruct (bool_decide (resource_client s ≠ c)); inversion H; subst; exact Hc.
    + destruct (bool_decide (grab (pointer seat) = default_grab)); simpl in H.
      * destruct (meta_wayland_pointer_start_grab relative
                    (popup_grab (resource_client s) []) seat) as [seat1|] eqn:E1;
          simpl in H; [|discriminate].
        inversion H; subst.
        apply (focus_consistent_fields seat1).
        -- unfold insert_popup. destruct (grab (pointer seat1)); reflexivity.
        -- unfold insert_popup. destruct (grab (pointer seat1)); reflexivity.
        -- exact (start_grab_consistent _ seat seat1 Hc E1).
      * inversion H; subst.
        apply (focus_consistent_fields seat); [| |exact Hc];
          unfold insert_popup; destruct (grab (pointer seat)); reflexivity.
  - unfold on_popup_surface_destroy in H.
    destruct (grab (pointer seat)) as [| |c popups]; try discriminate.
    destruct (bool_decide (s ∈ popups)); [|discriminate].
    assert (H1 : focus_consistent (set_grab (popup_grab c (remove_popup s popups)) seat))
      by (apply (focus_consistent_fields seat); [reflexivity|reflexivity|exact Hc]).
    destruct (remove_popup s popups).
    + exact (end_popup_grab_consistent _ seat' H1 H).
    + inversion H; subst. exact H1.
  - inversion H; subst. intros r Hr. discriminate.
  - inversion H; subst.
    apply (focus_consistent_fields seat); [reflexivity|reflexivity|exact Hc].
  - unfold meta_wayland_pointer_destroy_focus in H.
    destruct (bool_decide (grab (pointer seat) = default_grab)).
    + destruct (button_count (pointer seat) >? 0); [|discriminate].
      exact (set_focus_consistent None seat seat' H).
    + inversion H; subst. exact Hc.
Qed.

(** X9. Over every sequence of operations on the pointer that returns,
    from a seat whose focus is consistent: the focus resource is NULL
    unless the focus surface is not NULL and belongs to the same client,
    so that the focus resource is never sent a leave for a NULL surface. *)
Theorem focus_resource_of_focus_client (os : list op) (seat seat' : MetaWaylandSeat) :
  focus_consistent seat ->
  run relative os seat = Some seat' ->
  focus_consistent seat'
  /\ forall surface, exists seat'', set_focus surface seat' = Some seat''.
Proof.
  revert seat. induction os as [|o os IH]; intros seat Hc H; simpl in H.
  - inversion H; subst. split; [exact Hc|].
    intros surface. now apply focus_consistent_total.
  - destruct (step relative o seat) as [seat1|] eqn:E; simpl in H; [|discriminate].
    apply (IH seat1); [|exact H]. exact (step_consistent o seat seat1 Hc E).
Qed.

Lemma interface_focus_frame (surface : option surface_ref)
    (seat seat' : MetaWaylandSeat) :
  interface_focus relative surface seat = Some seat' -> focus_frame seat seat'.
Proof.
  unfold interface_focus, modal_focus, popup_grab_focus. intros H.
  destruct (grab (pointer seat)) as [| |c popups].
  - exact (default_grab_focus_frame surface seat seat' H).
  - inversion H; subst. apply focus_frame_refl.
  - destruct surface as [s|]; simpl in H; [|discriminate].
    destruct (bool_decide (resource_client s = c)).
    + exact (default_grab_focus_frame (Some s) seat seat' H).
    + exact (set_focus_frame None seat seat' H).
Qed.

Lemma start_grab_grab (g : MetaWaylandPointerGrab) (seat seat' : MetaWaylandSeat) :
  meta_wayland_pointer_start_grab relative g seat = Some seat' ->
  grab (pointer seat') = g.
Proof.
  unfold meta_wayland_pointer_start_grab.
  destruct (current (pointer (set_grab g seat))).
  - intros H. apply interface_focus_frame in H. destruct H as [G _].
    rewrite G. reflexivity.
  - intros H; inversion H; subst. reflexivity.
Qed.

(** X10. A modal grab begun under the default grab, on a seat whose
    focus is consistent, succeeds and leaves no client with the pointer
    focus; ending it installs the default grab again and gives the focus
    to the surface under the pointer, through the pointer resource of its
    client, unless a button is held, in which case the focus stays
    NULL. *)
Theorem modal_grab_round_trip (seat : MetaWaylandSeat) :
  grab (pointer seat) = default_grab ->
  focus_consistent seat ->
  exists seat1 seat2,
    meta_wayland_pointer_begin_modal relative seat = Some (true, seat1)
    /\ grab (pointer seat1) = modal_grab
    /\ focus (pointer seat1) = None
    /\ focus_resource (pointer seat1) = None
    /\ meta_wayland_pointer_end_modal relative seat1 = Some seat2
    /\ grab (pointer seat2) = default_grab
    /\ focus (pointer seat2)
       = (if button_count (pointer seat) >? 0 then None else current (pointer seat))
    /\ focus_resource (pointer seat2)
       = (if button_count (pointer seat) >? 0 then None
          else find_resource_for_surface (resource_list (pointer seat))
                 (current (pointer seat))).
Proof.
  intros Hg Hc.
  destruct (focus_consistent_total None seat Hc) as [seat0 E0].
  destruct (set_focus_post None seat seat0 E0) as [Hf Hr]. simpl in Hr.
  destruct (set_focus_frame None seat seat0 E0) as (G0 & C0 & B0 & R0 & _).
  assert (Es : meta_wayland_pointer_start_grab relative modal_grab seat0
               = Some (set_grab modal_grab seat0)).
  { unfold meta_wayland_pointer_start_grab.
    destruct (current (pointer (set_grab modal_grab seat0))); reflexivity. }
  assert (Eb : meta_wayland_pointer_begin_modal relative seat
               = Some (true, set_grab modal_grab seat0)).
  { unfold meta_wayland_pointer_begin_modal. rewrite Hg.
    rewrite bool_decide_eq_false_2 by (intros H; now apply H).
    rewrite E0. simpl. rewrite Es. reflexivity. }
  set (seat1 := set_grab modal_grab seat0) in *.
  set (seatd := set_grab default_grab seat1).
  assert (Ee : meta_wayland_pointer_end_modal relative seat1
               = default_grab_focus relative (current (pointer seat)) seatd).
  { unfold meta_wayland_pointer_end_modal, meta_wayland_pointer_end_grab.
    subst seatd seat1. simpl. rewrite C0. reflexivity. }
  assert (Bd : button_count (pointer seatd) = button_count (pointer seat))
    by (subst seatd seat1; simpl; exact B0).
  assert (Rd : resource_list (pointer seatd) = resource_list (pointer seat))
    by (subst seatd seat1; simpl; exact R0).
  unfold default_grab_focus in Ee. rewrite Bd in Ee.
  destruct (button_count (pointer seat) >? 0) eqn:Eq.
  - exists seat1, seatd. subst seatd seat1. simpl. repeat split; auto.
  - assert (Ht : exists seat2,
               set_focus (current (pointer seat)) seatd = Some seat2).
    { apply set_focus_total. subst seatd seat1. simpl. congruence. }
    destruct Ht as [seat2 E2]. rewrite E2 in Ee.
    destruct (set_focus_post _ seatd seat2 E2) as [Hf2 Hr2].
    destruct (set_focus_frame _ seatd seat2 E2) as (G2 & _).
    exists seat1, seat2. rewrite Rd in Hr2.
    subst seat1. simpl. repeat split; auto.
Qed.

(** A popup grab tracks one popup, of the client that owns the grab. *)
Definition popup_grab_of_one (seat : MetaWaylandSeat) : Prop :=
  forall c popups, grab (pointer seat) = popup_grab c popups ->
    exists s, popups = [s] /\ resource_client s = c.

Lemma popup_grab_of_one_grab (seat seat' : MetaWaylandSeat) :
  grab (pointer seat') = grab (pointer seat) ->
  popup_grab_of_one seat -> popup_grab_of_one seat'.
Proof. intros G H c popups. rewrite G. apply H. Qed.

Lemma popup_grab_of_one_other (seat : MetaWaylandSeat) :
  is_popup_grab (grab (pointer seat)) = false -> popup_grab_of_one seat.
Proof. intros H c popups E. rewrite E in H. discriminate. Qed.

Lemma step_popup_grab_of_one (o : op) (seat seat' : MetaWaylandSeat) :
  popup_grab_of_one seat -> step relative o seat = Some seat' ->
  popup_grab_of_one seat'.
Proof.
  intros Hc H.
  destruct o as [s|n|r|s|e|e| | |s|s| | |]; simpl in H.
  - inversion H; subst. now apply (popup_grab_of_one_grab seat).
  - inversion H; subst. now apply (popup_grab_of_one_grab seat).
  - inversion H; subst. now apply (popup_grab_of_one_grab seat).
  - apply interface_focus_frame in H. destruct H as [G _].
    now apply (popup_grab_of_one_grab seat).
  - unfold interface_motion, modal_motion, popup_grab_motion in H.
    assert (F : focus_frame seat seat').
    { destruct (grab (pointer seat));
        try exact (default_grab_motion_frame e seat seat' H).
      inversion H; subst. apply focus_frame_refl. }
    destruct F as [G _]. now apply (popup_grab_of_one_grab seat).
  - unfold interface_button, modal_button, popup_grab_button in H.
    destruct (grab (pointer seat)) as [| |c popups] eqn:Eg.
    + apply default_grab_button_frame in H. destruct H as [G _].
      apply popup_grab_of_one_other. rewrite G, Eg. reflexivity.
    + inversion H; subst. exact Hc.
    + destruct (focus_resource (pointer seat)) as [r|].
      * destruct (bool_decide (resource_client r = c)); [|discriminate].
        apply default_grab_button_frame in H. destruct H as [G _].
        apply (popup_grab_of_one_grab seat); [congruence|exact Hc].
      * destruct (_ && _).
        -- apply (end_popup_grab_default seat seat' c popups Eg) in H.
           destruct H as [G _]. apply popup_grab_of_one_other. now rewrite G.
        -- inversion H; subst. exact Hc.
  - unfold meta_wayland_pointer_begin_modal in H.
    destruct (bool_decide (grab (pointer seat) ≠ default_grab)); simpl in H.
    + inversion H; subst. exact Hc.
    + destruct (set_focus None seat) as [seat1|] eqn:E1; simpl in H; [|discriminate].
      destruct (meta_wayland_pointer_start_grab relative modal_grab seat1)
        as [seat2|] eqn:E2; simpl in H; [|discriminate].
      inversion H; subst. apply start_grab_grab in E2.
      apply popup_grab_of_one_other. now rewrite E2.
  - unfold meta_wayland_pointer_end_modal in H.
    destruct (grab (pointer seat)); try discriminate.
    apply end_grab_default in H. destruct H as [G _].
    apply popup_grab_of_one_other. now rewrite G.
  - unfold meta_wayland_pointer_start_popup_grab in H.
    destruct (bool_decide (grab (pointer seat) ≠ default_grab)) eqn:En; simpl in H.
    + destruct (grab (pointer seat)) as [| |c popups] eqn:Eg;
        try (inversion H; subst; exact Hc).
      destruct (bool_decide (resource_client s ≠ c)); inversion H; subst; exact Hc.
    + destruct (bool_decide (grab (pointer seat) = default_grab)) eqn:Ed; simpl in H.
      * destruct (meta_wayland_pointer_start_grab relative
                    (popup_grab (resource_client s) []) seat) as [seat1|] eqn:E1;
          simpl in H; [|discriminate].
        inversion H; subst. apply start_grab_grab in E1.
        unfold insert_popup. rewrite E1. intros c popups E. simpl in E.
        inversion E; subst. eauto.
      * apply bool_decide_eq_false in En. apply bool_decide_eq_false in Ed.
        contradiction.
  - unfold on_popup_surface_destroy in H.
    destruct (grab (pointer seat)) as [| |c popups] eqn:Eg; try discriminate.
    destruct (bool_decide (s ∈ popups)) eqn:Es; [|discriminate].
    apply bool_decide_eq_true in Es.
    destruct (Hc c popups Eg) as (s0 & -> & Hs0).
    apply list_elem_of_singleton in Es. subst s0.
    simpl in H. rewrite bool_decide_eq_true_2 in H by reflexivity.
    apply (end_popup_grab_default _ seat' c []) in H; [|reflexivity].
    destruct H as [G _]. apply popup_grab_of_one_other. now rewrite G.
  - inversion H; subst. apply (popup_grab_of_one_grab seat); [|exact Hc].
    unfold lose_pointer_focus. reflexivity.
  - inversion H; subst. now apply (popup_grab_of_one_grab seat).
  - unfold meta_wayland_pointer_destroy_focus in H.
    destruct (bool_decide (grab (pointer seat) = default_grab)).
    + destruct (button_count (pointer seat) >? 0); [|discriminate].
      apply set_focus_frame in H. destruct H as [G _].
      now apply (popup_grab_of_one_grab seat).
    + inversion H; subst. exact Hc.
Qed.

(** X11. Whatever reaches the pointer, a popup grab tracks exactly one
    popup, a surface of the client that owns the grab: a grab is started
    with one popup, no request adds a second one to it, and the grab ends
    when its popup is destroyed. *)
Theorem popup_grab_tracks_one_popup (os : list op) (seat seat' : MetaWaylandSeat) :
  popup_grab_of_one seat ->
  run relative os seat = Some seat' ->
  forall c popups, grab (pointer seat') = popup_grab c popups ->
    exists s, popups = [s] /\ resource_client s = c.
Proof.
  revert seat. induction os as [|o os IH]; intros seat Hc H; simpl in H.
  - inversion H; subst. exact Hc.
  - destruct (step relative o seat) as [seat1|] eqn:E; simpl in H; [|discriminate].
    apply (IH seat1); [|exact H]. exact (step_popup_grab_of_one o seat seat1 Hc E).
Qed.

Lemma evdev_button_value (button : Z) :
  0 <= button < 4294967296 ->
  (button = 2 /\ evdev_button button = 0x112)
  \/ (button = 3 /\ evdev_button button = 0x111)
  \/ (button <> 2 /\ button <> 3
      /\ ((button + 0x10f < 4294967296 /\ evdev_button button = button + 0x10f)
          \/ (4294967296 <= button + 0x10f
              /\ evdev_button button = button + 0x10f - 4294967296))).
Proof.
  intros Hb.
  destruct (Z.eq_dec button 2) as [->|H2]; [left; split; reflexivity|].
  destruct (Z.eq_dec button 3) as [->|H3]; [right; left; split; reflexivity|].
  right; right. split; [exact H2|]. split; [exact H3|].
  unfold evdev_button, BTN_LEFT.
  rewrite (proj2 (Z.eqb_neq button 2) H2), (proj2 (Z.eqb_neq button 3) H3).
  change (2^32) with 4294967296.
  replace (button + 0x110 - 1) with (button + 0x10f) by lia.
  destruct (Z_lt_le_dec (button + 0x10f) 4294967296) as [L|L].
  - left. split; [exact L|]. apply Z.mod_small. lia.
  - right. split; [exact L|].
    replace (button + 0x10f) with (button + 0x10f - 4294967296 + 1 * 4294967296)
      at 1 by lia.
    rewrite Z.mod_add by lia. apply Z.mod_small. lia.
Qed.

(** X12. The button sent to the client identifies the Clutter button:
    over the uint32 button numbers, two different buttons are never sent
    as the same evdev code, the swap of the middle and right buttons and
    the wrap-around of the addition included. *)
Theorem evdev_button_injective (a b : Z) :
  0 <= a < 2^32 -> 0 <= b < 2^32 -> a <> b ->
  evdev_button a <> evdev_button b.
Proof.
  change (2^32) with 4294967296. intros Ha Hb Hab.
  destruct (evdev_button_value a Ha) as [[? ->]|[[? ->]|(? & ? & [[? ->]|[? ->]])]];
    destruct (evdev_button_value b Hb) as [[? ->]|[[? ->]|(? & ? & [[? ->]|[? ->]])]];
    lia.
Qed.

(** *** The serial of the last enter *)

Definition enter_serial (m : message) : option Z :=
  match m with
  | wl_pointer_send_enter _ serial _ _ _ => Some serial
  | _ => None
  end.

(** The serial of the last wl_pointer.enter on the wire, if any. *)
Definition last_enter (w : list message) : option Z :=
  last (omap enter_serial w).

Definition enter_serial_recorded (seat : MetaWaylandSeat) : Prop :=
  forall n, last_enter (wire seat) = Some n -> focus_serial (pointer seat) = n.

(** Steps that send no enter and keep [focus_serial]. *)
Definition quiet (seat seat' : MetaWaylandSeat) : Prop :=
  focus_serial (pointer seat') = focus_serial (pointer seat)
  /\ exists tail, wire seat' = wire seat ++ tail /\ omap enter_serial tail = [].

Lemma quiet_refl (seat : MetaWaylandSeat) : quiet seat seat.
Proof. split; [reflexivity|]. exists []. now rewrite app_nil_r. Qed.

Lemma quiet_trans (s1 s2 s3 : MetaWaylandSeat) :
  quiet s1 s2 -> quiet s2 s3 -> quiet s1 s3.
Proof.
  intros (F1 & t1 & W1 & O1) (F2 & t2 & W2 & O2).
  split; [congruence|]. exists (t1 ++ t2).
  rewrite W2, W1, app_assoc, omap_app, O1, O2. split; reflexivity.
Qed.

Lemma quiet_recorded (seat seat' : MetaWaylandSeat) :
  quiet seat seat' -> enter_serial_recorded seat -> enter_serial_recorded seat'.
Proof.
  intros (F & t & W & O) H n. unfold last_enter.
  rewrite W, omap_app, O, app_nil_r, F. apply H.
Qed.

Lemma quiet_same_wire (seat seat' : MetaWaylandSeat) :
  focus_serial (pointer seat') = focus_serial (pointer seat) ->
  wire seat' = wire seat -> quiet seat seat'.
Proof. intros F W. split; [exact F|]. exists []. now rewrite app_nil_r. Qed.

Lemma quiet_send (m : message) (seat : MetaWaylandSeat) :
  enter_serial m = None -> quiet seat (send m seat).
Proof.
  intros E. split; [reflexivity|]. exists [m]. split; [reflexivity|].
  simpl. now rewrite E.
Qed.

Lemma set_focus_recorded (surface : option surface_ref)
    (seat seat' : MetaWaylandSeat) :
  enter_serial_recorded seat ->
  set_focus surface seat = Some seat' -> enter_serial_recorded seat'.
Proof.
  unfold meta_wayland_pointer_set_focus, enter_serial_recorded, last_enter.
  destruct seat as [[rl f fr fs cur bc g px py] kbd serial w]; simpl.
  intros Hc H.
  destruct fr as [r0|]; simpl in H;
    [destruct (bool_decide (f ≠ surface)); simpl in H;
       [destruct f as [old|]; simpl in H; [|discriminate]|]|];
    destruct (find_resource_for_surface rl surface) as [r|];
    destruct surface as [s|]; simpl in H;
    branches H;
    inversion H; subst; simpl; intros n;
    rewrite ?omap_app; simpl; rewrite ?app_nil_r, ?last_snoc;
    try (intros Hn; inversion Hn; subst; reflexivity);
    try apply Hc.
Qed.

Lemma default_grab_focus_recorded (surface : option surface_ref)
    (seat seat' : MetaWaylandSeat) :
  enter_serial_recorded seat ->
  default_grab_focus relative surface seat = Some seat' ->
  enter_serial_recorded seat'.
Proof.
  unfold default_grab_focus. intros Hc.
  destruct (button_count (pointer seat) >? 0).
  - intros H; inversion H; subst. exact Hc.
  - now apply set_focus_recorded.
Qed.

Lemma default_grab_button_recorded (event : ClutterEvent)
    (seat seat' : MetaWaylandSeat) :
  enter_serial_recorded seat ->
  default_grab_button relative event seat = Some seat' ->
  enter_serial_recorded seat'.
Proof.
  unfold default_grab_button. intros Hc.
  set (seat1 := match focus_resource (pointer seat) with
                | Some _ => _ | None => seat end).
  assert (H1 : enter_serial_recorded seat1).
  { subst seat1. destruct (focus_resource (pointer seat)); [|exact Hc].
    simpl. eapply quiet_recorded; [apply quiet_send; reflexivity|].
    eapply quiet_recorded; [|exact Hc]. apply quiet_same_wire; reflexivity. }
  destruct (_ && _).
  - now apply set_focus_recorded.
  - intros H; inversion H; subst. exact H1.
Qed.

Lemma end_grab_recorded (seat seat' : MetaWaylandSeat) :
  enter_serial_recorded seat ->
  meta_wayland_pointer_end_grab relative seat = Some seat' ->
  enter_serial_recorded seat'.
Proof.
  unfold meta_wayland_pointer_end_grab. intros Hc.
  apply default_grab_focus_recorded. exact Hc.
Qed.

Lemma end_popup_grab_recorded (seat seat' : MetaWaylandSeat) :
  enter_serial_recorded seat ->
  meta_wayland_pointer_end_popup_grab relative seat = Some seat' ->
  enter_serial_recorded seat'.
Proof.
  unfold meta_wayland_pointer_end_popup_grab. intros Hc.
  destruct (grab (pointer seat)) as [| |c popups] eqn:Eg; try discriminate.
  apply end_grab_recorded.
  destruct (send_popup_done_all popups (set_grab (popup_grab c []) seat)) as [Hp Hw].
  simpl in Hp, Hw.
  apply (quiet_recorded seat); [|exact Hc].
  split; [now rewrite Hp|].
  eexists. split; [exact Hw|].
  clear. induction popups as [|p popups IH]; [reflexivity|exact IH].
Qed.

Lemma interface_focus_recorded (surface : option surface_ref)
    (seat seat' : MetaWaylandSeat) :
  enter_serial_recorded seat ->
  interface_focus relative surface seat = Some seat' -> enter_serial_recorded seat'.
Proof.
  unfold interface_focus, modal_focus, popup_grab_focus. intros Hc H.
  destruct (grab (pointer seat)) as [| |c popups].
  - exact (default_grab_focus_recorded surface seat seat' Hc H).
  - inversion H; subst. exact Hc.
  - destruct surface as [s|]; simpl in H; [|discriminate].
    destruct (bool_decide (resource_client s = c)).
    + exact (default_grab_focus_recorded (Some s) seat seat' Hc H).
    + exact (set_focus_recorded None seat seat' Hc H).
Qed.

Lemma start_grab_recorded (g : MetaWaylandPointerGrab) (seat seat' : MetaWaylandSeat) :
  enter_serial_recorded seat ->
  meta_wayland_pointer_start_grab relative g seat = Some seat' ->
  enter_serial_recorded seat'.
Proof.
  unfold meta_wayland_pointer_start_grab. intros Hc.
  destruct (current (pointer (set_grab g seat))).
  - apply interface_focus_recorded. exact Hc.
  - intros H; inversion H; subst. exact Hc.
Qed.

Lemma step_recorded (o : op) (seat seat' : MetaWaylandSeat) :
  enter_serial_recorded seat -> step relative o seat = Some seat' ->
  enter_serial_recorded seat'.
Proof.
  intros Hc H.
  destruct o as [s|n|r|s|e|e| | |s|s| | |]; simpl in H.
  - inversion H; subst. exact Hc.
  - inversion H; subst. exact Hc.
  - inversion H; subst. exact Hc.
  - exact (interface_focus_recorded s seat seat' Hc H).
  - unfold interface_motion, modal_motion, popup_grab_motion in H.
    assert (Hm : default_grab_motion relative e seat = Some seat' ->
                 enter_serial_recorded seat').
    { unfold default_grab_motion. intros Hd.
      destruct (focus_resource (pointer seat)) eqn:E; simpl in Hd.
      - destruct (focus (pointer seat)) eqn:Ef; simpl in Hd; [|discriminate].
        destruct (relative _ _). inversion Hd; subst.
        eapply quiet_recorded; [apply quiet_send; reflexivity|exact Hc].
      - inversion Hd; subst. exact Hc. }
    destruct (grab (pointer seat)); auto. inversion H; subst. exact Hc.
  - unfold interface_button, modal_button, popup_grab_button in H.
    destruct (grab (pointer seat)) as [| |c popups].
    + exact (default_grab_button_recorded e seat seat' Hc H).
    + inversion H; subst. exact Hc.
    + destruct (focus_resource (pointer seat)) as [r|].
      * destruct (bool_decide (resource_client r = c)); [|discriminate].
        exact (default_grab_button_recorded e seat seat' Hc H).
      * destruct (_ && _).
        -- exact (end_popup_grab_recorded seat seat' Hc H).
        -- inversion H; subst. exact Hc.
  - unfold meta_wayland_pointer_begin_modal in H.
    destruct (bool_decide (grab (pointer seat) ≠ default_grab)); simpl in H.
    + inversion H; subst. exact Hc.
    + destruct (set_focus None seat) as [seat1|] eqn:E1; simpl in H; [|discriminate].
      destruct (meta_wayland_pointer_start_grab relative modal_grab seat1)
        as [seat2|] eqn:E2; simpl in H; [|discriminate].
      inversion H; subst.
      apply (start_grab_recorded modal_grab seat1 seat'); [|exact E2].
      exact (set_focus_recorded None seat seat1 Hc E1).
  - unfold meta_wayland_pointer_end_modal in H.
    destruct (grab (pointer seat)); try discriminate.
    exact (end_grab_recorded seat seat' Hc H).
  - unfold meta_wayland_pointer_start_popup_grab in H.
    destruct (bool_decide (grab (pointer seat) ≠ default_grab)); simpl in H.
    + destruct (grab (pointer seat)) as [| |c popups];
        try (inversion H; subst; exact Hc).
      destruct (bool_decide (resource_client s ≠ c)); inversion H; subst; exact Hc.
    + assert (Hi : forall st, enter_serial_recorded st ->
                     enter_serial_recorded (insert_popup s st)).
      { intros st Hst. unfold insert_popup. destruct (grab (pointer st)); exact Hst. }
      destruct (bool_decide (grab (pointer seat) = default_grab)); simpl in H.
      * destruct (meta_wayland_pointer_start_grab relative
                    (popup_grab (resource_client s) []) seat) as [seat1|] eqn:E1;
          simpl in H; [|discriminate].
        inversion H; subst. apply Hi.
        exact (start_grab_recorded _ seat seat1 Hc E1).
      * inversion H; subst. apply Hi, Hc.
  - unfold on_popup_surface_destroy in H.
    destruct (grab (pointer seat)) as [| |c popups]; try discriminate.
    destruct (bool_decide (s ∈ popups)); [|discriminate].
    destruct (remove_popup s popups).
    + apply (end_popup_grab_recorded (set_grab (popup_grab c []) seat) seat');
        [exact Hc|exact H].
    + inversion H; subst. exact Hc.
  - inversion H; subst. exact Hc.
  - inversion H; subst. exact Hc.
  - unfold meta_wayland_pointer_destroy_focus in H.
    destruct (bool_decide (grab (pointer seat) = default_grab)).
    + destruct (button_count (pointer seat) >? 0); [|discriminate].
      exact (set_focus_recorded None seat seat' Hc H).
    + inversion H; subst. exact Hc.
Qed.

(** X13. Whatever reaches the pointer, [focus_serial] is the serial of
    the last wl_pointer.enter that was sent: it is written when an enter
    is sent and by nothing else. *)
Theorem focus_serial_of_last_enter (os : list op) (seat seat' : MetaWaylandSeat)
    (n : Z) :
  enter_serial_recorded seat ->
  run relative os seat = Some seat' ->
  last_enter (wire seat') = Some n ->
  focus_serial (pointer seat') = n.
Proof.
  revert seat. induction os as [|o os IH]; intros seat Hc H; simpl in H.
  - inversion H; subst. apply Hc.
  - destruct (step relative o seat) as [seat1|] eqn:E; simpl in H; [|discriminate].
    apply (IH seat1); [|exact H]. exact (step_recorded o seat seat1 Hc E).
Qed.

End WithCoordinates.


(** *** Concrete seats *)

(** A scene in which every surface has the pointer at its origin. *)
Definition origin (p : MetaWaylandPointer) (s : surface_ref) : Z * Z := (0, 0).

(** Two surfaces of client 1 and the pointer resource of that client. *)
Definition popup_1 : surface_ref := WlResource 1 1%nat.
Definition popup_2 : surface_ref := WlResource 2 1%nat.
Definition pointer_of_client_1 : wl_resource := WlResource 9 1%nat.

Definition release_event : ClutterEvent := Event CLUTTER_BUTTON_RELEASE 100 1.

Definition seat_0 : MetaWaylandSeat := meta_wayland_pointer_init 0 0.

(** The seat once client 1, which has bound no pointer resource, has
    opened [popup_1] and the pointer has moved over it. *)
Definition seat_over_popup : MetaWaylandSeat :=
  MkSeat (MkPointer [] (Some popup_1) None 0 None 0 (popup_grab 1%nat [popup_1]) 0 0)
         (MkKeyboard [] 0 0 0 0) 0 [].

Example seat_over_popup_reached :
  run origin [StartPopupGrab popup_1; GrabFocus (Some popup_1)] seat_0
  = Some seat_over_popup.
Proof. vm_compute. reflexivity. Qed.

(** The failing input of C4: client 1 owns the popup grab and asks for a
    second popup, [popup_2]; the request returns FALSE and [popup_2] is
    not tracked. *)
Example start_popup_grab_same_client :
  resource_client popup_2 = 1%nat
  /\ meta_wayland_pointer_start_popup_grab origin popup_2 seat_over_popup
     = Some (false, seat_over_popup).
Proof. vm_compute. split; reflexivity. Qed.

(** C7, as stated, fails: the pointer focus is [popup_1], a popup the
    grab owns, and not NULL; a button release with no button held ends the
    grab all the same, because the client has no pointer resource and the
    focus resource is NULL. *)
Lemma popup_grab_ends_over_popup_counterexample :
  grab (pointer seat_over_popup) = popup_grab 1%nat [popup_1]
  /\ focus (pointer seat_over_popup) = Some popup_1
  /\ resource_client popup_1 = 1%nat
  /\ button_count (pointer seat_over_popup) = 0
  /\ exists seat',
       step origin (GrabButton release_event) seat_over_popup = Some seat'
       /\ grab (pointer seat') = default_grab
       /\ wire seat' = [wl_shell_surface_send_popup_done popup_1].
Proof.
  repeat split. eexists. vm_compute. repeat split; reflexivity.
Qed.

Lemma popup_grab_ends_witness :
  exists seat',
    step origin (GrabButton release_event) seat_over_popup = Some seat'
    /\ grab (pointer seat') = default_grab
    /\ forall s, s ∈ popups_after (GrabButton release_event) [popup_1] ->
         wl_shell_surface_send_popup_done s ∈ wire seat'.
Proof.
  apply (popup_grab_ends origin seat_over_popup 1%nat [popup_1]
           (GrabButton release_event)).
  - reflexivity.
  - intros H. exfalso. apply H. reflexivity.
  - repeat split; reflexivity.
Defined.

Lemma begin_modal_exclusive_witness :
  meta_wayland_pointer_begin_modal origin seat_over_popup
    = Some (false, seat_over_popup)
  /\ exists seat', meta_wayland_pointer_begin_modal origin seat_0 = Some (true, seat')
       /\ grab (pointer seat') = modal_grab.
Proof.
  split.
  - apply (begin_modal_exclusive origin seat_over_popup). discriminate.
  - apply (begin_modal_exclusive origin seat_0). reflexivity.
Defined.

(** The pointer focused on [popup_1] through the pointer resource of its
    client. *)
Definition seat_focused : MetaWaylandSeat :=
  MkSeat (MkPointer [pointer_of_client_1] (Some popup_1) (Some pointer_of_client_1)
            4 (Some popup_1) 0 default_grab 0 0)
         (MkKeyboard [] 0 0 0 0) 4 [].

Example seat_focused_reached :
  run origin [BindPointer pointer_of_client_1; SetCurrent (Some popup_1);
              GrabFocus (Some popup_1)]
      (MkSeat (MkPointer [] None None 0 None 0 default_grab 0 0)
              (MkKeyboard [] 0 0 0 0) 3 [])
  = Some (send (wl_pointer_send_enter pointer_of_client_1 4 popup_1 0 0) seat_focused).
Proof. vm_compute. reflexivity. Qed.

Lemma set_focus_idempotent_witness :
  meta_wayland_pointer_set_focus origin (Some popup_1) seat_focused = Some seat_focused.
Proof.
  apply (set_focus_idempotent origin seat_focused (Some popup_1)); reflexivity.
Defined.

(** A run on which the pointer enters and leaves [popup_1] while client 1
    opens it as a popup and a modal grab is refused. *)
Definition popup_session : list op :=
  [BindPointer pointer_of_client_1; SetCurrent (Some popup_1);
   GrabFocus (Some popup_1); StartPopupGrab popup_1; StartPopupGrab popup_2;
   BeginModal; GrabFocus (Some (WlResource 5 2%nat))].

Lemma focus_consistent_init (x0 y0 : Z) :
  focus_consistent (meta_wayland_pointer_init x0 y0).
Proof. intros r H. discriminate. Qed.

Lemma popup_grab_of_one_init (x0 y0 : Z) :
  popup_grab_of_one (meta_wayland_pointer_init x0 y0).
Proof. intros c popups H. discriminate. Qed.

Lemma focus_resource_of_focus_client_witness :
  exists seat', run origin popup_session seat_0 = Some seat'
    /\ focus_consistent seat'
    /\ forall surface, exists seat'',
         meta_wayland_pointer_set_focus origin surface seat' = Some seat''.
Proof.
  eexists. split; [vm_compute; reflexivity|].
  apply (focus_resource_of_focus_client origin popup_session seat_0).
  - apply focus_consistent_init.
  - vm_compute. reflexivity.
Defined.

Lemma modal_grab_round_trip_witness :
  exists seat1 seat2,
    meta_wayland_pointer_begin_modal origin seat_focused = Some (true, seat1)
    /\ grab (pointer seat1) = modal_grab
    /\ focus (pointer seat1) = None
    /\ focus_resource (pointer seat1) = None
    /\ meta_wayland_pointer_end_modal origin seat1 = Some seat2
    /\ grab (pointer seat2) = default_grab
    /\ focus (pointer seat2) = Some popup_1
    /\ focus_resource (pointer seat2) = Some pointer_of_client_1.
Proof.
  apply (modal_grab_round_trip origin seat_focused).
  - reflexivity.
  - intros r H. vm_compute in H. inversion H; subst.
    exists popup_1. split; reflexivity.
Defined.

Lemma popup_grab_tracks_one_popup_witness :
  exists seat', run origin popup_session seat_0 = Some seat'
    /\ forall c popups, grab (pointer seat') = popup_grab c popups ->
         exists s, popups = [s] /\ resource_client s = c.
Proof.
  eexists. split; [vm_compute; reflexivity|].
  apply (popup_grab_tracks_one_popup origin popup_session seat_0).
  - apply popup_grab_of_one_init.
  - vm_compute. reflexivity.
Defined.

Lemma evdev_button_injective_witness :
  evdev_button 2 <> evdev_button 3
  /\ evdev_button 1 <> evdev_button (2^32 - 1).
Proof.
  split.
  - apply (evdev_button_injective 2 3); lia.
  - apply (evdev_button_injective 1 (2^32 - 1)); lia.
Defined.

Lemma focus_serial_of_last_enter_witness :
  exists seat', run origin popup_session seat_0 = Some seat'
    /\ last_enter (wire seat') = Some 1
    /\ focus_serial (pointer seat') = 1.
Proof.
  eexists. split; [vm_compute; reflexivity|]. split; [vm_compute; reflexivity|].
  apply (focus_serial_of_last_enter origin popup_session seat_0).
  - intros n H. discriminate.
  - vm_compute. reflexivity.
  - vm_compute. reflexivity.
Defined.

(** *** Pointer constraining *)

Section ConstrainFacts.

Variable scale : Z.
Hypothesis scale_pos : 0 < scale.

Lemma in_monitor_box_spec (monitor : MetaMonitorInfo) (px py : Z) :
  in_monitor_box scale monitor px py = true <->
  rect_x (rect monitor) * scale <= px
    < (rect_x (rect monitor) + rect_width (rect monitor)) * scale
  /\ rect_y (rect monitor) * scale <= py
    < (rect_x (rect monitor) + rect_height (rect monitor)) * scale.
Proof.
  unfold in_monitor_box, of_int.
  rewrite !andb_true_iff, !Z.geb_le, !Z.ltb_lt. tauto.
Qed.

(** The clamp of the monitor the pointer comes from. *)
Lemma constrain_first (monitor : MetaMonitorInfo) (rest : list MetaMonitorInfo)
    (cx cy px py : Z) :
  in_monitor_box scale monitor cx cy = true ->
  let '(px', py') :=
    constrain_all_screen_monitors scale (monitor :: rest) cx cy px py in
  let left := rect_x (rect monitor) in
  let right := left + rect_width (rect monitor) in
  let top := rect_y (rect monitor) in
  let bottom := left + rect_height (rect monitor) in
  px' = (if px <? left * scale then left * scale
         else if px >=? right * scale then (right - 1) * scale else px)
  /\ py' = (if py <? top * scale then top * scale
            else if py >=? bottom * scale then (bottom - 1) * scale else py)
  /\ in_monitor_box scale monitor px' py' = true.
Proof.
  intros Hin. simpl. rewrite Hin.
  apply in_monitor_box_spec in Hin. destruct Hin as [Hx Hy].
  unfold of_int. cbv zeta.
  set (left := rect_x (rect monitor)) in *.
  set (top := rect_y (rect monitor)) in *.
  set (w := rect_width (rect monitor)) in *.
  set (h := rect_height (rect monitor)) in *.
  assert (Lw : left < left + w)
    by (apply (Z.mul_lt_mono_pos_r scale); lia).
  assert (Lh : top < left + h)
    by (apply (Z.mul_lt_mono_pos_r scale); lia).
  assert (Hw : left * scale <= (left + w - 1) * scale < (left + w) * scale).
  { split; [apply Z.mul_le_mono_nonneg_r; lia|apply Z.mul_lt_mono_pos_r; lia]. }
  assert (Hh : top * scale <= (left + h - 1) * scale < (left + h) * scale).
  { split; [apply Z.mul_le_mono_nonneg_r; lia|apply Z.mul_lt_mono_pos_r; lia]. }
  split; [|split].
  - destruct (px <? left * scale) eqn:E1.
    + destruct (left * scale >=? (left + w) * scale) eqn:E2; [|reflexivity].
      apply Z.geb_le in E2. lia.
    + reflexivity.
  - destruct (py <? top * scale) eqn:E1.
    + destruct (top * scale >=? (left + h) * scale) eqn:E2; [|reflexivity].
      apply Z.geb_le in E2. lia.
    + reflexivity.
  - apply in_monitor_box_spec. fold left top w h.
    destruct (px <? left * scale) eqn:E1; destruct (py <? top * scale) eqn:E2;
      repeat match goal with
      | |- context [?a >=? ?b] =>
          let E := fresh "E" in destruct (a >=? b) eqn:E
      end;
      repeat match goal with
      | H : (_ <? _) = true |- _ => apply Z.ltb_lt in H
      | H : (_ <? _) = false |- _ => apply Z.ltb_ge in H
      | H : (_ >=? _) = true |- _ => apply Z.geb_le in H
      | H : (_ >=? _) = false |- _ => rewrite Z.geb_leb in H; apply Z.leb_gt in H
      end; lia.
Qed.

(** X14. The pointer stays on the screen: when its current position
    passes the monitor test of [check_all_screen_monitors], so does the
    position that [pointer_constrain_callback] leaves, wherever the
    motion pointed to. *)
Theorem constrained_pointer_stays_on_screen (monitors : list MetaMonitorInfo)
    (current_x current_y new_x new_y : Z) :
  check_all_screen_monitors scale monitors current_x current_y = true ->
  let '(px, py) :=
    pointer_constrain_callback scale monitors current_x current_y new_x new_y in
  check_all_screen_monitors scale monitors px py = true.
Proof.
  intros Hc. unfold pointer_constrain_callback.
  destruct (check_all_screen_monitors scale monitors new_x new_y) eqn:En;
    [exact En|].
  clear En. induction monitors as [|m rest IH]; [discriminate|].
  destruct (in_monitor_box scale m current_x current_y) eqn:Em.
  - pose proof (constrain_first m rest current_x current_y new_x new_y Em) as Hf.
    destruct (constrain_all_screen_monitors scale (m :: rest) current_x current_y
                new_x new_y) as [px py].
    destruct Hf as (_ & _ & Hb). simpl. now rewrite Hb.
  - simpl in Hc. rewrite Em in Hc. specialize (IH Hc).
    simpl. rewrite Em.
    destruct (constrain_all_screen_monitors scale rest current_x current_y
                new_x new_y) as [px py].
    destruct (in_monitor_box scale m px py); [reflexivity|exact IH].
Qed.

(** X15. A motion that leaves the only monitor downwards is stopped at
    row rect.x + rect.height - 1, the bottom being computed from the x
    origin of the monitor; its x is kept from rect.x on and below
    rect.x + rect.width. *)
Theorem pointer_stopped_at_bottom (monitor : MetaMonitorInfo)
    (current_x current_y new_x new_y : Z) :
  in_monitor_box scale monitor current_x current_y = true ->
  (rect_x (rect monitor) + rect_height (rect monitor)) * scale <= new_y ->
  let '(px, py) :=
    pointer_constrain_callback scale [monitor] current_x current_y new_x new_y in
  py = (rect_x (rect monitor) + rect_height (rect monitor) - 1) * scale
  /\ rect_x (rect monitor) * scale <= px
     < (rect_x (rect monitor) + rect_width (rect monitor)) * scale.
Proof.
  intros Hin Hy. unfold pointer_constrain_callback.
  assert (En : check_all_screen_monitors scale [monitor] new_x new_y = false).
  { simpl. destruct (in_monitor_box scale monitor new_x new_y) eqn:E; [|reflexivity].
    apply in_monitor_box_spec in E. lia. }
  rewrite En.
  pose proof (constrain_first monitor [] current_x current_y new_x new_y Hin) as Hf.
  destruct (constrain_all_screen_monitors scale [monitor] current_x current_y
              new_x new_y) as [px py].
  destruct Hf as (Hx & Hpy & Hb).
  apply in_monitor_box_spec in Hb. apply in_monitor_box_spec in Hin.
  split.
  - rewrite Hpy.
    destruct (new_y <? rect_y (rect monitor) * scale) eqn:E1.
    + apply Z.ltb_lt in E1. lia.
    + destruct (new_y >=? (rect_x (rect monitor) + rect_height (rect monitor)) * scale)
        eqn:E2; [reflexivity|].
      rewrite Z.geb_leb in E2. apply Z.leb_gt in E2. lia.
  - lia.
Qed.

End ConstrainFacts.

(** Two monitors side by side; the second one has its x origin at 1920
    and its y origin at 0. *)
Definition left_monitor : MetaMonitorInfo := MonitorInfo (MkRectangle 0 0 1920 1080).
Definition right_monitor : MetaMonitorInfo :=
  MonitorInfo (MkRectangle 1920 0 1920 1080).

Lemma constrained_pointer_stays_on_screen_witness :
  let '(px, py) :=
    pointer_constrain_callback 2 [left_monitor; right_monitor] 200 200 (-5) 6001 in
  check_all_screen_monitors 2 [left_monitor; right_monitor] px py = true.
Proof.
  apply (constrained_pointer_stays_on_screen 2); [lia|reflexivity].
Defined.

Lemma pointer_stopped_at_bottom_witness :
  let '(px, py) :=
    pointer_constrain_callback 1 [right_monitor] 2000 500 2500 5000 in
  py = (1920 + 1080 - 1) * 1 /\ 1920 * 1 <= px < (1920 + 1920) * 1.
Proof.
  apply (pointer_stopped_at_bottom 1 ltac:(lia) right_monitor 2000 500 2500 5000).
  - reflexivity.
  - simpl. lia.
Defined.

End PointerFacts.

(** ** Native seat *)
Module SeatNativeFacts.
Import SeatNative.

(** *** Touch slots *)

Lemma first_free_slot_le (l : list (option MetaTouchState)) :
  first_free_slot l <= length l.
Proof. induction l as [|[t|] l IH]; simpl; lia. Qed.

Lemma first_free_slot_below (l : list (option MetaTouchState)) (j : nat) :
  j < first_free_slot l -> exists t, l !! j = Some (Some t).
Proof.
  revert j. induction l as [|[t|] l IH]; simpl; intros j Hj; try lia.
  destruct j as [|j]; simpl; [eauto|]. apply IH. lia.
Qed.

Lemma first_free_slot_free (l : list (option MetaTouchState)) :
  l !! first_free_slot l = Some None \/ first_free_slot l = length l.
Proof.
  induction l as [|[t|] l IH]; simpl; auto.
  destruct IH as [IH|IH]; [left; exact IH|right; lia].
Qed.

Lemma first_free_slot_lowest (l : list (option MetaTouchState)) (i : nat) :
  (forall j, j < i -> exists t, l !! j = Some (Some t)) ->
  l !! i = Some None ->
  first_free_slot l = i.
Proof.
  revert i. induction l as [|[t|] l IH]; intros i Hlow Hi; simpl.
  - discriminate.
  - destruct i as [|i]; [discriminate|].
    f_equal. apply IH; [|exact Hi].
    intros j Hj. apply (Hlow (S j)). lia.
  - destruct i as [|i]; [reflexivity|].
    destruct (Hlow 0%nat) as [t Ht]; [lia|]. discriminate.
Qed.

(** The table after an acquisition. *)
Lemma acquire_table (seat : MetaSeatNative) (d : Z) :
  let slot := first_free_slot (touch_states seat) in
  let table' := touch_states (snd (meta_seat_native_acquire_touch_state seat d)) in
  fst (meta_seat_native_acquire_touch_state seat d) = TouchState slot d
  /\ table' !! slot = Some (Some (TouchState slot d))
  /\ (forall j, j <> slot ->
        table' !! j = touch_states seat !! j
        \/ (table' !! j = Some None /\ length (touch_states seat) <= j))
  /\ length table'
     = if bool_decide (slot = length (touch_states seat))
       then length (touch_states seat) + 5
       else length (touch_states seat).
Proof.
  intros slot table'. subst table'.
  unfold meta_seat_native_acquire_touch_state, ensure_seat_slot_allocated,
    n_alloc_touch_states. fold slot.
  pose proof (first_free_slot_le (touch_states seat)) as Hle. fold slot in Hle.
  destruct (Nat.leb_spec (length (touch_states seat)) slot) as [Hge|Hlt];
    cbv zeta; cbn [fst snd touch_states set_touch_states].
  - assert (Heq : slot = length (touch_states seat)) by lia.
    rewrite bool_decide_eq_true_2 by exact Heq.
    split; [reflexivity|]. split; [|split].
    + apply list_lookup_insert_eq. rewrite length_app, length_replicate. lia.
    + intros j Hj. rewrite list_lookup_insert_ne by auto.
      destruct (decide (j < length (touch_states seat))) as [Hjl|Hjl].
      * left. now apply lookup_app_l.
      * destruct (decide (j < length (touch_states seat) + 5)) as [Hj5|Hj5].
        -- right. split; [|lia]. rewrite lookup_app_r by lia.
           apply lookup_replicate_2. lia.
        -- left. rewrite (lookup_ge_None_2 (touch_states seat)) by lia.
           apply lookup_ge_None_2. rewrite length_app, length_replicate. lia.
    + rewrite length_insert, length_app, length_replicate. reflexivity.
  - rewrite bool_decide_eq_false_2 by lia.
    split; [reflexivity|]. split; [|split].
    + apply list_lookup_insert_eq. lia.
    + intros j Hj. left. now apply list_lookup_insert_ne.
    + apply length_insert.
Qed.

(** The touches that are held sit in the table, each in its own slot. *)
Definition held_in_table (st : MetaSeatNative * list MetaTouchState) : Prop :=
  NoDup (seat_slot <$> snd st)
  /\ forall t, t ∈ snd st -> touch_states (fst st) !! seat_slot t = Some (Some t).

Lemma held_same_slot (st : MetaSeatNative * list MetaTouchState)
    (t1 t2 : MetaTouchState) :
  held_in_table st -> t1 ∈ snd st -> t2 ∈ snd st ->
  seat_slot t1 = seat_slot t2 -> t1 = t2.
Proof.
  intros [_ Htab] H1 H2 Heq.
  apply Htab in H1. apply Htab in H2. rewrite Heq in H1. congruence.
Qed.

Lemma NoDup_fmap_filter {A B} (f : A -> B) (P : A -> Prop)
    `{forall x, Decision (P x)} (l : list A) :
  NoDup (f <$> l) -> NoDup (f <$> filter P l).
Proof.
  induction l as [|x l IH]; simpl; [auto|].
  rewrite NoDup_cons. intros [Hx Hl].
  rewrite filter_cons. destruct (decide (P x)); [|auto].
  simpl. apply NoDup_cons. split; [|auto].
  intros Hin. apply Hx.
  apply list_elem_of_fmap in Hin. destruct Hin as (y & -> & Hy).
  apply list_elem_of_filter in Hy. destruct Hy as [_ Hy].
  apply list_elem_of_fmap. eauto.
Qed.

Lemma touch_step_held (o : touch_op) (st st' : MetaSeatNative * list MetaTouchState) :
  held_in_table st -> touch_step o st = Some st' -> held_in_table st'.
Proof.
  destruct st as [seat held]. intros [Hnd Htab] Hstep.
  cbn [fst snd] in Hnd, Htab. unfold touch_step in Hstep.
  destruct o as [d|ts].
  - destruct (acquire_table seat d) as (Hts & Hnew & Hother & _).
    destruct (meta_seat_native_acquire_touch_state seat d) as [t seat'] eqn:E.
    cbn [fst snd] in Hts, Hnew, Hother. inversion Hstep; subst; clear Hstep.
    assert (Hfresh : forall u, u ∈ held ->
              seat_slot u <> first_free_slot (touch_states seat)).
    { intros u Hu Heq. apply Htab in Hu. rewrite Heq in Hu.
      destruct (first_free_slot_free (touch_states seat)) as [Hf|Hf].
      - congruence.
      - apply lookup_lt_Some in Hu. lia. }
    split; simpl.
    + apply NoDup_cons. split; [|exact Hnd].
      intros Hin. apply list_elem_of_fmap in Hin. destruct Hin as (u & Hu & Hin).
      apply (Hfresh u Hin). now rewrite <- Hu.
    + intros u Hu. apply elem_of_cons in Hu. destruct Hu as [->|Hu].
      * exact Hnew.
      * destruct (Hother (seat_slot u) (Hfresh u Hu)) as [Hsame|[_ Hout]].
        -- rewrite Hsame. now apply Htab.
        -- apply Htab, lookup_lt_Some in Hu. lia.
  - destruct (bool_decide (ts ∈ held)) eqn:Hin; [|discriminate].
    apply bool_decide_eq_true in Hin. inversion Hstep; subst; clear Hstep.
    split; simpl.
    + now apply NoDup_fmap_filter.
    + intros u Hu. apply list_elem_of_filter in Hu. destruct Hu as [Hne Hu].
      rewrite list_lookup_insert_ne; [now apply Htab|].
      intros Heq. apply Hne. symmetry.
      apply (held_same_slot (seat, held) ts u); simpl; auto. now split.
Qed.

Lemma touch_run_held (os : list touch_op) (st st' : MetaSeatNative * list MetaTouchState) :
  held_in_table st -> touch_run os st = Some st' -> held_in_table st'.
Proof.
  revert st. induction os as [|o os IH]; intros st Hst Hrun; simpl in Hrun.
  - inversion Hrun; subst. exact Hst.
  - destruct (touch_step o st) as [st1|] eqn:E; simpl in Hrun; [|discriminate].
    apply (IH st1); [|exact Hrun]. exact (touch_step_held o st st1 Hst E).
Qed.

(** C9. An acquisition returns the lowest free seat slot, and the table
    grows by 5 entries exactly when no entry is free; over every
    interleaving of acquisitions and releases no two touches that are held
    have the same seat slot; and once slot i is released, the next
    acquisition returns i whenever every lower slot is taken. *)
Theorem touch_slots_lowest_free_distinct :
  (forall seat d,
     let touch_state := fst (meta_seat_native_acquire_touch_state seat d) in
     let seat' := snd (meta_seat_native_acquire_touch_state seat d) in
     (forall j, j < seat_slot touch_state ->
        exists t, touch_states seat !! j = Some (Some t))
     /\ (touch_states seat !! seat_slot touch_state = Some None
           /\ n_alloc_touch_states seat' = n_alloc_touch_states seat
         \/ seat_slot touch_state = n_alloc_touch_states seat
           /\ n_alloc_touch_states seat' = n_alloc_touch_states seat + 5)
     /\ touch_states seat' !! seat_slot touch_state = Some (Some touch_state))
  /\ (forall os seat held,
        touch_run os (meta_seat_native_new, []) = Some (seat, held) ->
        NoDup (seat_slot <$> held)
        /\ forall t, t ∈ held -> touch_states seat !! seat_slot t = Some (Some t))
  /\ (forall seat touch_state d,
        touch_states seat !! seat_slot touch_state = Some (Some touch_state) ->
        (forall j, j < seat_slot touch_state ->
           exists t, touch_states seat !! j = Some (Some t)) ->
        seat_slot (fst (meta_seat_native_acquire_touch_state
                          (meta_seat_native_release_touch_state seat touch_state) d))
        = seat_slot touch_state).
Proof.
  split; [|split].
  - intros seat d touch_state seat'. subst touch_state seat'.
    destruct (acquire_table seat d) as (Hts & Hnew & _ & Hlen).
    rewrite Hts. cbn [seat_slot].
    split; [apply first_free_slot_below|]. split; [|exact Hnew].
    unfold n_alloc_touch_states. rewrite Hlen.
    destruct (first_free_slot_free (touch_states seat)) as [Hf|Hf].
    + left. split; [exact Hf|].
      rewrite bool_decide_eq_false_2; [reflexivity|].
      apply lookup_lt_Some in Hf. lia.
    + right. split; [exact Hf|]. now rewrite bool_decide_eq_true_2.
  - intros os seat held Hrun.
    apply (touch_run_held os (meta_seat_native_new, []) (seat, held)); [|exact Hrun].
    split; simpl; [constructor|]. intros t Ht. inversion Ht.
  - intros seat ts d Hlive Hlow.
    destruct (acquire_table (meta_seat_native_release_touch_state seat ts) d)
      as (Hts & _).
    rewrite Hts. cbn [seat_slot meta_seat_native_release_touch_state touch_states
                      set_touch_states].
    apply first_free_slot_lowest.
    + intros j Hj. rewrite list_lookup_insert_ne by lia. now apply Hlow.
    + apply list_lookup_insert_eq. now apply lookup_lt_Some in Hlive.
Qed.


(** Three touches are down, the middle one is lifted, and the next touch
    takes its slot. *)
Definition three_touches : MetaSeatNative :=
  Seat ∅ 0 [Some (TouchState 0 10); Some (TouchState 1 11); Some (TouchState 2 12);
            None; None] 0 0 16 16 [].

Example three_touches_reached :
  touch_run [Acquire 10; Acquire 11; Acquire 12] (meta_seat_native_new, [])
  = Some (three_touches, [TouchState 2 12; TouchState 1 11; TouchState 0 10]).
Proof. vm_compute. reflexivity. Qed.

Lemma touch_slots_lowest_free_distinct_witness :
  seat_slot (fst (meta_seat_native_acquire_touch_state
                    (meta_seat_native_release_touch_state three_touches
                       (TouchState 1 11)) 13))
  = 1%nat.
Proof.
  apply (proj2 (proj2 touch_slots_lowest_free_distinct) three_touches
           (TouchState 1 11) 13%Z).
  - reflexivity.
  - intros j Hj. assert (j = 0%nat) as -> by (simpl in Hj; lia).
    eexists. reflexivity.
Defined.

(** *** Button counting *)

Local Open Scope Z_scope.

(** Whether the count lets a report through: the two tests that follow
    [update_button_count] in [meta_seat_native_notify_button]. *)
Definition passes_button_count (seat : MetaSeatNative) (button state : Z) : bool :=
  let count := fst (update_button_count seat button state) in
  negb (negb (state =? 0) && (count >? 1))
  && negb ((state =? 0) && negb (count =? 0)).


Lemma notify_button_count (seat : MetaSeatNative) (dev : ClutterInputDevice)
    (time_us button state : Z) (b : Z) :
  button_count (meta_seat_native_notify_button seat dev time_us button state) b
  = button_count (snd (update_button_count seat button state)) b.
Proof.
  unfold meta_seat_native_notify_button.
  destruct (update_button_count seat button state) as [count seat1]; simpl.
  repeat (match goal with
          | |- context [if ?c then _ else _] => destruct c; simpl
          | |- context [match ?o with Some _ => _ | None => _ end] =>
              destruct o; simpl
          end); reflexivity.
Qed.



Lemma button_count_insert_eq (seat : MetaSeatNative) (button v : Z) :
  button_count (set_button_count (<[button := v]> (button_counts seat)) seat) button = v.
Proof. unfold button_count. simpl. now rewrite lookup_insert_eq. Qed.


Lemma update_button_count_press (seat : MetaSeatNative) (button : Z) :
  fst (update_button_count seat button 1) = button_count seat button + 1
  /\ button_count (snd (update_button_count seat button 1)) button
     = button_count seat button + 1.
Proof.
  unfold update_button_count. simpl. split; [reflexivity|].
  apply button_count_insert_eq.
Qed.

Lemma update_button_count_release (seat : MetaSeatNative) (button : Z) :
  0 < button_count seat button ->
  fst (update_button_count seat button 0) = button_count seat button - 1
  /\ button_count (snd (update_button_count seat button 0)) button
     = button_count seat button - 1.
Proof.
  intros Hpos. unfold update_button_count. simpl.
  destruct (Z.eqb_spec (button_count seat button) 0) as [He|Hne]; [lia|].
  simpl. split; [reflexivity|]. apply button_count_insert_eq.
Qed.







(** A mouse and a virtual pointer of the same seat, both on stage 1. *)
Definition mouse : ClutterInputDevice :=
  Device 1 CLUTTER_POINTER_DEVICE (Some 1%nat) None 0 0.

Definition virtual_pointer : ClutterInputDevice :=
  Device 2 CLUTTER_POINTER_DEVICE (Some 1%nat) None 0 0.



(** The left button pressed by both devices in a row: one press event,
    with the primary button number. *)
Example left_button_pressed_twice :
  events (notify_buttons BTN_LEFT 1 [(mouse, 1000); (virtual_pointer, 2000)]
            meta_seat_native_new)
  = [button_event CLUTTER_BUTTON_PRESS 1000 1 CLUTTER_BUTTON1_MASK
       CLUTTER_BUTTON_PRIMARY 16 16 None 1 BTN_LEFT].
Proof. vm_compute. reflexivity. Qed.


(** *** Scroll *)

Lemma directions_app (axis : ClutterScrollDirection -> bool) (q1 q2 : list ClutterEvent) :
  discrete_directions axis (q1 ++ q2)
  = discrete_directions axis q1 ++ discrete_directions axis q2.
Proof. unfold discrete_directions. now rewrite omap_app, List.filter_app. Qed.

Lemma filter_replicate (axis : ClutterScrollDirection -> bool) (n : nat)
    (d : ClutterScrollDirection) :
  List.filter axis (replicate n d) = if axis d then replicate n d else [].
Proof.
  induction n as [|n IH]; simpl; [now destruct (axis d)|].
  rewrite IH. now destruct (axis d).
Qed.

Lemma notify_discrete_scroll_staged (seat : MetaSeatNative) (dev : ClutterInputDevice)
    (stage : nat) (time_us source : Z) (d : ClutterScrollDirection) (emulated : bool) :
  device_stage dev = Some stage ->
  d <> CLUTTER_SCROLL_SMOOTH ->
  notify_discrete_scroll seat dev time_us d source emulated
  = queue_event
      (scroll_event d time_us stage (button_state seat) 0 0 (pointer_x seat)
         (pointer_y seat) (device_id dev) source CLUTTER_SCROLL_FINISHED_NONE emulated)
      seat.
Proof.
  intros Hst Hd. unfold notify_discrete_scroll.
  rewrite bool_decide_eq_false_2 by exact Hd. now rewrite Hst.
Qed.

(** [n] calls of [notify_discrete_scroll] from a device with a stage queue
    [n] events of the direction chosen from the accumulators, and leave the
    accumulators alone. *)
Lemma repeat_discrete_scroll (dev : ClutterInputDevice) (stage : nat)
    (time_us source : Z) (pick : MetaSeatNative -> ClutterScrollDirection)
    (n : nat) (seat : MetaSeatNative) :
  device_stage dev = Some stage ->
  (forall s, pick s <> CLUTTER_SCROLL_SMOOTH) ->
  (forall s e, pick (queue_event e s) = pick s) ->
  let seat' :=
    repeat_call n (fun s => notify_discrete_scroll s dev time_us (pick s) source true)
      seat in
  accum_scroll_dx seat' = accum_scroll_dx seat
  /\ accum_scroll_dy seat' = accum_scroll_dy seat
  /\ omap event_direction (events seat')
     = omap event_direction (events seat) ++ replicate n (pick seat).
Proof.
  intros Hst Hns Hq. revert seat.
  induction n as [|n IH]; intros seat; cbn [repeat_call].
  - cbn. now rewrite app_nil_r.
  - rewrite (notify_discrete_scroll_staged seat dev stage) by auto.
    match goal with
    | |- context [repeat_call n _ (queue_event ?e seat)] =>
        destruct (IH (queue_event e seat)) as (Ix & Iy & Ie);
          cbv zeta in Ix, Iy, Ie; cbv zeta; rewrite Ix, Iy, Ie;
          rewrite (Hq seat e)
    end.
    cbn [queue_event accum_scroll_dx accum_scroll_dy events].
    rewrite omap_app. cbn. rewrite <- app_assoc. auto.
Qed.

Section Step.

Variable scale : Z.

Abbreviation STEP := (DISCRETE_SCROLL_STEP scale).

Definition horizontal_finished (r : scroll_report) : bool :=
  negb (Z.land (scroll_finish_flags r) CLUTTER_SCROLL_FINISHED_HORIZONTAL =? 0).

Definition vertical_finished (r : scroll_report) : bool :=
  negb (Z.land (scroll_finish_flags r) CLUTTER_SCROLL_FINISHED_VERTICAL =? 0).

Definition continuous (dev : ClutterInputDevice) (seat : MetaSeatNative)
    (r : scroll_report) : MetaSeatNative :=
  meta_seat_native_notify_scroll_continuous scale seat dev
    (scroll_time_us r) (scroll_dx r) (scroll_dy r) (scroll_source r)
    (scroll_finish_flags r).

(** One continuous report from a device with a stage: the accumulators
    after it and the directions of the events it queues. *)
Lemma continuous_step (dev : ClutterInputDevice) (stage : nat)
    (seat : MetaSeatNative) (r : scroll_report) :
  device_stage dev = Some stage ->
  let ax := if horizontal_finished r then 0 else accum_scroll_dx seat + scroll_dx r in
  let ay := if vertical_finished r then 0 else accum_scroll_dy seat + scroll_dy r in
  accum_scroll_dx (continuous dev seat r) = Z.rem ax STEP
  /\ accum_scroll_dy (continuous dev seat r) = Z.rem ay STEP
  /\ omap event_direction (events (continuous dev seat r))
     = omap event_direction (events seat) ++ [CLUTTER_SCROLL_SMOOTH]
       ++ replicate (Z.to_nat (Z.abs ax / STEP))
            (if ax >? 0 then CLUTTER_SCROLL_RIGHT else CLUTTER_SCROLL_LEFT)
       ++ replicate (Z.to_nat (Z.abs ay / STEP))
            (if ay >? 0 then CLUTTER_SCROLL_DOWN else CLUTTER_SCROLL_UP).
Proof.
  intros Hst ax ay.
  unfold continuous, meta_seat_native_notify_scroll_continuous.
  fold (horizontal_finished r). fold (vertical_finished r). fold ax. fold ay.
  unfold notify_scroll. rewrite Hst.
  set (seat2 := queue_event _ (set_accum_scroll ax ay seat)).
  unfold check_notify_discrete_scroll.
  change (accum_scroll_dx seat2) with ax. change (accum_scroll_dy seat2) with ay.
  assert (HX := repeat_discrete_scroll dev stage (scroll_time_us r) (scroll_source r)
              (fun s => if accum_scroll_dx s >? 0
                        then CLUTTER_SCROLL_RIGHT else CLUTTER_SCROLL_LEFT)
              (Z.to_nat (Z.abs ax / STEP)) seat2 Hst).
  cbv zeta beta in HX.
  destruct HX as (X1 & X2 & X3);
    [intros s; destruct (accum_scroll_dx s >? 0); discriminate|reflexivity|].
  set (seat3 := repeat_call (Z.to_nat (Z.abs ax / STEP)) _ seat2) in *.
  assert (HY := repeat_discrete_scroll dev stage (scroll_time_us r) (scroll_source r)
              (fun s => if accum_scroll_dy s >? 0
                        then CLUTTER_SCROLL_DOWN else CLUTTER_SCROLL_UP)
              (Z.to_nat (Z.abs ay / STEP)) seat3 Hst).
  cbv zeta beta in HY.
  destruct HY as (Y1 & Y2 & Y3);
    [intros s; destruct (accum_scroll_dy s >? 0); discriminate|reflexivity|].
  set (seat4 := repeat_call (Z.to_nat (Z.abs ay / STEP)) _ seat3) in *.
  assert (E2x : accum_scroll_dx seat2 = ax) by reflexivity.
  assert (E2y : accum_scroll_dy seat2 = ay) by reflexivity.
  assert (E2e : omap event_direction (events seat2)
                = omap event_direction (events seat) ++ [CLUTTER_SCROLL_SMOOTH]).
  { subst seat2. cbn [queue_event set_accum_scroll events].
    rewrite omap_app. reflexivity. }
  clearbody seat2 seat3 seat4. simpl.
  rewrite Y1, Y2, X1, X2, E2x, E2y.
  split; [reflexivity|]. split; [reflexivity|].
  rewrite Y3, X3, X2, E2x, E2y, E2e.
  now rewrite <- !app_assoc.
Qed.

Lemma continuous_horizontal (dev : ClutterInputDevice) (stage : nat)
    (seat : MetaSeatNative) (r : scroll_report) :
  device_stage dev = Some stage ->
  let ax := if horizontal_finished r then 0 else accum_scroll_dx seat + scroll_dx r in
  accum_scroll_dx (continuous dev seat r) = Z.rem ax STEP
  /\ discrete_directions is_horizontal (events (continuous dev seat r))
     = discrete_directions is_horizontal (events seat)
       ++ replicate (Z.to_nat (Z.abs ax / STEP))
            (if ax >? 0 then CLUTTER_SCROLL_RIGHT else CLUTTER_SCROLL_LEFT).
Proof.
  intros Hst ax.
  pose proof (continuous_step dev stage seat r Hst) as H. cbv zeta in H.
  fold ax in H. destruct H as (Hx & _ & He).
  split; [exact Hx|].
  unfold discrete_directions. rewrite He. clear Hx He.
  generalize (if vertical_finished r then 0 else accum_scroll_dy seat + scroll_dy r).
  intros ay. clearbody ax.
  rewrite !List.filter_app, !filter_replicate.
  destruct (ax >? 0); destruct (ay >? 0); simpl; rewrite ?app_nil_r; reflexivity.
Qed.

Lemma continuous_vertical (dev : ClutterInputDevice) (stage : nat)
    (seat : MetaSeatNative) (r : scroll_report) :
  device_stage dev = Some stage ->
  let ay := if vertical_finished r then 0 else accum_scroll_dy seat + scroll_dy r in
  accum_scroll_dy (continuous dev seat r) = Z.rem ay STEP
  /\ discrete_directions is_vertical (events (continuous dev seat r))
     = discrete_directions is_vertical (events seat)
       ++ replicate (Z.to_nat (Z.abs ay / STEP))
            (if ay >? 0 then CLUTTER_SCROLL_DOWN else CLUTTER_SCROLL_UP).
Proof.
  intros Hst ay.
  pose proof (continuous_step dev stage seat r Hst) as H. cbv zeta in H.
  fold ay in H. destruct H as (_ & Hy & He).
  split; [exact Hy|].
  unfold discrete_directions. rewrite He. clear Hy He.
  generalize (if horizontal_finished r then 0 else accum_scroll_dx seat + scroll_dx r).
  intros ax. clearbody ay.
  rewrite !List.filter_app, !filter_replicate.
  destruct (ax >? 0); destruct (ay >? 0); simpl; rewrite ?app_nil_r; reflexivity.
Qed.

(** The reports of a sequence, one after the other. *)
Definition continuous_run (dev : ClutterInputDevice) (reports : list scroll_report)
    (seat : MetaSeatNative) : MetaSeatNative :=
  fold_left (continuous dev) reports seat.

Lemma notify_scrolls_run (dev : ClutterInputDevice) (reports : list scroll_report)
    (seat : MetaSeatNative) :
  notify_scrolls scale dev reports seat = continuous_run dev reports seat.
Proof. reflexivity. Qed.

Definition sum_deltas (delta : scroll_report -> Z) (reports : list scroll_report) : Z :=
  fold_right (fun r s => delta r + s) 0 reports.

Lemma sum_deltas_cons (delta : scroll_report -> Z) (r : scroll_report)
    (reports : list scroll_report) :
  sum_deltas delta (r :: reports) = delta r + sum_deltas delta reports.
Proof. reflexivity. Qed.

Lemma sum_deltas_sign (delta : scroll_report -> Z) (P : scroll_report -> Prop)
    (sigma : Z) (reports : list scroll_report) :
  Forall (fun r => P r /\ 0 <= sigma * delta r) reports ->
  0 <= sigma * sum_deltas delta reports.
Proof.
  induction 1 as [|r rs [_ Hr] _ IH].
  - cbn. lia.
  - rewrite sum_deltas_cons. lia.
Qed.

Lemma rem_signed (sigma x s : Z) :
  sigma = 1 \/ sigma = -1 -> 0 <= sigma * x -> 0 < s ->
  sigma * Z.rem x s = (sigma * x) mod s /\ Z.abs x = sigma * x.
Proof.
  intros [->| ->] Hx Hs.
  - rewrite !Z.mul_1_l in *. split; [now apply Z.rem_mod_nonneg|lia].
  - replace x with (- (- x)) at 1 by lia. rewrite Z.rem_opp_l'.
    replace (-1 * - Z.rem (- x) s) with (Z.rem (- x) s) by lia.
    replace (-1 * x) with (- x) in * by lia.
    split; [apply Z.rem_mod_nonneg; lia|lia].
Qed.

Lemma div_mod_step (x t s : Z) :
  0 < s -> 0 <= x -> 0 <= t ->
  (x mod s + t) mod s = (x + t) mod s
  /\ (Z.to_nat (x / s) + Z.to_nat ((x mod s + t) / s))%nat = Z.to_nat ((x + t) / s).
Proof.
  intros Hs Hx Ht. split.
  - now rewrite Zplus_mod_idemp_l.
  - pose proof (Z.mod_pos_bound x s Hs) as Hm.
    pose proof (Z.div_pos x s Hx Hs) as Hq.
    assert (Hq2 : 0 <= (x mod s + t) / s) by (apply Z.div_pos; lia).
    rewrite <- Z2Nat.inj_add by assumption. f_equal.
    rewrite (Z.div_mod x s) at 3 by lia.
    replace (s * (x / s) + x mod s + t) with ((x / s) * s + (x mod s + t)) by lia.
    rewrite Z.div_add_l by lia. reflexivity.
Qed.

Section Axis.

Variable dev : ClutterInputDevice.
Variable axis : ClutterScrollDirection -> bool.
Variable acc : MetaSeatNative -> Z.
Variable delta : scroll_report -> Z.
Variable finished : scroll_report -> bool.
Variables forwards backwards : ClutterScrollDirection.

Hypothesis step_positive : 0 < STEP.

Hypothesis axis_step : forall seat r,
  finished r = false ->
  acc (continuous dev seat r) = Z.rem (acc seat + delta r) STEP
  /\ discrete_directions axis (events (continuous dev seat r))
     = discrete_directions axis (events seat)
       ++ replicate (Z.to_nat (Z.abs (acc seat + delta r) / STEP))
            (if acc seat + delta r >? 0 then forwards else backwards).

(** Deltas of one sign ([sigma] is 1 or -1), none with the finish flag of
    the axis: the events queued are as many as the steps the sum crosses,
    all in one direction, and the accumulator keeps the remainder. *)
Lemma same_sign_run (sigma : Z) (reports : list scroll_report) (seat : MetaSeatNative) :
  sigma = 1 \/ sigma = -1 ->
  0 <= sigma * acc seat < STEP ->
  Forall (fun r => finished r = false /\ 0 <= sigma * delta r) reports ->
  let total := acc seat + sum_deltas delta reports in
  sigma * acc (continuous_run dev reports seat) = (sigma * total) mod STEP
  /\ discrete_directions axis (events (continuous_run dev reports seat))
     = discrete_directions axis (events seat)
       ++ replicate (Z.to_nat ((sigma * total) / STEP))
            (if sigma >? 0 then forwards else backwards).
Proof.
  intros Hsig. revert seat.
  induction reports as [|r reports IH]; intros seat Ha Hall.
  - cbn. rewrite Z.add_0_r, Z.mod_small, Z.div_small by lia.
    cbn. now rewrite app_nil_r.
  - rewrite sum_deltas_cons. cbn [continuous_run fold_left]. cbv zeta.
    apply Forall_cons in Hall. destruct Hall as [[Hf Hd] Hall].
    destruct (axis_step seat r Hf) as [Hacc Hdir].
    assert (Hx : 0 <= sigma * (acc seat + delta r)) by lia.
    destruct (rem_signed sigma (acc seat + delta r) STEP Hsig Hx step_positive)
      as [Hrem Habs].
    set (seat1 := continuous dev seat r) in *.
    assert (Ha1 : 0 <= sigma * acc seat1 < STEP).
    { rewrite Hacc, Hrem. now apply Z.mod_pos_bound. }
    destruct (IH seat1 Ha1 Hall) as [I1 I2]. cbv zeta in I1, I2.
    fold (continuous_run dev reports seat1).
    pose proof (sum_deltas_sign delta _ sigma reports Hall) as Ht.
    destruct (div_mod_step (sigma * (acc seat + delta r))
                (sigma * sum_deltas delta reports) STEP step_positive Hx Ht)
      as [Hm Hq].
    assert (Hsum : sigma * (acc seat1 + sum_deltas delta reports)
                   = (sigma * (acc seat + delta r)) mod STEP
                     + sigma * sum_deltas delta reports).
    { rewrite Z.mul_add_distr_l, Hacc, Hrem. reflexivity. }
    assert (Hall' : sigma * (acc seat + (delta r + sum_deltas delta reports))
                    = sigma * (acc seat + delta r) + sigma * sum_deltas delta reports)
      by lia.
    split.
    + rewrite I1, Hsum, Hm, Hall'. reflexivity.
    + rewrite I2, Hdir, Hsum, Hall', <- Hq, replicate_add, <- app_assoc, Habs.
      f_equal. f_equal.
      destruct (Z.to_nat (sigma * (acc seat + delta r) / STEP)) eqn:Hn; [reflexivity|].
      assert (Hbig : STEP <= sigma * (acc seat + delta r)).
      { destruct (Z.lt_ge_cases (sigma * (acc seat + delta r)) STEP) as [Hlt|Hge];
          [|exact Hge].
        rewrite Z.div_small in Hn by lia. discriminate. }
      f_equal. destruct Hsig as [-> | ->].
      * destruct (Z.gtb_spec (acc seat + delta r) 0); [reflexivity|lia].
      * destruct (Z.gtb_spec (acc seat + delta r) 0); [lia|reflexivity].
Qed.

(** From an accumulator at 0 and for deltas of one sign: the events and
    the remainder in terms of the sum of the deltas. *)
Lemma same_sign_from_zero (reports : list scroll_report) (seat : MetaSeatNative) :
  acc seat = 0 ->
  Forall (fun r => finished r = false) reports ->
  Forall (fun r => 0 <= delta r) reports \/ Forall (fun r => delta r <= 0) reports ->
  let total := sum_deltas delta reports in
  acc (continuous_run dev reports seat) = Z.rem total STEP
  /\ discrete_directions axis (events (continuous_run dev reports seat))
     = discrete_directions axis (events seat)
       ++ replicate (Z.to_nat (Z.abs total / STEP))
            (if total >? 0 then forwards else backwards).
Proof.
  intros H0 Hfin Hsign total.
  assert (Hcase : exists sigma, (sigma = 1 \/ sigma = -1)
            /\ Forall (fun r => finished r = false /\ 0 <= sigma * delta r) reports).
  { destruct Hsign as [Hp|Hn]; [exists 1|exists (-1)]; (split; [auto|]).
    - apply Forall_forall. intros r Hr. rewrite Forall_forall in Hfin, Hp.
      split; [auto|]. specialize (Hp r Hr). lia.
    - apply Forall_forall. intros r Hr. rewrite Forall_forall in Hfin, Hn.
      split; [auto|]. specialize (Hn r Hr). lia. }
  destruct Hcase as (sigma & Hsig & Hall).
  destruct (same_sign_run sigma reports seat Hsig) as [R1 R2]; [lia|exact Hall|].
  cbv zeta in R1, R2. rewrite H0, Z.add_0_l in R1, R2. fold total in R1, R2.
  pose proof (sum_deltas_sign delta _ sigma reports Hall) as Ht. fold total in Ht.
  destruct (rem_signed sigma total STEP Hsig Ht step_positive) as [Hrem Habs].
  split.
  - rewrite <- Hrem in R1. destruct Hsig as [-> | ->]; lia.
  - rewrite R2, Habs. f_equal.
    destruct (Z.to_nat (sigma * total / STEP)) eqn:Hn; [reflexivity|].
    assert (Hbig : STEP <= sigma * total).
    { destruct (Z.lt_ge_cases (sigma * total) STEP) as [Hlt|Hge]; [|exact Hge].
      rewrite Z.div_small in Hn by lia. discriminate. }
    f_equal. destruct Hsig as [-> | ->].
    + destruct (Z.gtb_spec total 0); [reflexivity|lia].
    + destruct (Z.gtb_spec total 0); [lia|reflexivity].
Qed.

End Axis.

Lemma horizontal_step (dev : ClutterInputDevice) (stage : nat) :
  device_stage dev = Some stage ->
  forall seat r,
    horizontal_finished r = false ->
    accum_scroll_dx (continuous dev seat r)
    = Z.rem (accum_scroll_dx seat + scroll_dx r) STEP
    /\ discrete_directions is_horizontal (events (continuous dev seat r))
       = discrete_directions is_horizontal (events seat)
         ++ replicate (Z.to_nat (Z.abs (accum_scroll_dx seat + scroll_dx r) / STEP))
              (if accum_scroll_dx seat + scroll_dx r >? 0
               then CLUTTER_SCROLL_RIGHT else CLUTTER_SCROLL_LEFT).
Proof.
  intros Hst seat r Hf.
  pose proof (continuous_horizontal dev stage seat r Hst) as H.
  cbv zeta in H. rewrite Hf in H. exact H.
Qed.

Lemma vertical_step (dev : ClutterInputDevice) (stage : nat) :
  device_stage dev = Some stage ->
  forall seat r,
    vertical_finished r = false ->
    accum_scroll_dy (continuous dev seat r)
    = Z.rem (accum_scroll_dy seat + scroll_dy r) STEP
    /\ discrete_directions is_vertical (events (continuous dev seat r))
       = discrete_directions is_vertical (events seat)
         ++ replicate (Z.to_nat (Z.abs (accum_scroll_dy seat + scroll_dy r) / STEP))
              (if accum_scroll_dy seat + scroll_dy r >? 0
               then CLUTTER_SCROLL_DOWN else CLUTTER_SCROLL_UP).
Proof.
  intros Hst seat r Hf.
  pose proof (continuous_vertical dev stage seat r Hst) as H.
  cbv zeta in H. rewrite Hf in H. exact H.
Qed.

(** A report with the finish flag of an axis: the accumulator of the axis
    is 0 after it and no discrete event is queued on the axis. *)
Lemma horizontal_finish (dev : ClutterInputDevice) (stage : nat) :
  device_stage dev = Some stage ->
  forall seat r,
    horizontal_finished r = true ->
    accum_scroll_dx (continuous dev seat r) = 0
    /\ discrete_directions is_horizontal (events (continuous dev seat r))
       = discrete_directions is_horizontal (events seat).
Proof.
  intros Hst seat r Hf.
  pose proof (continuous_horizontal dev stage seat r Hst) as H.
  cbv zeta in H. rewrite Hf in H.
  destruct H as [Ha Hd]. split.
  - rewrite Ha. reflexivity.
  - rewrite Hd. change (Z.to_nat (Z.abs 0 / STEP)) with 0%nat.
    apply app_nil_r.
Qed.

Lemma vertical_finish (dev : ClutterInputDevice) (stage : nat) :
  device_stage dev = Some stage ->
  forall seat r,
    vertical_finished r = true ->
    accum_scroll_dy (continuous dev seat r) = 0
    /\ discrete_directions is_vertical (events (continuous dev seat r))
       = discrete_directions is_vertical (events seat).
Proof.
  intros Hst seat r Hf.
  pose proof (continuous_vertical dev stage seat r Hst) as H.
  cbv zeta in H. rewrite Hf in H.
  destruct H as [Ha Hd]. split.
  - rewrite Ha. reflexivity.
  - rewrite Hd. change (Z.to_nat (Z.abs 0 / STEP)) with 0%nat.
    apply app_nil_r.
Qed.

End Step.

(** C6, as stated, fails: 15 units to the right and then 15 units back.
    The deltas sum to 0 = 0 x 10 and their magnitudes to 30 = 3 x 10, and
    two discrete events are synthesized, one to the right and one to the
    left. *)
Lemma scroll_back_and_forth_counterexample :
  let reports := [ScrollReport 1000 15 0 0 CLUTTER_SCROLL_FINISHED_NONE;
                  ScrollReport 2000 (-15) 0 0 CLUTTER_SCROLL_FINISHED_NONE] in
  let seat' := notify_scrolls 1 mouse reports meta_seat_native_new in
  Z.abs (sum_deltas scroll_dx reports) = 0 * DISCRETE_SCROLL_STEP 1
  /\ sum_deltas (fun r => Z.abs (scroll_dx r)) reports = 3 * DISCRETE_SCROLL_STEP 1
  /\ discrete_directions is_horizontal (events seat')
     = [CLUTTER_SCROLL_RIGHT; CLUTTER_SCROLL_LEFT]
  /\ accum_scroll_dx seat' = 0.
Proof. vm_compute. repeat split; reflexivity. Qed.

Lemma abs_multiple (total k s : Z) :
  0 < s -> Z.abs total = k * s -> Z.abs total / s = k /\ Z.rem total s = 0.
Proof.
  intros Hs Hk. split.
  - rewrite Hk. apply Z.div_mul. lia.
  - destruct (Z.abs_eq_or_opp total) as [He|He].
    + rewrite <- He, Hk. apply Z.rem_mul. lia.
    + replace total with (- (k * s)) by lia.
      rewrite Z.rem_opp_l'. rewrite Z.rem_mul by lia. reflexivity.
Qed.

(** C6, amended. The amounts are those the float accumulation holds
    exactly. For a sequence of continuous reports from a device with a
    stage, on an axis whose accumulator starts at 0, with no finish flag
    for that axis and with deltas of one sign: when the deltas sum to a
    magnitude of k steps of 10 units, k discrete events are synthesized on
    that axis, all in the direction of the sum, and the accumulator ends at
    0; in general the events are as many as the whole steps in the sum and
    the accumulator ends at the remainder of the sum, with its sign. After
    every report without the finish flag the accumulator is the remainder
    of what it held plus the delta; a report with the finish flag of an
    axis leaves that accumulator at 0 and synthesizes nothing on it. *)
Theorem discrete_scroll_of_one_direction (scale : Z) (dev : ClutterInputDevice)
    (stage : nat) (reports : list scroll_report) (seat : MetaSeatNative) :
  0 < scale ->
  device_stage dev = Some stage ->
  let seat' := notify_scrolls scale dev reports seat in
  (accum_scroll_dx seat = 0 ->
   Forall (fun r => horizontal_finished r = false) reports ->
   Forall (fun r => 0 <= scroll_dx r) reports
     \/ Forall (fun r => scroll_dx r <= 0) reports ->
   let total := sum_deltas scroll_dx reports in
   accum_scroll_dx seat' = Z.rem total (DISCRETE_SCROLL_STEP scale)
   /\ discrete_directions is_horizontal (events seat')
      = discrete_directions is_horizontal (events seat)
        ++ replicate (Z.to_nat (Z.abs total / DISCRETE_SCROLL_STEP scale))
             (if total >? 0 then CLUTTER_SCROLL_RIGHT else CLUTTER_SCROLL_LEFT)
   /\ forall k, Z.abs total = k * DISCRETE_SCROLL_STEP scale ->
        accum_scroll_dx seat' = 0
        /\ discrete_directions is_horizontal (events seat')
           = discrete_directions is_horizontal (events seat)
             ++ replicate (Z.to_nat k)
                  (if total >? 0 then CLUTTER_SCROLL_RIGHT else CLUTTER_SCROLL_LEFT))
  /\ (accum_scroll_dy seat = 0 ->
      Forall (fun r => vertical_finished r = false) reports ->
      Forall (fun r => 0 <= scroll_dy r) reports
        \/ Forall (fun r => scroll_dy r <= 0) reports ->
      let total := sum_deltas scroll_dy reports in
      accum_scroll_dy seat' = Z.rem total (DISCRETE_SCROLL_STEP scale)
      /\ discrete_directions is_vertical (events seat')
         = discrete_directions is_vertical (events seat)
           ++ replicate (Z.to_nat (Z.abs total / DISCRETE_SCROLL_STEP scale))
                (if total >? 0 then CLUTTER_SCROLL_DOWN else CLUTTER_SCROLL_UP)
      /\ forall k, Z.abs total = k * DISCRETE_SCROLL_STEP scale ->
           accum_scroll_dy seat' = 0
           /\ discrete_directions is_vertical (events seat')
              = discrete_directions is_vertical (events seat)
                ++ replicate (Z.to_nat k)
                     (if total >? 0 then CLUTTER_SCROLL_DOWN else CLUTTER_SCROLL_UP))
  /\ (forall seat0 r,
        (horizontal_finished r = false ->
           accum_scroll_dx (continuous scale dev seat0 r)
           = Z.rem (accum_scroll_dx seat0 + scroll_dx r) (DISCRETE_SCROLL_STEP scale))
        /\ (vertical_finished r = false ->
              accum_scroll_dy (continuous scale dev seat0 r)
              = Z.rem (accum_scroll_dy seat0 + scroll_dy r)
                  (DISCRETE_SCROLL_STEP scale))
        /\ (horizontal_finished r = true ->
              accum_scroll_dx (continuous scale dev seat0 r) = 0
              /\ discrete_directions is_horizontal
                   (events (continuous scale dev seat0 r))
                 = discrete_directions is_horizontal (events seat0))
        /\ (vertical_finished r = true ->
              accum_scroll_dy (continuous scale dev seat0 r) = 0
              /\ discrete_directions is_vertical
                   (events (continuous scale dev seat0 r))
                 = discrete_directions is_vertical (events seat0))).
Proof.
  intros Hscale Hst seat'.
  assert (Hstep : 0 < DISCRETE_SCROLL_STEP scale) by (unfold DISCRETE_SCROLL_STEP; lia).
  subst seat'. rewrite notify_scrolls_run.
  split; [|split].
  - intros H0 Hfin Hsign total.
    destruct (same_sign_from_zero scale dev is_horizontal accum_scroll_dx scroll_dx
                horizontal_finished CLUTTER_SCROLL_RIGHT CLUTTER_SCROLL_LEFT Hstep
                (horizontal_step scale dev stage Hst) reports seat H0 Hfin Hsign)
      as [A D].
    fold total in A, D.
    split; [exact A|]. split; [exact D|].
    intros k Hk. destruct (abs_multiple total k _ Hstep Hk) as [Hq Hr].
    rewrite A, D, Hq, Hr. auto.
  - intros H0 Hfin Hsign total.
    destruct (same_sign_from_zero scale dev is_vertical accum_scroll_dy scroll_dy
                vertical_finished CLUTTER_SCROLL_DOWN CLUTTER_SCROLL_UP Hstep
                (vertical_step scale dev stage Hst) reports seat H0 Hfin Hsign)
      as [A D].
    fold total in A, D.
    split; [exact A|]. split; [exact D|].
    intros k Hk. destruct (abs_multiple total k _ Hstep Hk) as [Hq Hr].
    rewrite A, D, Hq, Hr. auto.
  - intros seat0 r. repeat split.
    + intros Hf. apply (horizontal_step scale dev stage Hst seat0 r Hf).
    + intros Hf. apply (vertical_step scale dev stage Hst seat0 r Hf).
    + apply (horizontal_finish scale dev stage Hst seat0 r H).
    + apply (horizontal_finish scale dev stage Hst seat0 r H).
    + apply (vertical_finish scale dev stage Hst seat0 r H).
    + apply (vertical_finish scale dev stage Hst seat0 r H).
Qed.


(** Three reports to the right, of 6, 7 and 7 units: two steps of 10. *)
Definition to_the_right : list scroll_report :=
  [ScrollReport 1000 6 0 0 CLUTTER_SCROLL_FINISHED_NONE;
   ScrollReport 2000 7 0 0 CLUTTER_SCROLL_FINISHED_NONE;
   ScrollReport 3000 7 0 0 CLUTTER_SCROLL_FINISHED_NONE].

Lemma discrete_scroll_of_one_direction_witness :
  accum_scroll_dx (notify_scrolls 1 mouse to_the_right meta_seat_native_new) = 0
  /\ discrete_directions is_horizontal
       (events (notify_scrolls 1 mouse to_the_right meta_seat_native_new))
     = discrete_directions is_horizontal (events meta_seat_native_new)
       ++ replicate (Z.to_nat 2)
            (if sum_deltas scroll_dx to_the_right >? 0
             then CLUTTER_SCROLL_RIGHT else CLUTTER_SCROLL_LEFT).
Proof.
  apply (discrete_scroll_of_one_direction 1 mouse 1%nat to_the_right
           meta_seat_native_new).
  - lia.
  - reflexivity.
  - reflexivity.
  - repeat constructor.
  - left. repeat constructor; simpl; lia.
  - reflexivity.
Defined.

(** The same distance in half units ([scale] 2): 12, 14 and 14 halves. *)
Example half_units_to_the_right :
  let reports := [ScrollReport 1000 12 0 0 CLUTTER_SCROLL_FINISHED_NONE;
                  ScrollReport 2000 14 0 0 CLUTTER_SCROLL_FINISHED_NONE;
                  ScrollReport 3000 14 0 0 CLUTTER_SCROLL_FINISHED_NONE] in
  discrete_directions is_horizontal
    (events (notify_scrolls 2 mouse reports meta_seat_native_new))
  = [CLUTTER_SCROLL_RIGHT; CLUTTER_SCROLL_RIGHT].
Proof. vm_compute. reflexivity. Qed.
(** *** The button mask *)

Definition event_modifier_state (e : ClutterEvent) : Z :=
  match e with
  | button_event _ _ _ m _ _ _ _ _ _ => m
  | scroll_event _ _ _ m _ _ _ _ _ _ _ _ => m
  end.

Lemma land_lor_lnot (a m : Z) : Z.land (Z.lor a m) (Z.lnot m) = Z.land a (Z.lnot m).
Proof.
  rewrite Z.land_lor_distr_l, Z.land_lnot_diag, Z.lor_0_r. reflexivity.
Qed.

Lemma land_lnot_disjoint (a m : Z) : Z.land a m = 0 -> Z.land a (Z.lnot m) = a.
Proof.
  intros H. apply Z.bits_inj'. intros n Hn.
  rewrite Z.land_spec, Z.lnot_spec by exact Hn.
  assert (Hb : Z.testbit (Z.land a m) n = false) by (rewrite H; apply Z.testbit_0_l).
  rewrite Z.land_spec in Hb.
  destruct (Z.testbit a n); destruct (Z.testbit m n); simpl in *; congruence.
Qed.

(** A report the count lets through, from a device with a stage and for a
    button numbered 1 to 7: the mask of the button is set or cleared
    before the event is made. *)
Lemma notify_button_mask (seat : MetaSeatNative) (dev : ClutterInputDevice)
    (time_us button state : Z) (stage : nat) :
  passes_button_count seat button state = true ->
  device_stage dev = Some stage ->
  1 <= button_number dev button <= 7 ->
  let mask := nth (Z.to_nat (button_number dev button - 1)) maskmap 0 in
  let seat' := meta_seat_native_notify_button seat dev time_us button state in
  button_state seat'
  = (if negb (state =? 0) then Z.lor (button_state seat) mask
     else Z.land (button_state seat) (Z.lnot mask))
  /\ exists e, events seat' = events seat ++ [e]
       /\ event_modifier_state e = button_state seat'.
Proof.
  unfold passes_button_count, meta_seat_native_notify_button.
  assert (He : events (snd (update_button_count seat button state)) = events seat
               /\ button_state (snd (update_button_count seat button state))
                  = button_state seat).
  { unfold update_button_count.
    destruct (negb (state =? 0)); [split; reflexivity|].
    destruct (_ =? 0); split; reflexivity. }
  destruct (update_button_count seat button state) as [count seat1]; simpl in *.
  destruct He as [He Hb].
  intros Hp Hst Hnr.
  destruct (negb (state =? 0) && (count >? 1)); [discriminate|].
  destruct ((state =? 0) && negb (count =? 0)); [discriminate|].
  rewrite Hst.
  replace ((button_number dev button <? 1) || (button_number dev button >? 12))
    with false by (symmetry; apply orb_false_iff; split; lia).
  replace (button_number dev button <? 8) with true by (symmetry; lia).
  destruct (negb (state =? 0)); simpl; rewrite He, Hb;
    (split; [reflexivity|]); eexists; (split; [reflexivity|]); reflexivity.
Qed.

(** X16. A press of a button that is up and the release that follows,
    from a device with a stage and for one of the five buttons with a
    mask: the press sets the mask of the button in [button_state], the
    release clears it, and each of the two events carries the state as its
    own report leaves it. When the mask was clear before, the state is
    back to what it was. *)
Theorem button_state_follows_button (seat : MetaSeatNative) (dev : ClutterInputDevice)
    (time_1 time_2 button : Z) (stage : nat) :
  button_count seat button = 0 ->
  device_stage dev = Some stage ->
  1 <= button_number dev button <= 5 ->
  let mask := nth (Z.to_nat (button_number dev button - 1)) maskmap 0 in
  let seat1 := meta_seat_native_notify_button seat dev time_1 button 1 in
  let seat2 := meta_seat_native_notify_button seat1 dev time_2 button 0 in
  mask <> 0
  /\ button_state seat1 = Z.lor (button_state seat) mask
  /\ button_state seat2 = Z.land (button_state seat) (Z.lnot mask)
  /\ (Z.land (button_state seat) mask = 0 -> button_state seat2 = button_state seat)
  /\ exists e1 e2, events seat2 = events seat ++ [e1; e2]
       /\ event_modifier_state e1 = button_state seat1
       /\ event_modifier_state e2 = button_state seat2.
Proof.
  intros Hc Hst Hnr mask seat1 seat2.
  destruct (update_button_count_press seat button) as [Hf Hs].
  assert (Hp1 : passes_button_count seat button 1 = true).
  { unfold passes_button_count. rewrite Hf, Hc. reflexivity. }
  destruct (notify_button_mask seat dev time_1 button 1 stage Hp1 Hst ltac:(lia))
    as (Hb1 & e1 & He1 & Hm1).
  simpl in Hb1. fold seat1 in Hb1, He1, Hm1. fold mask in Hb1.
  assert (Hc1 : button_count seat1 button = 1).
  { subst seat1. rewrite notify_button_count, Hs, Hc. reflexivity. }
  destruct (update_button_count_release seat1 button) as [Hf2 Hs2]; [lia|].
  assert (Hp2 : passes_button_count seat1 button 0 = true).
  { unfold passes_button_count. rewrite Hf2, Hc1. reflexivity. }
  destruct (notify_button_mask seat1 dev time_2 button 0 stage Hp2 Hst ltac:(lia))
    as (Hb2 & e2 & He2 & Hm2).
  simpl in Hb2. fold seat2 in Hb2, He2, Hm2. fold mask in Hb2.
  rewrite Hb1, land_lor_lnot in Hb2.
  split; [|split; [exact Hb1|split; [exact Hb2|split]]].
  - subst mask.
    assert (Hn : button_number dev button = 1 \/ button_number dev button = 2
                 \/ button_number dev button = 3 \/ button_number dev button = 4
                 \/ button_number dev button = 5) by lia.
    destruct Hn as [->|[->|[->|[->| ->]]]]; vm_compute; discriminate.
  - intros Hd. rewrite Hb2. now apply land_lnot_disjoint.
  - exists e1, e2. rewrite He2, He1, <- app_assoc. repeat split; assumption.
Qed.

(** The right button, which has the secondary button number 3, is given
    the third entry of [maskmap], CLUTTER_BUTTON2_MASK. *)
Lemma button_state_follows_button_witness :
  let seat1 := meta_seat_native_notify_button meta_seat_native_new mouse 1000
                 BTN_RIGHT 1 in
  let seat2 := meta_seat_native_notify_button seat1 mouse 2000 BTN_RIGHT 0 in
  CLUTTER_BUTTON2_MASK <> 0
  /\ button_state seat1 = Z.lor 0 CLUTTER_BUTTON2_MASK
  /\ button_state seat2 = Z.land 0 (Z.lnot CLUTTER_BUTTON2_MASK)
  /\ (Z.land 0 CLUTTER_BUTTON2_MASK = 0 -> button_state seat2 = 0)
  /\ exists e1 e2, events seat2 = [] ++ [e1; e2]
       /\ event_modifier_state e1 = button_state seat1
       /\ event_modifier_state e2 = button_state seat2.
Proof.
  apply (button_state_follows_button meta_seat_native_new mouse 1000 2000 BTN_RIGHT
           1%nat).
  - reflexivity.
  - reflexivity.
  - vm_compute. split; discriminate.
Defined.

(** *** Discrete scroll reports *)

(** X17. A discrete scroll report from a device with a stage queues two
    events whatever the number of clicks: a smooth one, flagged as
    emulated, with ten times the clicks as deltas, and one discrete event,
    not emulated, whose direction is horizontal as soon as the horizontal
    number is not zero; the accumulators of the continuous scroll are not
    touched. With both numbers zero the smooth event is queued and the
    code then reaches [g_assert_not_reached]. *)
Theorem discrete_scroll_report (seat : MetaSeatNative) (dev : ClutterInputDevice)
    (time_us discrete_dx discrete_dy source : Z) (stage : nat) :
  device_stage dev = Some stage ->
  meta_seat_native_notify_discrete_scroll seat dev time_us discrete_dx discrete_dy
    source
  = if (discrete_dx =? 0) && (discrete_dy =? 0) then None
    else
      let direction :=
        if discrete_dx >? 0 then CLUTTER_SCROLL_RIGHT
        else if discrete_dx <? 0 then CLUTTER_SCROLL_LEFT
        else if discrete_dy >? 0 then CLUTTER_SCROLL_DOWN
        else CLUTTER_SCROLL_UP in
      Some (Seat (button_counts seat) (button_state seat) (touch_states seat)
              (accum_scroll_dx seat) (accum_scroll_dy seat)
              (pointer_x seat) (pointer_y seat)
              (events seat
               ++ [scroll_event CLUTTER_SCROLL_SMOOTH time_us stage
                     (button_state seat) (discrete_dx * 10) (discrete_dy * 10)
                     (pointer_x seat) (pointer_y seat) (device_id dev) source
                     CLUTTER_SCROLL_FINISHED_NONE true;
                   scroll_event direction time_us stage (button_state seat) 0 0
                     (pointer_x seat) (pointer_y seat) (device_id dev) source
                     CLUTTER_SCROLL_FINISHED_NONE false])).
Proof.
  intros Hst.
  unfold meta_seat_native_notify_discrete_scroll, discrete_to_direction,
    notify_scroll, notify_discrete_scroll.
  rewrite Hst.
  destruct (Z.eqb_spec discrete_dx 0) as [->|Hx]; simpl.
  - destruct (Z.eqb_spec discrete_dy 0) as [->|Hy]; simpl; [reflexivity|].
    destruct (Z.gtb_spec discrete_dy 0) as [Hp|Hp]; simpl.
    + unfold queue_event; simpl. now rewrite <- app_assoc.
    + destruct (Z.ltb_spec discrete_dy 0) as [Hn|Hn]; [|lia]. simpl.
      unfold queue_event; simpl. now rewrite <- app_assoc.
  - destruct (Z.gtb_spec discrete_dx 0) as [Hp|Hp]; simpl.
    + unfold queue_event; simpl. now rewrite <- app_assoc.
    + destruct (Z.ltb_spec discrete_dx 0) as [Hn|Hn]; [|lia]. simpl.
      unfold queue_event; simpl. now rewrite <- app_assoc.
Qed.

(** *** Touch slots stay low *)

(** Every entry of the table is a touch that is held, in its own slot. *)
Definition table_of_held (st : MetaSeatNative * list MetaTouchState) : Prop :=
  (forall j t, touch_states (fst st) !! j = Some (Some t) ->
     t ∈ snd st /\ seat_slot t = j)
  /\ exists k, length (touch_states (fst st)) = (5 * k)%nat.

Lemma touch_step_table (o : touch_op) (st st' : MetaSeatNative * list MetaTouchState) :
  table_of_held st -> touch_step o st = Some st' -> table_of_held st'.
Proof.
  destruct st as [seat held]. intros [Htab [k Hk]] Hstep.
  cbn [fst snd] in Htab, Hk. unfold touch_step in Hstep.
  destruct o as [d|ts].
  - destruct (acquire_table seat d) as (Hts & Hnew & Hother & Hlen).
    destruct (meta_seat_native_acquire_touch_state seat d) as [t seat'] eqn:E.
    cbn [fst snd] in Hts, Hnew, Hother, Hlen. inversion Hstep; subst; clear Hstep.
    split; cbn [fst snd].
    + intros j u Hu.
      destruct (decide (j = first_free_slot (touch_states seat))) as [->|Hne].
      * rewrite Hnew in Hu. inversion Hu; subst. split; [left|reflexivity].
      * destruct (Hother j Hne) as [Hsame|[Hnone _]]; [|congruence].
        rewrite Hsame in Hu. destruct (Htab j u Hu) as [Hin Hs].
        split; [now right|exact Hs].
    + rewrite Hlen.
      destruct (bool_decide _); [exists (S k); lia|exists k; exact Hk].
  - destruct (bool_decide (ts ∈ held)) eqn:Hin; [|discriminate].
    inversion Hstep; subst; clear Hstep.
    split; cbn [fst snd meta_seat_native_release_touch_state touch_states
                set_touch_states].
    + intros j u Hu.
      destruct (decide (j = seat_slot ts)) as [->|Hne].
      * destruct (decide (seat_slot ts < length (touch_states seat))%nat) as [Hl|Hl].
        -- rewrite list_lookup_insert_eq in Hu by exact Hl. discriminate.
        -- rewrite lookup_ge_None_2 in Hu; [discriminate|].
           rewrite length_insert. lia.
      * rewrite list_lookup_insert_ne in Hu by auto.
        destruct (Htab j u Hu) as [Hi Hs]. split; [|exact Hs].
        apply list_elem_of_filter. split; [|exact Hi].
        intros ->. now apply Hne.
    + exists k. now rewrite length_insert.
Qed.

Lemma touch_run_table (os : list touch_op) (st st' : MetaSeatNative * list MetaTouchState) :
  table_of_held st -> touch_run os st = Some st' -> table_of_held st'.
Proof.
  revert st. induction os as [|o os IH]; intros st Hst Hrun; simpl in Hrun.
  - inversion Hrun; subst. exact Hst.
  - destruct (touch_step o st) as [st1|] eqn:E; simpl in Hrun; [|discriminate].
    apply (IH st1); [|exact Hrun]. exact (touch_step_table o st st1 Hst E).
Qed.

(** The touches that fill the slots below the first free one. *)
Lemma first_free_slot_touches (l : list (option MetaTouchState)) :
  exists ts, length ts = first_free_slot l
    /\ forall i t, ts !! i = Some t -> l !! i = Some (Some t).
Proof.
  induction l as [|[t|] l IH]; simpl.
  - exists []. split; [reflexivity|]. intros i t H. discriminate.
  - destruct IH as (ts & Hl & Hts). exists (t :: ts). split; [simpl; lia|].
    intros [|i] u H; simpl in *; [congruence|now apply Hts].
  - exists []. split; [reflexivity|]. intros i t H. discriminate.
Qed.

(** X18. Over every interleaving of acquisitions and releases from a new
    seat, the seat slot of the next touch is at most the number of touches
    that are held, and the table has a multiple of 5 entries: slots are
    not leaked by releases. *)
Theorem touch_slots_stay_low (os : list touch_op) (seat : MetaSeatNative)
    (held : list MetaTouchState) (d : Z) :
  touch_run os (meta_seat_native_new, []) = Some (seat, held) ->
  (seat_slot (fst (meta_seat_native_acquire_touch_state seat d)) <= length held)%nat
  /\ exists k, n_alloc_touch_states seat = (5 * k)%nat.
Proof.
  intros Hrun.
  assert (Ht : table_of_held (seat, held)).
  { apply (touch_run_table os (meta_seat_native_new, [])); [|exact Hrun].
    split; simpl; [|exists 0%nat; reflexivity].
    intros j t H. rewrite lookup_nil in H. discriminate. }
  destruct Ht as [Htab Hk]. cbn [fst snd] in Htab, Hk. split; [|exact Hk].
  destruct (acquire_table seat d) as (Hts & _). rewrite Hts. cbn [seat_slot].
  destruct (first_free_slot_touches (touch_states seat)) as (ts & Hl & Hin).
  rewrite <- Hl. apply submseteq_length, NoDup_submseteq.
  - apply NoDup_alt. intros i j t Hi Hj.
    destruct (Htab i t (Hin i t Hi)) as [_ Hsi].
    destruct (Htab j t (Hin j t Hj)) as [_ Hsj]. congruence.
  - intros t Ht. apply list_elem_of_lookup in Ht. destruct Ht as [i Hi].
    exact (proj1 (Htab i t (Hin i t Hi))).
Qed.

Lemma touch_slots_stay_low_witness :
  (seat_slot (fst (meta_seat_native_acquire_touch_state
                     (meta_seat_native_release_touch_state three_touches
                        (TouchState 1 11)) 13))
   <= length [TouchState 2 12; TouchState 0 10])%nat
  /\ exists k,
       n_alloc_touch_states
         (meta_seat_native_release_touch_state three_touches (TouchState 1 11))
       = (5 * k)%nat.
Proof.
  apply (touch_slots_stay_low
           [Acquire 10; Acquire 11; Acquire 12; Release (TouchState 1 11)]).
  vm_compute. reflexivity.
Defined.

Lemma discrete_scroll_report_witness :
  meta_seat_native_notify_discrete_scroll meta_seat_native_new mouse 1000 2 0 0
  = Some (Seat ∅ 0 [] 0 0 16 16
            [scroll_event CLUTTER_SCROLL_SMOOTH 1000 1 0 20 0 16 16 1 0
               CLUTTER_SCROLL_FINISHED_NONE true;
             scroll_event CLUTTER_SCROLL_RIGHT 1000 1 0 0 0 16 16 1 0
               CLUTTER_SCROLL_FINISHED_NONE false]).
Proof.
  exact (discrete_scroll_report meta_seat_native_new mouse 1000 2 0 0 1%nat eq_refl).
Defined.

(** *** Key repetition *)

Section KeyFacts.

Variable xkb_state : Type.
Variable xkb_state_update_key : xkb_state -> Z -> bool -> xkb_state * Z.
Variable xkb_keymap_key_repeats : xkb_state -> Z -> bool.
Variable us2ms : Z -> Z.

Abbreviation notify_key :=
  (meta_seat_native_notify_key xkb_state xkb_state_update_key xkb_keymap_key_repeats
     us2ms).
Abbreviation repeat_fires :=
  (keyboard_repeat xkb_state xkb_state_update_key xkb_keymap_key_repeats us2ms).
Abbreviation repeats_fire :=
  (keyboard_repeats xkb_state xkb_state_update_key xkb_keymap_key_repeats us2ms).

(** The seat while [key] repeats for [dev]: [n] key events have been
    queued for the key since it went down. *)
Definition repeating (dev : ClutterInputDevice) (key : Z) (n : Z)
    (k0 k : MetaSeatNativeKeys xkb_state) : Prop :=
  repeat k = true
  /\ repeat_delay k = repeat_delay k0
  /\ repeat_interval k = repeat_interval k0
  /\ repeat_count k = n
  /\ repeat_key k = key
  /\ repeat_device k = Some dev
  /\ repeat_timer k = Some (if n =? 1 then repeat_delay k0 else repeat_interval k0)
  /\ button_count (keys_seat k) key = 1.

Lemma repeat_fires_once (dev : ClutterInputDevice) (key n time_us : Z) (stage : nat)
    (k0 k : MetaSeatNativeKeys xkb_state) :
  device_stage dev = Some stage ->
  (forall x, xkb_keymap_key_repeats x key = true) ->
  1 <= n -> n + 1 < 2^32 ->
  repeating dev key n k0 k ->
  fst (repeat_fires k time_us) = true
  /\ repeating dev key (n + 1) k0 (snd (repeat_fires k time_us))
  /\ key_events (snd (repeat_fires k time_us))
     = key_events k
       ++ [key_event (us2ms time_us) stage key AUTOREPEAT_VALUE
             (button_state (keys_seat k)) true (device_id dev)]
  /\ button_state (keys_seat (snd (repeat_fires k time_us)))
     = button_state (keys_seat k).
Proof.
  intros Hst Hrep Hn1 Hn2 (Hr & Hd & Hi & Hc & Hk & Hdev & Ht & Hb).
  destruct k as [s x r rd ri rc rk rt rdev evs effs]; simpl in *.
  subst r rd ri rc rk rdev rt.
  unfold keyboard_repeat, meta_seat_native_notify_key; simpl.
  rewrite Hst; simpl. rewrite Hrep; simpl.
  rewrite Z.mod_small by lia.
  destruct (Z.eqb_spec (n + 1) 1) as [E1|E1]; [lia|]. simpl.
  destruct (Z.eqb_spec (n + 1) 2) as [E2|E2]; simpl.
  - unfold repeating; simpl.
    destruct (Z.eqb_spec (n + 1) 1); [lia|]. repeat split; auto.
  - unfold repeating; simpl.
    destruct (Z.eqb_spec (n + 1) 1); [lia|].
    destruct (Z.eqb_spec n 1); [lia|]. repeat split; auto.
Qed.

Lemma repeats_fire_many (dev : ClutterInputDevice) (key : Z) (stage : nat)
    (times : list Z) (n : Z) (k0 k : MetaSeatNativeKeys xkb_state) :
  device_stage dev = Some stage ->
  (forall x, xkb_keymap_key_repeats x key = true) ->
  1 <= n -> n + Z.of_nat (length times) < 2^32 ->
  repeating dev key n k0 k ->
  repeating dev key (n + Z.of_nat (length times)) k0 (repeats_fire times k)
  /\ key_events (repeats_fire times k)
     = key_events k
       ++ List.map (fun t => key_event (us2ms t) stage key AUTOREPEAT_VALUE
                               (button_state (keys_seat k)) true (device_id dev))
            times.
Proof.
  intros Hst Hrep. revert n k.
  induction times as [|t times IH]; intros n k Hn1 Hn2 Hk.
  - simpl. rewrite Z.add_0_r, app_nil_r. split; [exact Hk|reflexivity].
  - simpl length in Hn2. rewrite Nat2Z.inj_succ in Hn2.
    destruct (repeat_fires_once dev key n t stage k0 k Hst Hrep Hn1 ltac:(lia) Hk)
      as (_ & Hk1 & He1 & Hb1).
    destruct (IH (n + 1) (snd (repeat_fires k t)) ltac:(lia) ltac:(lia) Hk1)
      as [Hk2 He2].
    unfold keyboard_repeats in *. simpl fold_left.
    split.
    + simpl length. rewrite Nat2Z.inj_succ.
      replace (n + Z.succ (Z.of_nat (length times)))
        with (n + 1 + Z.of_nat (length times)) by lia.
      exact Hk2.
    + rewrite He2, He1, Hb1, <- app_assoc. reflexivity.
Qed.

(** X19. A key that is up and repeats in the keymap is pressed on a
    device with a stage, with repetition enabled: the press arms the
    timer with [repeat_delay]; the first callback of the timer arms it
    with [repeat_interval], where it stays; every callback continues and
    queues one key event for the key, flagged as repeated and timed in
    milliseconds by [us2ms] of the time of the source, and leaves the
    count of the key at 1. *)
Theorem key_repeats_after_delay (k : MetaSeatNativeKeys xkb_state)
    (dev : ClutterInputDevice) (time_us key : Z) (update_keys : bool)
    (stage : nat) (times : list Z) :
  device_stage dev = Some stage ->
  repeat k = true ->
  (forall x, xkb_keymap_key_repeats x key = true) ->
  button_count (keys_seat k) key = 0 ->
  Z.of_nat (length times) + 1 < 2^31 ->
  let k1 := notify_key k dev time_us key 1 update_keys in
  let kn := repeats_fire times k1 in
  repeat_timer k1 = Some (repeat_delay k)
  /\ repeat_timer kn
     = Some (match times with [] => repeat_delay k | _ :: _ => repeat_interval k end)
  /\ repeat_device kn = Some dev
  /\ button_count (keys_seat kn) key = 1
  /\ key_events kn
     = key_events k
       ++ key_event (us2ms time_us) stage key 1 (button_state (keys_seat k)) false
            (device_id dev)
          :: List.map (fun t => key_event (us2ms t) stage key AUTOREPEAT_VALUE
                                  (button_state (keys_seat k)) true (device_id dev))
               times.
Proof.
  intros Hst Hr Hrep Hc Hlen k1 kn.
  assert (H1 : repeating dev key 1 k k1
               /\ key_events k1
                  = key_events k
                    ++ [key_event (us2ms time_us) stage key 1
                          (button_state (keys_seat k)) false (device_id dev)]
               /\ button_state (keys_seat k1) = button_state (keys_seat k)).
  { subst k1 kn. clear Hlen.
    destruct k as [s x r rd ri rc rk rt rdev evs effs]; simpl in *. subst.
    unfold meta_seat_native_notify_key, update_button_count; simpl.
    rewrite Hc; simpl. rewrite Hst; simpl.
    destruct (xkb_state_update_key x key true) as [x1 c1]; simpl.
    assert (Hq : forall kk : MetaSeatNativeKeys xkb_state,
               repeat kk = true ->
               (negb (repeat kk) || negb (xkb_keymap_key_repeats (xkb kk) key))
               = false)
      by (intros kk Hk; rewrite Hk, Hrep; reflexivity).
    destruct (update_keys && negb (Z.land c1 XKB_STATE_LEDS =? 0)); simpl;
      rewrite Hrep; simpl;
      (destruct rt; simpl; unfold repeating; simpl;
       rewrite ?button_count_insert_eq; repeat split; auto). }
  destruct H1 as (Hk1 & He1 & Hb1).
  split; [exact (proj1 (proj2 (proj2 (proj2 (proj2 (proj2 (proj2 Hk1)))))))|].
  destruct (repeats_fire_many dev key stage times 1 k k1 Hst Hrep ltac:(lia)
              ltac:(lia) Hk1) as [Hkn Hen].
  fold kn in Hkn, Hen.
  destruct Hkn as (_ & _ & _ & _ & _ & Hdev & Ht & Hb).
  split; [|split; [exact Hdev|split; [exact Hb|]]].
  - rewrite Ht. destruct times as [|t times]; [reflexivity|].
    simpl length. rewrite Nat2Z.inj_succ.
    destruct (Z.eqb_spec (1 + Z.succ (Z.of_nat (length times))) 1); [lia|reflexivity].
  - rewrite Hen, He1, Hb1, <- app_assoc. reflexivity.
Qed.

(** X20. The release of a key that no other device holds, or that was
    never seen to go down, stops the repetition, whichever key repeats and
    whether or not the device has a stage: no timer is left, and a
    callback that still runs removes itself and queues nothing. *)
Theorem key_release_stops_repeat (k : MetaSeatNativeKeys xkb_state)
    (dev : ClutterInputDevice) (time_us key : Z) (update_keys : bool)
    (time_next : Z) :
  0 <= button_count (keys_seat k) key <= 1 ->
  let k1 := notify_key k dev time_us key 0 update_keys in
  repeat_timer k1 = None
  /\ button_count (keys_seat k1) key = 0
  /\ repeat_fires k1 time_next = (false, k1).
Proof.
  intros Hc k1.
  assert (H1 : repeat_timer k1 = None /\ button_count (keys_seat k1) key = 0).
  { subst k1.
    destruct k as [s x r rd ri rc rk rt rdev evs effs]; simpl in *.
    unfold meta_seat_native_notify_key, update_button_count; simpl.
    destruct (Z.eqb_spec (button_count s key) 0) as [E0|E0]; simpl.
    - destruct (device_stage dev) as [stage|]; simpl.
      + destruct (xkb_state_update_key x key false) as [x1 c1]; simpl.
        destruct (update_keys && negb (Z.land c1 XKB_STATE_LEDS =? 0)); simpl;
          destruct rt; simpl; auto.
      + destruct rt; simpl; auto.
    - assert (E1 : button_count s key = 1) by lia.
      rewrite E1; simpl.
      destruct (device_stage dev) as [stage|]; simpl.
      + destruct (xkb_state_update_key x key false) as [x1 c1]; simpl.
        destruct (update_keys && negb (Z.land c1 XKB_STATE_LEDS =? 0)); simpl;
          destruct rt; simpl; rewrite ?button_count_insert_eq; auto.
      + destruct rt; simpl; rewrite ?button_count_insert_eq; auto. }
  destruct H1 as [Ht Hb]. split; [exact Ht|split; [exact Hb|]].
  unfold keyboard_repeat. rewrite Ht. reflexivity.
Qed.

End KeyFacts.

(** A keyboard on the seat as [meta_seat_native_new] leaves it, with a
    keymap in which every key repeats and no key changes the LEDs. *)
Definition keyboard : ClutterInputDevice :=
  Device 3 CLUTTER_KEYBOARD_DEVICE (Some 1%nat) None 0 0.

Definition plain_update_key (x : unit) (key : Z) (down : bool) : unit * Z := (x, 0).
Definition every_key_repeats (x : unit) (key : Z) : bool := true.
Definition thousandth (us : Z) : Z := us / 1000.

Definition new_seat_keys : MetaSeatNativeKeys unit :=
  SeatKeys meta_seat_native_new tt true 250 33 0 0 None None [] [].

Definition key_30_down : MetaSeatNativeKeys unit :=
  meta_seat_native_notify_key unit plain_update_key every_key_repeats thousandth
    new_seat_keys keyboard 1000 30 1 true.

Lemma key_repeats_after_delay_witness :
  let kn :=
    keyboard_repeats unit plain_update_key every_key_repeats thousandth
      [251000; 284000] key_30_down in
  repeat_timer key_30_down = Some 250
  /\ repeat_timer kn = Some 33
  /\ repeat_device kn = Some keyboard
  /\ button_count (keys_seat kn) 30 = 1
  /\ key_events kn
     = [] ++ [key_event 1 1 30 1 0 false 3;
              key_event 251 1 30 AUTOREPEAT_VALUE 0 true 3;
              key_event 284 1 30 AUTOREPEAT_VALUE 0 true 3].
Proof.
  apply (key_repeats_after_delay unit plain_update_key every_key_repeats thousandth
           new_seat_keys keyboard 1000 30 true 1%nat [251000; 284000]).
  - reflexivity.
  - reflexivity.
  - intros x. reflexivity.
  - reflexivity.
  - simpl. lia.
Defined.

Lemma key_release_stops_repeat_witness :
  let k1 :=
    meta_seat_native_notify_key unit plain_update_key every_key_repeats thousandth
      key_30_down keyboard 2000 30 0 true in
  repeat_timer k1 = None
  /\ button_count (keys_seat k1) 30 = 0
  /\ keyboard_repeat unit plain_update_key every_key_repeats thousandth k1 251000
     = (false, k1).
Proof.
  apply (key_release_stops_repeat unit plain_update_key every_key_repeats thousandth
           key_30_down keyboard 2000 30 true 251000).
  vm_compute. split; discriminate.
Defined.

End SeatNativeFacts.
